(** * JOILDA storage service: a shallow embedding of [services/storageService.ts]

    The module is a data-access layer of a point-of-sale application.  It keeps
    products, orders and table sessions either in a remote Firestore database
    (cloud mode) or in the browser's [localStorage] shadowed by an in-memory
    [Map] (fallback mode).

    Conventions of the embedding.
    - A JavaScript function with effects is a function of the monad [JS]:
      it takes the world and gives a completion (normal value or thrown
      error) together with the world it leaves behind.
    - The browser's [localStorage], the Firebase SDK and the remote database are
      outside the module.  The world records their contents and, for each
      call the module can make, whether the outside refuses it.
    - JS numbers that count things (stock, quantity, table number, clock) are
      integers [Z], with exact arithmetic, as it is for JS numbers on integers
      below 2^53.  Prices and totals are kept as the rationals they are
      worth, and the arithmetic on them is that of binary64 numbers, with its
      rounding.
    - The clock stands still during one call of the service: a call that
      reads it twice reads the same value.
    - A string kept in the key-value store is either plain text or the
      [JSON.stringify] image of one of the module's collections; [JSON.parse]
      inverts [JSON.stringify] on those and throws on plain text.  An entry
      that holds the image of another collection than the one its key is for
      is written by no operation of the module; the embedding lets the
      operation that meets one throw, and the statements about what an
      operation writes are made for stores whose entries hold their own
      collection. *)

From Stdlib Require Import ZArith QArith String Ascii List DecimalString DecimalPos DecimalZ.
From Stdlib Require Import SpecFloat.
From stdpp Require Import base option list gmap strings fin_maps.

#[local] Set Warnings "-clear-no-such-hyp".

Local Open Scope Z_scope.
Local Open Scope string_scope.
Local Open Scope list_scope.

(** ** Data model ([types.ts]) *)

(** Modelled from the spec: [types.ts] is not part of the sources.  The spec
    names the categories of the seed catalog; any other category is kept by
    its label. *)
Inductive Category : Type :=
| BEBIDAS
| TIRA_GOSTO
| OtherCategory (label : string).

(** Modelled from the spec: the enum [OrderStatus] of [types.ts]; the spec
    lists PENDING, PAID, CANCELED and leaves the others open. *)
Inductive OrderStatus : Type :=
| PENDING
| PAID
| CANCELED
| OtherStatus (label : string).

(** Modelled from the spec: the enum [TableStatus] of [types.ts]. *)
Inductive TableStatus : Type :=
| CLOSING_REQUESTED
| OtherTableStatus (label : string).

(** Modelled from the spec: the interface [Product] of [types.ts], with the
    fields the seed catalog of the source gives it. *)
Record Product : Type := mkProduct {
  id : string;
  name : string;
  description : string;
  price : Q;
  category : Category;
  stock : Z;
  imageUrl : string
}.

(** One element of the [items] argument of [createOrder]. *)
Record CartItem : Type := mkCartItem {
  product : Product;
  quantity : Z
}.

(** A line item, as [createOrder] builds it. *)
Record OrderItem : Type := mkOrderItem {
  productId : string;
  item_name : string;
  item_price : Q;
  item_quantity : Z
}.

(** The [tableId] field of a stored order.  [createOrder] writes a number;
    [finalizeTable] also looks for records that hold the number's string
    form. *)
Inductive TableId : Type :=
| TableNum (n : Z)
| TableStr (s : string).

(** Modelled from the spec: the interface [Order] of [types.ts], with the
    fields [createOrder] fills in. *)
Record Order : Type := mkOrder {
  order_id : string;
  tableId : TableId;
  status : OrderStatus;
  timestamp : Z;
  items : list OrderItem;
  total : Q;
  observation : string
}.

(** Modelled from the spec: the table state written by [requestTableClose]. *)
Record TableSession : Type := mkTableSession {
  table_status : TableStatus;
  paymentMethod : string
}.

Record DatabaseConfig : Type := mkDatabaseConfig {
  apiKey : string;
  authDomain : string;
  projectId : string;
  storageBucket : string;
  messagingSenderId : string;
  appId : string
}.

#[global] Instance OrderStatus_eq_dec : EqDecision OrderStatus.
Proof. solve_decision. Defined.

#[global] Instance TableId_eq_dec : EqDecision TableId.
Proof. solve_decision. Defined.

(** Field updates ([{ ...o, f: v }] and [o.f = v]). *)
Definition with_id (p : Product) (v : string) : Product :=
  mkProduct v (name p) (description p) (price p) (category p) (stock p) (imageUrl p).

Definition with_stock (p : Product) (v : Z) : Product :=
  mkProduct (id p) (name p) (description p) (price p) (category p) v (imageUrl p).

Definition with_price (p : Product) (v : Q) : Product :=
  mkProduct (id p) (name p) (description p) v (category p) (stock p) (imageUrl p).

Definition with_description (p : Product) (v : string) : Product :=
  mkProduct (id p) (name p) v (price p) (category p) (stock p) (imageUrl p).

Definition with_imageUrl (p : Product) (v : string) : Product :=
  mkProduct (id p) (name p) (description p) (price p) (category p) (stock p) v.

Definition with_status (o : Order) (v : OrderStatus) : Order :=
  mkOrder (order_id o) (tableId o) v (timestamp o) (items o) (total o) (observation o).

Definition with_order_id (o : Order) (v : string) : Order :=
  mkOrder v (tableId o) (status o) (timestamp o) (items o) (total o) (observation o).

(** ** JavaScript values and helpers *)

(** [n.toString()] and ['' + n] for an integer. *)
Definition toString (n : Z) : string := NilZero.string_of_int (Z.to_int n).

(** ** Numbers

    A JavaScript number is an IEEE 754 binary64 value, and [+] and [*] round
    to the nearest such value, ties to even: the Standard Library's
    [SpecFloat] at precision 53 with exponents below 1024.  The records keep
    a price or a total as the rational it is worth, which is how
    [JSON.stringify] and [JSON.parse] carry a finite number; the arithmetic
    of the source goes through the binary64 value. *)
Definition number : Type := spec_float.

(** An integer as a number. *)
Definition number_of_Z (z : Z) : number := binary_normalize 53 1024 z 0 false.

(** The number a rational stands for: the rational itself when binary64
    has it, the nearest binary64 value otherwise, as for a numeric literal. *)
Definition number_of_Q (q : Q) : number :=
  match Qnum q with
  | Z0 => S754_zero false
  | Zpos n => SFdiv 53 1024 (S754_finite false n 0) (S754_finite false (Qden q) 0)
  | Zneg n => SFdiv 53 1024 (S754_finite true n 0) (S754_finite false (Qden q) 0)
  end.

(** [x + y] and [x * y]. *)
Definition number_add (x y : number) : number := SFadd 53 1024 x y.

Definition number_mul (x y : number) : number := SFmul 53 1024 x y.

(** [Number.isFinite(x)]. *)
Definition finite (x : number) : bool :=
  match x with
  | S754_zero _ | S754_finite _ _ _ => true
  | S754_infinity _ | S754_nan => false
  end.

(** What a finite number is worth, in lowest terms.  [Infinity] and [NaN]
    are worth no rational; statements about the worth of a number are made
    for finite numbers. *)
Definition Q_of_number (x : number) : Q :=
  match x with
  | S754_finite s m e =>
      let n := if s then Z.neg m else Z.pos m in
      match e with
      | Z0 => inject_Z n
      | Zpos k => inject_Z (n * Z.pow_pos 2 k)
      | Zneg k => Qred (n # Pos.pow 2 k)
      end
  | _ => 0%Q
  end.

(** [a || b] on strings: the empty string is falsy. *)
Definition str_or (a b : string) : string :=
  match a with EmptyString => b | _ => a end.

(** [s.includes(pat)]. *)
Fixpoint includes (pat s : string) : bool :=
  String.prefix pat s ||
  match s with
  | EmptyString => false
  | String _ rest => includes pat rest
  end.

(** [l.findIndex(f)] and [l.find(f)] are read off stdpp's [list_find f l],
    which gives the first element that satisfies [f] together with its
    position, and [None] where JavaScript gives -1 or [undefined];
    [l[i] = x] is [<[i := x]> l] and a field update of [l[i]] is
    [alter _ i l], both at a position that [list_find] has just returned. *)

(** The strings the key-value store holds. *)
Inductive payload : Type :=
| Raw (s : string)
| ProductsJSON (ps : list Product)
| OrdersJSON (os : list Order)
| TablesJSON (ts : gmap string TableSession)
| ConfigJSON (c : DatabaseConfig).

Definition truthy (t : payload) : bool :=
  match t with
  | Raw EmptyString => false
  | _ => true
  end.

(** [x || null] and [x || d] on a string that may be [null]/[undefined];
    [if (x)] and [if (!x)] branch on [or_null x]. *)
Definition or_null (x : option payload) : option payload :=
  match x with
  | Some t => if truthy t then Some t else None
  | None => None
  end.

Definition or_default (x : option payload) (d : payload) : payload :=
  match x with
  | Some t => if truthy t then t else d
  | None => d
  end.

(** [x === null]. *)
Definition is_null (x : option payload) : bool :=
  match x with
  | Some _ => false
  | None => true
  end.

Inductive Error : Type :=
| StorageError            (* whatever [localStorage] throws: access denied, quota *)
| SyntaxError             (* [JSON.parse] *)
| FirebaseError (code : string).

Inductive Alert : Type :=
| AlertPermissionDenied
| AlertImageTooLarge
| AlertSaveError
| AlertStorageFull.

(** ** The world outside the module *)

Inductive StorageCall : Type :=
| CallGetItem (key : string)
| CallSetItem (key : string) (value : payload)
| CallRemoveItem (key : string).

(** [window.localStorage]: what it holds, and which calls it throws on
    (blocked by the browser's privacy settings, quota exceeded). *)
Record LocalStorage : Type := mkLocalStorage {
  entries : gmap string payload;
  refuses : StorageCall -> bool
}.

(** The Firebase SDK's app registry, as far as [init] looks at it. *)
Record FirebaseSDK : Type := mkFirebaseSDK {
  apps : nat;                                     (* [getApps().length] *)
  getApp_throws : bool;                           (* no default app *)
  initializeApp_error : DatabaseConfig -> option string
    (* the [code] of the error [initializeApp] throws on this configuration *)
}.

(** The remote database.  Documents are keyed by their identifier; a product or
    order document is held with its identifier filled in, as the snapshot
    mappers [{ id: d.id, ...d.data() }] read it. *)
Record Firestore : Type := mkFirestore {
  products_col : gmap string Product;
  orders_col : gmap string Order;
  tables_col : gmap string TableSession;
  outage : option string;   (* when set, every request is rejected with this code *)
  autoId : string           (* the identifier the next [addDoc] picks *)
}.

Inductive Handle : Type := FirestoreHandle.

Record World : Type := mkWorld {
  db : option Handle;                       (* [let db: any = null] *)
  memoryStore : gmap string payload;        (* [new Map<string, string>()] *)
  localStorage : LocalStorage;
  sdk : FirebaseSDK;
  cloud : Firestore;
  clock : Z;                                (* what [Date.now()] reads *)
  attempts : list DatabaseConfig;           (* the calls of [initializeApp] so far *)
  alerts : list Alert                       (* the calls of [alert] so far *)
}.

Definition set_db (v : option Handle) (w : World) : World :=
  mkWorld v (memoryStore w) (localStorage w) (sdk w) (cloud w) (clock w) (attempts w) (alerts w).

Definition set_memoryStore (v : gmap string payload) (w : World) : World :=
  mkWorld (db w) v (localStorage w) (sdk w) (cloud w) (clock w) (attempts w) (alerts w).

Definition set_entries (v : gmap string payload) (w : World) : World :=
  mkWorld (db w) (memoryStore w) (mkLocalStorage v (refuses (localStorage w)))
          (sdk w) (cloud w) (clock w) (attempts w) (alerts w).

Definition set_sdk (v : FirebaseSDK) (w : World) : World :=
  mkWorld (db w) (memoryStore w) (localStorage w) v (cloud w) (clock w) (attempts w) (alerts w).

Definition set_cloud (v : Firestore) (w : World) : World :=
  mkWorld (db w) (memoryStore w) (localStorage w) (sdk w) v (clock w) (attempts w) (alerts w).

Definition set_attempts (v : list DatabaseConfig) (w : World) : World :=
  mkWorld (db w) (memoryStore w) (localStorage w) (sdk w) (cloud w) (clock w) v (alerts w).

Definition set_alerts (v : list Alert) (w : World) : World :=
  mkWorld (db w) (memoryStore w) (localStorage w) (sdk w) (cloud w) (clock w) (attempts w) v.

Definition set_products_col (v : gmap string Product) (f : Firestore) : Firestore :=
  mkFirestore v (orders_col f) (tables_col f) (outage f) (autoId f).

Definition set_orders_col (v : gmap string Order) (f : Firestore) : Firestore :=
  mkFirestore (products_col f) v (tables_col f) (outage f) (autoId f).

Definition set_tables_col (v : gmap string TableSession) (f : Firestore) : Firestore :=
  mkFirestore (products_col f) (orders_col f) v (outage f) (autoId f).

(** ** The monad of effects *)

Inductive Completion (A : Type) : Type :=
| Normal (a : A)
| Throw (e : Error).
Arguments Normal {A} a.
Arguments Throw {A} e.

Definition JS (A : Type) : Type := World -> Completion A * World.

Definition ret {A : Type} (a : A) : JS A := fun w => (Normal a, w).

Definition bind {A B : Type} (m : JS A) (k : A -> JS B) : JS B :=
  fun w =>
    match m w with
    | (Normal a, w') => k a w'
    | (Throw e, w') => (Throw e, w')
    end.

Definition throw {A : Type} (e : Error) : JS A := fun w => (Throw e, w).

(** [try { m } catch (e) { h e }]. *)
Definition try_catch {A : Type} (m : JS A) (h : Error -> JS A) : JS A :=
  fun w =>
    match m w with
    | (Normal a, w') => (Normal a, w')
    | (Throw e, w') => h e w'
    end.

Definition get_world : JS World := fun w => (Normal w, w).

Definition modify (f : World -> World) : JS unit := fun w => (Normal tt, f w).

Declare Scope js_scope.
Delimit Scope js_scope with js.
Bind Scope js_scope with JS.
Notation "'let*' x ':=' m 'in' k" := (bind m (fun x => k))
  (at level 10, x name, m at level 100, k at level 200) : js_scope.
Notation "m ;; k" := (bind m (fun _ => k))
  (at level 100, right associativity) : js_scope.
Local Open Scope js_scope.

(** [for (x of l) body x]. *)
Fixpoint forEach {A : Type} (l : list A) (body : A -> JS unit) : JS unit :=
  match l with
  | [] => ret tt
  | x :: rest => body x ;; forEach rest body
  end.

(** ** Primitives of the environment *)

Module window.

Definition localStorage_getItem (key : string) : JS (option payload) :=
  let* w := get_world in
  if refuses (localStorage w) (CallGetItem key) then throw StorageError
  else ret (entries (localStorage w) !! key).

Definition localStorage_setItem (key : string) (value : payload) : JS unit :=
  let* w := get_world in
  if refuses (localStorage w) (CallSetItem key value) then throw StorageError
  else modify (set_entries (<[key := value]> (entries (localStorage w)))).

Definition localStorage_removeItem (key : string) : JS unit :=
  let* w := get_world in
  if refuses (localStorage w) (CallRemoveItem key) then throw StorageError
  else modify (set_entries (delete key (entries (localStorage w)))).

Definition Date_now : JS Z := let* w := get_world in ret (clock w).

Definition alert (a : Alert) : JS unit :=
  modify (fun w => set_alerts (alerts w ++ [a]) w).

End window.

(** [const memoryStore = new Map<string, string>()]. *)
Module MemoryStore.

Definition has (key : string) : JS bool :=
  let* w := get_world in ret (bool_decide (is_Some (memoryStore w !! key))).

Definition get (key : string) : JS (option payload) :=
  let* w := get_world in ret (memoryStore w !! key).

Definition set (key : string) (value : payload) : JS unit :=
  modify (fun w => set_memoryStore (<[key := value]> (memoryStore w)) w).

Definition delete (key : string) : JS unit :=
  modify (fun w => set_memoryStore (base.delete key (memoryStore w)) w).

End MemoryStore.

(** ** [safeStorage] *)

Module safeStorage.

Definition getItem (key : string) : JS (option payload) :=
  try_catch
    (let* item := window.localStorage_getItem key in
     let* held := MemoryStore.has key in
     if is_null item && held
     then (let* v := MemoryStore.get key in ret (or_null v))
     else ret item)
    (fun _ => let* v := MemoryStore.get key in ret (or_null v)).

Definition setItem (key : string) (value : payload) : JS unit :=
  MemoryStore.set key value ;;
  try_catch (window.localStorage_setItem key value) (fun _ => ret tt).

Definition removeItem (key : string) : JS unit :=
  MemoryStore.delete key ;;
  try_catch (window.localStorage_removeItem key) (fun _ => ret tt).

End safeStorage.

(** ** The Firebase SDK, as the module calls it *)

Module firebase.

Definition getApps_length : JS nat := let* w := get_world in ret (apps (sdk w)).

Definition getApp : JS unit :=
  let* w := get_world in
  if getApp_throws (sdk w) then throw (FirebaseError "app/no-app") else ret tt.

Definition initializeApp (config : DatabaseConfig) : JS unit :=
  modify (fun w => set_attempts (attempts w ++ [config]) w) ;;
  let* w := get_world in
  match initializeApp_error (sdk w) config with
  | Some code => throw (FirebaseError code)
  | None =>
      modify (set_sdk (mkFirebaseSDK (S (apps (sdk w))) false
                                     (initializeApp_error (sdk w))))
  end.

Definition getFirestore (app : unit) : Handle := FirestoreHandle.

End firebase.

(** Requests to the remote database.  A request is rejected with the code of
    the current outage when there is one; updating a document that does not
    exist is rejected with [not-found]. *)
Module firestore.

Definition request : JS unit :=
  let* w := get_world in
  match outage (cloud w) with
  | Some code => throw (FirebaseError code)
  | None => ret tt
  end.

Definition modify_cloud (f : Firestore -> Firestore) : JS unit :=
  modify (fun w => set_cloud (f (cloud w)) w).

(** [getDocs(query(collection(db, 'products'), where('name', '==', n)))] *)
Definition getDocs_products_where_name (n : string) : JS (list (string * Product)) :=
  request ;;
  let* w := get_world in
  ret (map_to_list (filter (fun kv => name kv.2 = n) (products_col (cloud w)))).

(** [getDocs(query(collection(db, 'orders'), where('tableId', '==', t)))] *)
Definition getDocs_orders_where_tableId (t : TableId) : JS (list (string * Order)) :=
  request ;;
  let* w := get_world in
  ret (map_to_list (filter (fun kv => tableId kv.2 = t) (orders_col (cloud w)))).

(** [updateDoc(doc(db, 'products', ref), patch)] *)
Definition updateDoc_product (ref : string) (patch : Product -> Product) : JS unit :=
  request ;;
  let* w := get_world in
  match products_col (cloud w) !! ref with
  | Some d => modify_cloud (fun f => set_products_col (<[ref := patch d]> (products_col f)) f)
  | None => throw (FirebaseError "not-found")
  end.

(** [updateDoc(doc(db, 'orders', ref), patch)] *)
Definition updateDoc_order (ref : string) (patch : Order -> Order) : JS unit :=
  request ;;
  let* w := get_world in
  match orders_col (cloud w) !! ref with
  | Some d => modify_cloud (fun f => set_orders_col (<[ref := patch d]> (orders_col f)) f)
  | None => throw (FirebaseError "not-found")
  end.

(** [addDoc(collection(db, 'products'), data)] *)
Definition addDoc_product (data : Product) : JS unit :=
  request ;;
  modify_cloud (fun f =>
    set_products_col (<[autoId f := with_id data (autoId f)]> (products_col f)) f).

(** [addDoc(collection(db, 'orders'), data)] *)
Definition addDoc_order (data : Order) : JS unit :=
  request ;;
  modify_cloud (fun f =>
    set_orders_col (<[autoId f := with_order_id data (autoId f)]> (orders_col f)) f).

(** [deleteDoc(doc(db, 'products', ref))] *)
Definition deleteDoc_product (ref : string) : JS unit :=
  request ;;
  modify_cloud (fun f => set_products_col (delete ref (products_col f)) f).

(** [deleteDoc(doc(db, 'tables', ref))] *)
Definition deleteDoc_table (ref : string) : JS unit :=
  request ;;
  modify_cloud (fun f => set_tables_col (delete ref (tables_col f)) f).

(** [getDocs(collection(db, 'orders'))] *)
Definition getDocs_orders : JS (list (string * Order)) :=
  request ;;
  let* w := get_world in
  ret (map_to_list (orders_col (cloud w))).

(** [getDocs(query(collection(db, 'products'), limit(n)))] *)
Definition getDocs_products_limit (n : nat) : JS (list (string * Product)) :=
  request ;;
  let* w := get_world in
  ret (take n (map_to_list (products_col (cloud w)))).

(** [setDoc(doc(db, 'tables', ref), data, { merge: true })].  [data] gives
    both fields a table document has, so that merging writes them both. *)
Definition setDoc_table_merge (ref : string) (data : TableSession) : JS unit :=
  request ;;
  modify_cloud (fun f => set_tables_col (<[ref := data]> (tables_col f)) f).

End firestore.

(** [await Promise.all(ps)] for requests already issued in the order of
    [ps]: every one of them takes effect or is rejected on its own, and the
    first rejection is rethrown once all have settled. *)
Fixpoint Promise_all (ps : list (JS unit)) : JS unit :=
  match ps with
  | [] => ret tt
  | p :: rest =>
      fun w =>
        match p w with
        | (Normal _, w') => Promise_all rest w'
        | (Throw e, w') => (Throw e, snd (Promise_all rest w'))
        end
  end.

(** [await Promise.all([a, b])] for two reads. *)
Definition Promise_all_2 {A B : Type} (a : JS A) (b : JS B) : JS (A * B) :=
  let* x := a in
  let* y := b in
  ret (x, y).

(** [JSON.parse] at the three places where a collection is expected, and
    where the configuration is. *)
Definition JSON_parse_products (t : payload) : JS (list Product) :=
  match t with
  | ProductsJSON ps => ret ps
  | _ => throw SyntaxError
  end.

Definition JSON_parse_orders (t : payload) : JS (list Order) :=
  match t with
  | OrdersJSON os => ret os
  | _ => throw SyntaxError
  end.

Definition JSON_parse_tables (t : payload) : JS (gmap string TableSession) :=
  match t with
  | TablesJSON ts => ret ts
  | _ => throw SyntaxError
  end.

(** A stored text that parses to something else than a configuration gives
    an object without [apiKey], which [init] treats as no configuration. *)
Definition JSON_parse_config (t : payload) : JS (option DatabaseConfig) :=
  match t with
  | ConfigJSON c => ret (Some c)
  | Raw _ => throw SyntaxError
  | _ => ret None
  end.

(** [o.tableId == tableId], the loose comparison of a stored table identifier
    with a number: a stored string is compared through its numeric value.
    The embedding knows the decimal form [toString] writes, which is the one
    the application produces; of the other spellings JavaScript converts to
    the same number (a leading zero, a fraction of zeros, blanks around the
    digits) it knows nothing, and the statements that rest on the comparison
    of a stored string are made for the decimal form. *)
Definition loose_eq (t : TableId) (n : Z) : bool :=
  match t with
  | TableNum m => bool_decide (m = n)
  | TableStr s => bool_decide (s = toString n)
  end.

(** ** Constants *)

Definition INITIAL_PRODUCTS : list Product :=
  [ mkProduct "1" "Cerveja Gelada 600ml" "Estupidamente gelada" 15 BEBIDAS 48
              "https://picsum.photos/200/200?random=1";
    mkProduct "2" "Água de Coco" "Natural da fruta" 8 BEBIDAS 20
              "https://picsum.photos/200/200?random=2";
    mkProduct "3" "Isca de Peixe" "Acompanha molho tártaro" 45 TIRA_GOSTO 10
              "https://picsum.photos/200/200?random=3";
    mkProduct "4" "Batata Frita" "Porção generosa" 25 TIRA_GOSTO 15
              "https://picsum.photos/200/200?random=4" ].

Module STORAGE_KEYS.
Definition PRODUCTS : string := "beach_app_products".
Definition ORDERS : string := "beach_app_orders".
Definition TABLES : string := "beach_app_tables".
Definition DB_CONFIG : string := "beach_app_db_config".
End STORAGE_KEYS.

(** [const isCloud = () => !!db] *)
Definition isCloud : JS bool :=
  let* w := get_world in ret (bool_decide (is_Some (db w))).

(** ** [StorageService] *)

Module StorageService.

(** *** Initialization

    [firebaseConfig] is the compiled-in configuration the source imports
    from [./firebaseConfig], a file that is not part of the sources: it is
    a parameter here. *)

(** Step 0 of [init]: an app that is already registered is reused.  The
    result tells whether [init] returned there. *)
Definition init_reuse : JS bool :=
  let* n := firebase.getApps_length in
  if (0 <? n)%nat then
    try_catch
      (let* app := firebase.getApp in
       modify (set_db (Some (firebase.getFirestore app))) ;;
       ret true)
      (fun _ => ret false)
  else ret false.

(** Steps 1 and 2 of [init]: the configuration a connection would use. *)
Definition init_resolve (firebaseConfig : DatabaseConfig)
    (config : option DatabaseConfig) : JS (option DatabaseConfig) :=
  if negb (String.eqb (apiKey firebaseConfig) "")
     && negb (includes "COLAR_" (apiKey firebaseConfig))
  then ret (Some firebaseConfig)
  else
    match config with
    | Some _ => ret config
    | None =>
        let* storedConfig := safeStorage.getItem STORAGE_KEYS.DB_CONFIG in
        match or_null storedConfig with
        | Some text => try_catch (JSON_parse_config text) (fun _ => ret None)
        | None => ret None
        end
    end.

Definition init_connect (config : option DatabaseConfig) : JS bool :=
  match config with
  | Some c =>
      if negb (String.eqb (apiKey c) "") then
        try_catch
          (let* app := firebase.initializeApp c in
           modify (set_db (Some (firebase.getFirestore app))) ;;
           ret true)
          (fun error =>
             match error with
             | FirebaseError "app/duplicate-app" =>
                 let* app := firebase.getApp in
                 modify (set_db (Some (firebase.getFirestore app))) ;;
                 ret true
             | _ => ret false
             end)
      else ret false
  | None => ret false
  end.

Definition init (firebaseConfig : DatabaseConfig)
    (config : option DatabaseConfig) : JS bool :=
  let* reused := init_reuse in
  if reused then ret true
  else
    let* config := init_resolve firebaseConfig config in
    init_connect config.

Definition saveConfig (firebaseConfig config : DatabaseConfig) : JS unit :=
  safeStorage.setItem STORAGE_KEYS.DB_CONFIG (ConfigJSON config) ;;
  let* _connected := init firebaseConfig (Some config) in
  ret tt.

(** *** Subscriptions *)

(** The function [fetch] of the fallback branch of [subscribeProducts];
    its result is the argument it passes to [callback]. *)
Definition subscribeProducts_fetch : JS (list Product) :=
  let* stored := safeStorage.getItem STORAGE_KEYS.PRODUCTS in
  match or_null stored with
  | None =>
      safeStorage.setItem STORAGE_KEYS.PRODUCTS (ProductsJSON INITIAL_PRODUCTS) ;;
      ret INITIAL_PRODUCTS
  | Some text => JSON_parse_products text
  end.

(** [subscribeProducts], up to its first, synchronous delivery.  In cloud
    mode the listener is only registered and the backend pushes the
    deliveries later; in fallback mode [fetch] runs once at once and then on
    every tick of the interval. *)
Definition subscribeProducts : JS (option (list Product)) :=
  let* cloud := isCloud in
  if cloud then ret None
  else
    let* delivered := subscribeProducts_fetch in
    ret (Some delivered).

(** *** Products *)

(** The patch of the restock branch in cloud mode. *)
Definition restock_cloud (product currentData : Product) (d : Product) : Product :=
  with_imageUrl
    (with_description
       (with_price
          (with_stock d (stock currentData + stock product))
          (price product))
       (description product))
    (str_or (imageUrl product) (imageUrl currentData)).

(** The three assignments of the restock branch in fallback mode. *)
Definition restock_local (product : Product) (existing : Product) : Product :=
  with_imageUrl
    (with_price
       (with_stock existing (stock existing + stock product))
       (price product))
    (str_or (imageUrl product) (imageUrl existing)).

Definition saveProduct_alert (error : Error) : Alert :=
  match error with
  | FirebaseError "permission-denied" => AlertPermissionDenied
  | FirebaseError "resource-exhausted" => AlertImageTooLarge
  | _ => AlertSaveError
  end.

(** The body of the [try] of the fallback branch, on the parsed catalog. *)
Definition saveProduct_merge (products : list Product) (existingIndex nameIndex : option nat)
    (product : Product) : list Product :=
  match existingIndex with
  | Some i => <[i := product]> products
  | None =>
      match nameIndex with
      | Some j => alter (restock_local product) j products
      | None => products ++ [product]
      end
  end.

Definition saveProduct (product : Product) : JS unit :=
  let* cloud := isCloud in
  if cloud then
    try_catch
      (if negb (String.eqb (id product) "") && (0 <? String.length (id product))%nat then
         firestore.updateDoc_product (id product) (fun d => with_id product (id d))
       else
         let* querySnapshot := firestore.getDocs_products_where_name (name product) in
         match querySnapshot with
         | (ref, currentData) :: _ =>
             firestore.updateDoc_product ref (restock_cloud product currentData)
         | [] => firestore.addDoc_product product
         end)
      (fun error => window.alert (saveProduct_alert error) ;; throw error)
  else
    let* stored := safeStorage.getItem STORAGE_KEYS.PRODUCTS in
    let* products := JSON_parse_products (or_default stored (ProductsJSON [])) in
    let existingIndex := fst <$> list_find (fun p => id p = id product) products in
    let nameIndex :=
      fst <$> list_find (fun p => name p = name product /\ id p <> id product) products in
    let* product :=
      if String.eqb (id product) "" || (String.length (id product) <? 5)%nat then
        let* now := window.Date_now in
        ret (with_id product ("local_" ++ toString now))
      else ret product in
    try_catch
      (safeStorage.setItem STORAGE_KEYS.PRODUCTS
         (ProductsJSON (saveProduct_merge products existingIndex nameIndex product)))
      (fun _ => window.alert AlertStorageFull).

Definition deleteProduct (ref : string) : JS unit :=
  let* cloud := isCloud in
  if cloud then firestore.deleteDoc_product ref
  else
    let* stored := safeStorage.getItem STORAGE_KEYS.PRODUCTS in
    let* products := JSON_parse_products (or_default stored (ProductsJSON [])) in
    safeStorage.setItem STORAGE_KEYS.PRODUCTS
      (ProductsJSON (filter (fun p => id p <> ref) products)).

(** *** Orders *)

(** [items.map(i => ({ productId, name, price, quantity }))] *)
Definition line_items (items : list CartItem) : list OrderItem :=
  map (fun i => mkOrderItem (id (product i)) (name (product i))
                            (price (product i)) (quantity i)) items.

(** [items.reduce((acc, curr) => acc + (curr.product.price * curr.quantity), 0)] *)
Definition order_total (items : list CartItem) : number :=
  fold_left (fun acc curr =>
               number_add acc (number_mul (number_of_Q (price (product curr)))
                                          (number_of_Z (quantity curr))))
            items (number_of_Z 0).

(** One turn of the loop that takes the ordered quantity out of the
    catalog, in fallback mode. *)
Definition decrement_stock (products : list Product) (item : CartItem) : list Product :=
  match list_find (fun p => id p = id (product item)) products with
  | Some (pIndex, _) =>
      alter (fun p => with_stock p (Z.max 0 (stock p - quantity item))) pIndex products
  | None => products
  end.

(** [orderData], the order without its identifier. *)
Definition orderData (now table : Z) (items : list CartItem)
    (observation : option string) : Order :=
  mkOrder "" (TableNum table) PENDING now (line_items items)
          (Q_of_number (order_total items))
          (str_or (default "" observation) "").

Definition createOrder (table : Z) (items : list CartItem)
    (observation : option string) : JS unit :=
  let* now := window.Date_now in
  let orderData := orderData now table items observation in
  let* cloud := isCloud in
  if cloud then
    firestore.addDoc_order orderData ;;
    forEach items (fun item =>
      try_catch
        (firestore.updateDoc_product (id (product item))
           (fun d => with_stock d (stock d + - quantity item)))
        (fun _ => ret tt))
  else
    let* stored := safeStorage.getItem STORAGE_KEYS.PRODUCTS in
    let* products := JSON_parse_products (or_default stored (ProductsJSON [])) in
    safeStorage.setItem STORAGE_KEYS.PRODUCTS
      (ProductsJSON (fold_left decrement_stock items products)) ;;
    let* now := window.Date_now in
    let newOrder := with_order_id orderData (toString now) in
    let* stored := safeStorage.getItem STORAGE_KEYS.ORDERS in
    let* orders := JSON_parse_orders (or_default stored (OrdersJSON [])) in
    safeStorage.setItem STORAGE_KEYS.ORDERS (OrdersJSON (orders ++ [newOrder])).

(** One turn of the loop that gives a cancelled order's quantities back. *)
Definition restore_stock (products : list Product) (item : OrderItem) : list Product :=
  match list_find (fun p => id p = productId item) products with
  | Some (pIndex, _) =>
      alter (fun p => with_stock p (stock p + item_quantity item)) pIndex products
  | None => products
  end.

Definition updateOrderStatus (orderId : string) (newStatus : OrderStatus) : JS unit :=
  let* cloud := isCloud in
  if cloud then
    firestore.updateDoc_order orderId (fun o => with_status o newStatus)
  else
    let* stored := safeStorage.getItem STORAGE_KEYS.ORDERS in
    let* orders := JSON_parse_orders (or_default stored (OrdersJSON [])) in
    match list_find (fun o => order_id o = orderId) orders with
    | Some (index, order) =>
        (if bool_decide (newStatus = CANCELED) && negb (bool_decide (status order = CANCELED))
         then
           let* stored := safeStorage.getItem STORAGE_KEYS.PRODUCTS in
           let* products := JSON_parse_products (or_default stored (ProductsJSON [])) in
           safeStorage.setItem STORAGE_KEYS.PRODUCTS
             (ProductsJSON (fold_left restore_stock (items order) products))
         else ret tt) ;;
        safeStorage.setItem STORAGE_KEYS.ORDERS
          (OrdersJSON (alter (fun o => with_status o newStatus) index orders))
    | None => ret tt
    end.

(** *** Tables *)

(** [processDoc] folded over the two snapshots: the update requests it
    issues, in order.  [docsProcessed] is the set of identifiers seen. *)
Fixpoint processDocs (docs : list (string * Order)) (docsProcessed : gset string)
    : list (JS unit) :=
  match docs with
  | [] => []
  | (ref, data) :: rest =>
      if decide (ref ∈ docsProcessed) then processDocs rest docsProcessed
      else
        let updatePromises := processDocs rest ({[ref]} ∪ docsProcessed) in
        if negb (bool_decide (status data = CANCELED))
           && negb (bool_decide (status data = PAID))
        then firestore.updateDoc_order ref (fun o => with_status o PAID) :: updatePromises
        else updatePromises
  end.

(** The function mapped over the orders in fallback mode. *)
Definition archive (table : Z) (o : Order) : Order :=
  if loose_eq (tableId o) table && negb (bool_decide (status o = CANCELED))
  then with_status o PAID
  else o.

Definition finalizeTable (table : Z) : JS unit :=
  let* cloud := isCloud in
  if cloud then
    firestore.deleteDoc_table (toString table) ;;
    let* snaps :=
      Promise_all_2
        (firestore.getDocs_orders_where_tableId (TableNum table))
        (firestore.getDocs_orders_where_tableId (TableStr (toString table))) in
    Promise_all (processDocs (fst snaps ++ snd snaps) ∅)
  else
    let* stored := safeStorage.getItem STORAGE_KEYS.TABLES in
    let* tables := JSON_parse_tables (or_default stored (TablesJSON ∅)) in
    safeStorage.setItem STORAGE_KEYS.TABLES (TablesJSON (delete (toString table) tables)) ;;
    let* stored := safeStorage.getItem STORAGE_KEYS.ORDERS in
    let* orders := JSON_parse_orders (or_default stored (OrdersJSON [])) in
    safeStorage.setItem STORAGE_KEYS.ORDERS (OrdersJSON (map (archive table) orders)).

(** *** The rest of the service *)

(** What [clearConfig] asks of the browser at its end:
    [window.location.reload()]. *)
Inductive Navigation : Type := Reload.

Definition clearConfig : JS Navigation :=
  safeStorage.removeItem STORAGE_KEYS.DB_CONFIG ;;
  modify (set_db None) ;;
  ret Reload.

Definition isUsingCloud : JS bool := isCloud.

(** The function [fetch] of the fallback branch of [subscribeOrders]; its
    result is the argument it passes to [callback]. *)
Definition subscribeOrders_fetch : JS (list Order) :=
  let* stored := safeStorage.getItem STORAGE_KEYS.ORDERS in
  match or_null stored with
  | Some text => JSON_parse_orders text
  | None => ret []
  end.

(** [subscribeOrders], up to its first, synchronous delivery. *)
Definition subscribeOrders : JS (option (list Order)) :=
  let* cloud := isCloud in
  if cloud then ret None
  else
    let* delivered := subscribeOrders_fetch in
    ret (Some delivered).

(** The function [fetch] of the fallback branch of [subscribeTables]. *)
Definition subscribeTables_fetch : JS (gmap string TableSession) :=
  let* stored := safeStorage.getItem STORAGE_KEYS.TABLES in
  JSON_parse_tables (or_default stored (TablesJSON ∅)).

(** [subscribeTables], up to its first, synchronous delivery. *)
Definition subscribeTables : JS (option (gmap string TableSession)) :=
  let* cloud := isCloud in
  if cloud then ret None
  else
    let* delivered := subscribeTables_fetch in
    ret (Some delivered).

Definition requestTableClose (table : Z) (method : string) : JS unit :=
  let* cloud := isCloud in
  if cloud then
    firestore.setDoc_table_merge (toString table)
      (mkTableSession CLOSING_REQUESTED method)
  else
    let* stored := safeStorage.getItem STORAGE_KEYS.TABLES in
    let* tables := JSON_parse_tables (or_default stored (TablesJSON ∅)) in
    safeStorage.setItem STORAGE_KEYS.TABLES
      (TablesJSON (<[toString table := mkTableSession CLOSING_REQUESTED method]> tables)).

Definition getOrdersOnce : JS (list Order) :=
  let* cloud := isCloud in
  if cloud then
    let* snapshot := firestore.getDocs_orders in
    ret (map snd snapshot)
  else
    let* stored := safeStorage.getItem STORAGE_KEYS.ORDERS in
    match or_null stored with
    | Some text => JSON_parse_orders text
    | None => ret []
    end.

(** The message [runDiagnostics] shows with [alert]; it is the result of the
    embedding. *)
Inductive Diagnosis : Type :=
| DiagnosisCloudOk
| DiagnosisPermissionDenied
| DiagnosisCloudError
| DiagnosisLocalWorking
| DiagnosisLocalBlocked
| DiagnosisLocalError.

(** [val === 'ok'] *)
Definition is_ok (val : option payload) : bool :=
  match val with
  | Some (Raw s) => String.eqb s "ok"
  | _ => false
  end.

Definition runDiagnostics : JS Diagnosis :=
  let* cloud := isCloud in
  if cloud then
    try_catch
      (firestore.getDocs_products_limit 1 ;;
       ret DiagnosisCloudOk)
      (fun e =>
         match e with
         | FirebaseError code =>
             if String.eqb code "permission-denied" then ret DiagnosisPermissionDenied
             else ret DiagnosisCloudError
         | _ => ret DiagnosisCloudError
         end)
  else
    try_catch
      (let* now := window.Date_now in
       let key := String.append "test_diag_" (toString now) in
       safeStorage.setItem key (Raw "ok") ;;
       let* val := safeStorage.getItem key in
       safeStorage.removeItem key ;;
       if is_ok val then ret DiagnosisLocalWorking else ret DiagnosisLocalBlocked)
      (fun _ => ret DiagnosisLocalError).

End StorageService.

(** ** Views of the fallback store used in the statements *)

(** What [safeStorage.getItem(key)] returns in a world. *)
Definition read (key : string) (w : World) : option payload :=
  match fst (safeStorage.getItem key w) with
  | Normal v => v
  | Throw _ => None
  end.

(** The catalog an operation in fallback mode works on:
    [JSON.parse(safeStorage.getItem(STORAGE_KEYS.PRODUCTS) || '[]')]. *)
Definition catalog (w : World) : option (list Product) :=
  match or_default (read STORAGE_KEYS.PRODUCTS w) (ProductsJSON []) with
  | ProductsJSON ps => Some ps
  | _ => None
  end.

(** [JSON.parse(safeStorage.getItem(STORAGE_KEYS.ORDERS) || '[]')]. *)
Definition order_book (w : World) : option (list Order) :=
  match or_default (read STORAGE_KEYS.ORDERS w) (OrdersJSON []) with
  | OrdersJSON os => Some os
  | _ => None
  end.

(** [JSON.parse(safeStorage.getItem(STORAGE_KEYS.TABLES) || '{}')]. *)
Definition table_map (w : World) : option (gmap string TableSession) :=
  match or_default (read STORAGE_KEYS.TABLES w) (TablesJSON ∅) with
  | TablesJSON ts => Some ts
  | _ => None
  end.

(** The world [safeStorage.setItem(key, value)] leaves. *)
Definition put (key : string) (value : payload) (w : World) : World :=
  snd (safeStorage.setItem key value w).
Arguments put : simpl never.

(** A medium that never answers a read of a key whose write it refuses: it
    works, or it is blocked, or it is blocked for some keys. *)
Definition coherent (s : LocalStorage) : Prop :=
  forall key value,
    refuses s (CallSetItem key value) = true -> refuses s (CallGetItem key) = true.

(** [{ status: OrderStatus.PAID }] applied to an order. *)
Definition paid (o : Order) : Order := with_status o PAID.

(** The orders collection once the documents of [refs] are marked PAID. *)
Definition mark (refs : gset string) (orders : gmap string Order) : gmap string Order :=
  map_imap (fun ref o => Some (if decide (ref ∈ refs) then paid o else o)) orders.

(** The two snapshots [finalizeTable] reads in cloud mode, one after the
    other. *)
Definition snapshots (table : Z) (orders : gmap string Order) : list (string * Order) :=
  map_to_list (filter (fun kv => tableId kv.2 = TableNum table) orders)
  ++ map_to_list (filter (fun kv => tableId kv.2 = TableStr (toString table)) orders).

(** ** Worlds used in examples *)

(** A fresh browser session: nothing stored, no app registered, a medium that
    takes every call. *)
Definition fresh_world : World :=
  mkWorld None ∅ (mkLocalStorage ∅ (fun _ => false))
          (mkFirebaseSDK 0 true (fun _ => None))
          (mkFirestore ∅ ∅ ∅ None "auto-id")
          1700000000000 [] [].

(** A session in fallback mode whose store holds the seed catalog and an
    empty order book. *)
Definition seeded_world : World :=
  mkWorld None
          {[ STORAGE_KEYS.PRODUCTS := ProductsJSON INITIAL_PRODUCTS;
             STORAGE_KEYS.ORDERS := OrdersJSON [] ]}
          (mkLocalStorage
             {[ STORAGE_KEYS.PRODUCTS := ProductsJSON INITIAL_PRODUCTS;
                STORAGE_KEYS.ORDERS := OrdersJSON [] ]}
             (fun _ => false))
          (mkFirebaseSDK 0 true (fun _ => None))
          (mkFirestore ∅ ∅ ∅ None "auto-id")
          1700000000000 [] [].

(** The first product of the seed catalog, and a cart that asks for more of
    it than the 48 in stock. *)
Definition beer : Product :=
  mkProduct "1" "Cerveja Gelada 600ml" "Estupidamente gelada" 15 BEBIDAS 48
            "https://picsum.photos/200/200?random=1".

Definition thirsty_cart : list CartItem := [ mkCartItem beer 50 ].

(** The number JavaScript reads for [0.1], and a cart of three items at that
    price. *)
Definition ten_cents : Q := 3602879701896397 # 36028797018963968.

Definition dime_cart : list CartItem := [ mkCartItem (with_price beer ten_cents) 3 ].

(** The seeded session after table 7 has ordered the fifty beers. *)
Definition world_with_order : World :=
  snd (StorageService.createOrder 7 thirsty_cart None seeded_world).

(** A session in cloud mode whose products collection holds the beer. *)
Definition cloud_world : World :=
  mkWorld (Some FirestoreHandle) ∅ (mkLocalStorage ∅ (fun _ => false))
          (mkFirebaseSDK 1 false (fun _ => None))
          (mkFirestore {[ "1" := beer ]} ∅ ∅ None "auto-id")
          1700000000000 [] [].

(** A new delivery of the beer, entered without identifier: ten more, a new
    price, a new description, no image. *)
Definition beer_delivery : Product :=
  mkProduct "" "Cerveja Gelada 600ml" "Long neck" 16 BEBIDAS 10 "".

(** The template of [firebaseConfig.ts] before the keys are pasted in. *)
Definition placeholder_config : DatabaseConfig :=
  mkDatabaseConfig "COLAR_API_KEY_AQUI" "" "" "" "" "".

Definition set_localStorage (v : LocalStorage) (w : World) : World :=
  mkWorld (db w) (memoryStore w) v (sdk w) (cloud w) (clock w) (attempts w) (alerts w).

(** A medium that is full: it answers reads and refuses every write. *)
Definition full_medium (held : gmap string payload) : LocalStorage :=
  mkLocalStorage held
    (fun c => match c with CallSetItem _ _ => true | _ => false end).

(** A medium the browser blocks: every call throws. *)
Definition blocked_medium (held : gmap string payload) : LocalStorage :=
  mkLocalStorage held (fun _ => true).

(** The total of an order in the words of the specification: the sum over
    the items of price times quantity. *)
Fixpoint sum_price_quantity (items : list CartItem) : Q :=
  match items with
  | [] => 0%Q
  | i :: rest => (price (product i) * inject_Z (quantity i) + sum_price_quantity rest)%Q
  end.

(** The quantity of the product [ref] ordered by a list of cart items, and
    returned by a list of line items. *)
Definition ordered (ref : string) (items : list CartItem) : Z :=
  foldr (fun i acc => if decide (id (product i) = ref) then quantity i + acc else acc) 0 items.

Definition returned (ref : string) (items : list OrderItem) : Z :=
  foldr (fun i acc => if decide (productId i = ref) then item_quantity i + acc else acc) 0 items.

(** The test [init] applies to the compiled-in configuration: the key is
    there and is not the placeholder. *)
Definition usable (firebaseConfig : DatabaseConfig) : bool :=
  negb (String.eqb (apiKey firebaseConfig) "")
  && negb (includes "COLAR_" (apiKey firebaseConfig)).

(** The configuration stored in the fallback store, when there is one. *)
Definition stored_config (w : World) : option DatabaseConfig :=
  match or_null (read STORAGE_KEYS.DB_CONFIG w) with
  | Some (ConfigJSON c) => Some c
  | _ => None
  end.

(** The configuration [init] resolves: the compiled-in one when usable, else
    the argument, else the stored one. *)
Definition resolved (firebaseConfig : DatabaseConfig) (config : option DatabaseConfig)
    (w : World) : option DatabaseConfig :=
  if usable firebaseConfig then Some firebaseConfig
  else match config with
       | Some c => Some c
       | None => stored_config w
       end.

(** The world once [initializeApp(c)] has been called. *)
Definition attempted (c : DatabaseConfig) (w : World) : World :=
  set_attempts (attempts w ++ [c]) w.

(** [init] reuses a registered app when there is one and [getApp] finds it. *)
Definition reuses_app (w : World) : bool :=
  (0 <? apps (sdk w))%nat && negb (getApp_throws (sdk w)).

(** The identifier [saveProduct] stores a product under, in fallback mode. *)
Definition stored_id (w : World) (p : Product) : string :=
  if String.eqb (id p) "" || (String.length (id p) <? 5)%nat
  then "local_" ++ toString (clock w) else id p.

(** The position of the first product with identifier [ref], the one
    [products.findIndex(p => p.id === ref)] and [products.find] select. *)
Definition first_index (ref : string) (ps : list Product) : option nat :=
  fst <$> list_find (fun p => id p = ref) ps.

(** Both stock loops have this shape: the stock of the first product with
    identifier [ref] goes through [f]. *)
Definition adjust_first (ref : string) (f : Z -> Z) (ps : list Product) : list Product :=
  match list_find (fun p => id p = ref) ps with
  | Some (index, _) => alter (fun p => with_stock p (f (stock p))) index ps
  | None => ps
  end.

(** A status that [finalizeTable] archives in cloud mode. *)
Definition active (o : Order) : bool :=
  negb (bool_decide (status o = CANCELED)) && negb (bool_decide (status o = PAID)).

(** What [finalizeTable] makes of an order in cloud mode: an order of the
    table, under either form of its identifier, that is neither cancelled
    nor paid becomes PAID. *)
Definition archive_cloud (table : Z) (o : Order) : Order :=
  if (bool_decide (tableId o = TableNum table)
      || bool_decide (tableId o = TableStr (toString table)))
     && active o
  then with_status o PAID
  else o.

(** The documents [processDoc] issues an update for. *)
Fixpoint updated (docs : list (string * Order)) (docsProcessed : gset string)
    : gset string :=
  match docs with
  | [] => ∅
  | (ref, data) :: rest =>
      if decide (ref ∈ docsProcessed) then updated rest docsProcessed
      else (if active data then {[ref]} else ∅) ∪ updated rest ({[ref]} ∪ docsProcessed)
  end.

(** The world [safeStorage.removeItem(key)] leaves. *)
Definition drop (key : string) (w : World) : World :=
  snd (safeStorage.removeItem key w).
Arguments drop : simpl never.

(** The stock a product document has in cloud mode once the items of an
    order have been taken out of it. *)
Definition taken_out (items : list CartItem) (ref : string) (d : Product) : Product :=
  with_stock d (stock d - ordered ref items).

(** A stored table identifier as the application writes it: a number, or
    the decimal form of an integer that a number holds exactly. *)
Definition plain_table (t : TableId) : Prop :=
  match t with
  | TableNum _ => True
  | TableStr s => exists m : Z, s = toString m /\ (Z.abs m < 2 ^ 53)%Z
  end.

(** The two modes of the service: [db === null] and [db !== null]. *)
Definition fallback_mode (w : World) : Prop := db w = None.

Definition cloud_mode (w : World) : Prop := is_Some (db w).

(** Started in a mode, a computation keeps a relation between the world it
    starts in and the world it leaves, whether it returns or throws. *)
Definition keeps {A : Type} (mode : World -> Prop) (R : World -> World -> Prop)
    (m : JS A) : Prop :=
  forall w, mode w -> R w (snd (m w)).

(** The calls a client makes on a connected or unconnected service: every
    member of [StorageService] but those that set the connection up or tear
    it down ([init], [saveConfig], [clearConfig]). *)
Inductive Request : Type :=
| SubscribeProducts
| SubscribeOrders
| SubscribeTables
| SaveProduct (product : Product)
| DeleteProduct (ref : string)
| CreateOrder (table : Z) (items : list CartItem) (observation : option string)
| UpdateOrderStatus (orderId : string) (newStatus : OrderStatus)
| RequestTableClose (table : Z) (method : string)
| FinalizeTable (table : Z)
| GetOrdersOnce
| RunDiagnostics.

(** The call a request stands for, its result dropped. *)
Definition serve (r : Request) : JS unit :=
  match r with
  | SubscribeProducts => StorageService.subscribeProducts ;; ret tt
  | SubscribeOrders => StorageService.subscribeOrders ;; ret tt
  | SubscribeTables => StorageService.subscribeTables ;; ret tt
  | SaveProduct product => StorageService.saveProduct product
  | DeleteProduct ref => StorageService.deleteProduct ref
  | CreateOrder table items observation =>
      StorageService.createOrder table items observation
  | UpdateOrderStatus orderId newStatus =>
      StorageService.updateOrderStatus orderId newStatus
  | RequestTableClose table method => StorageService.requestTableClose table method
  | FinalizeTable table => StorageService.finalizeTable table
  | GetOrdersOnce => StorageService.getOrdersOnce ;; ret tt
  | RunDiagnostics => StorageService.runDiagnostics ;; ret tt
  end.

(** A client's calls one after the other; a call that throws does not stop
    the client from making the next one. *)
Definition session (rs : list Request) : JS unit :=
  forEach rs (fun r => try_catch (serve r) (fun _ => ret tt)).

(** The connection and everything remote are as they were. *)
Definition same_remote (w w' : World) : Prop :=
  db w' = db w /\ cloud w' = cloud w /\ sdk w' = sdk w /\ attempts w' = attempts w.

(** The connection and everything the browser stores are as they were. *)
Definition same_browser (w w' : World) : Prop :=
  db w' = db w /\ memoryStore w' = memoryStore w /\ localStorage w' = localStorage w
  /\ sdk w' = sdk w /\ attempts w' = attempts w.

(** The key [runDiagnostics] writes its probe under. *)
Definition probe_key (w : World) : string :=
  String.append "test_diag_" (toString (clock w)).

(** * Properties *)

(** ** Stepping through the monad *)

Ltac js_unfold :=
  repeat progress unfold
    safeStorage.getItem, safeStorage.setItem, safeStorage.removeItem,
    window.localStorage_getItem, window.localStorage_setItem,
    window.localStorage_removeItem, window.Date_now, window.alert,
    MemoryStore.has, MemoryStore.get, MemoryStore.set, MemoryStore.delete,
    isCloud, try_catch, bind, get_world, modify, ret, throw in *.

Section SafeStorage.

Implicit Types (key : string) (value : payload) (w : World).

Lemma read_eq key w :
  read key w =
  if refuses (localStorage w) (CallGetItem key) then or_null (memoryStore w !! key)
  else match entries (localStorage w) !! key with
       | Some v => Some v
       | None => or_null (memoryStore w !! key)
       end.
Proof.
  unfold read; js_unfold; simpl.
  destruct (refuses (localStorage w) (CallGetItem key)); simpl; [done|].
  destruct (entries (localStorage w) !! key) as [v|]; simpl; [done|].
  case_bool_decide as Hm; simpl; [done|].
  destruct (memoryStore w !! key); [|done]. exfalso; apply Hm; eauto.
Qed.

Lemma getItem_eq key w : safeStorage.getItem key w = (Normal (read key w), w).
Proof.
  unfold read; js_unfold; simpl.
  destruct (refuses (localStorage w) (CallGetItem key)); simpl; [done|].
  destruct (entries (localStorage w) !! key) as [v|]; simpl; [done|].
  destruct (bool_decide _); done.
Qed.

Lemma setItem_eq key value w :
  safeStorage.setItem key value w = (Normal tt, put key value w).
Proof.
  unfold put; js_unfold; simpl.
  destruct (refuses (localStorage w) (CallSetItem key value)); done.
Qed.

Lemma put_eq key value w :
  put key value w =
  mkWorld (db w) (<[key := value]> (memoryStore w))
    (mkLocalStorage
       (if refuses (localStorage w) (CallSetItem key value)
        then entries (localStorage w)
        else <[key := value]> (entries (localStorage w)))
       (refuses (localStorage w)))
    (sdk w) (cloud w) (clock w) (attempts w) (alerts w).
Proof.
  unfold put; js_unfold; simpl.
  destruct w as [d m [e r] s c t a al]; simpl.
  destruct (r (CallSetItem key value)); reflexivity.
Qed.

Lemma removeItem_eq key w :
  safeStorage.removeItem key w =
  (Normal tt,
   mkWorld (db w) (delete key (memoryStore w))
     (mkLocalStorage
        (if refuses (localStorage w) (CallRemoveItem key)
         then entries (localStorage w)
         else delete key (entries (localStorage w)))
        (refuses (localStorage w)))
     (sdk w) (cloud w) (clock w) (attempts w) (alerts w)).
Proof.
  js_unfold; simpl.
  destruct w as [d m [e r] s c t a al]; simpl.
  destruct (r (CallRemoveItem key)); reflexivity.
Qed.

Lemma bind_getItem {B : Type} key (k : option payload -> JS B) w :
  bind (safeStorage.getItem key) k w = k (read key w) w.
Proof. unfold bind at 1. by rewrite getItem_eq. Qed.

Lemma bind_setItem {B : Type} key value (k : unit -> JS B) w :
  bind (safeStorage.setItem key value) k w = k tt (put key value w).
Proof. unfold bind at 1. by rewrite setItem_eq. Qed.

(** The in-memory shadow always takes the value. *)
Lemma memoryStore_put key value w :
  memoryStore (put key value w) !! key = Some value.
Proof. rewrite put_eq; simpl. apply lookup_insert_eq. Qed.

Lemma memoryStore_put_ne key key' value w :
  key <> key' -> memoryStore (put key value w) !! key' = memoryStore w !! key'.
Proof. intros. rewrite put_eq; simpl. by apply lookup_insert_ne. Qed.

Lemma entries_put_ne key key' value w :
  key <> key' ->
  entries (localStorage (put key value w)) !! key' = entries (localStorage w) !! key'.
Proof.
  intros. rewrite put_eq; simpl.
  destruct (refuses _ _); [done|]. by apply lookup_insert_ne.
Qed.

Lemma refuses_put key value w :
  refuses (localStorage (put key value w)) = refuses (localStorage w).
Proof. by rewrite put_eq. Qed.

Lemma db_put key value w : db (put key value w) = db w.
Proof. by rewrite put_eq. Qed.

Lemma cloud_put key value w : cloud (put key value w) = cloud w.
Proof. by rewrite put_eq. Qed.

Lemma clock_put key value w : clock (put key value w) = clock w.
Proof. by rewrite put_eq. Qed.

Lemma coherent_put key value w :
  coherent (localStorage w) -> coherent (localStorage (put key value w)).
Proof. unfold coherent. by rewrite refuses_put. Qed.

(** A read of another key does not see the write. *)
Lemma read_put_ne key key' value w :
  key <> key' -> read key' (put key value w) = read key' w.
Proof.
  intros. rewrite !read_eq, refuses_put, memoryStore_put_ne, entries_put_ne; done.
Qed.

(** A read of the key sees the write when the medium took it, when the
    medium refuses the read, and when the medium holds nothing for the key. *)
Lemma read_put key value w :
  truthy value = true ->
  refuses (localStorage w) (CallSetItem key value) = false
  \/ refuses (localStorage w) (CallGetItem key) = true
  \/ entries (localStorage w) !! key = None ->
  read key (put key value w) = Some value.
Proof.
  intros Ht Hm. rewrite read_eq, refuses_put, memoryStore_put.
  rewrite put_eq; simpl. rewrite Ht.
  destruct (refuses (localStorage w) (CallGetItem key)); [done|].
  destruct (refuses (localStorage w) (CallSetItem key value)) eqn:Hs.
  - destruct Hm as [?|[?|Hm]]; try done. by rewrite Hm.
  - by rewrite lookup_insert_eq.
Qed.

Lemma read_put_coherent key value w :
  coherent (localStorage w) -> truthy value = true ->
  read key (put key value w) = Some value.
Proof.
  intros Hc Ht. apply read_put; [done|].
  destruct (refuses (localStorage w) (CallSetItem key value)) eqn:Hs; [|by left].
  right; left. by eapply Hc.
Qed.

(** Writing the same value again changes nothing. *)
Lemma put_put key value w : put key value (put key value w) = put key value w.
Proof.
  rewrite !put_eq; simpl. f_equal.
  - apply insert_insert_eq.
  - f_equal. destruct (refuses _ _); [done|]. apply insert_insert_eq.
Qed.

Lemma put_put_put key key' value value' w :
  key <> key' ->
  put key value (put key' value' (put key value w)) = put key' value' (put key value w).
Proof.
  intros Hne. rewrite !put_eq; simpl. f_equal.
  - apply map_eq; intros i.
    destruct (decide (i = key)) as [->|];
      [by rewrite lookup_insert_eq, lookup_insert_ne, lookup_insert_eq|].
    rewrite lookup_insert_ne by done. done.
  - f_equal.
    destruct (refuses _ (CallSetItem key value)); [done|].
    destruct (refuses _ (CallSetItem key' value')); [apply insert_insert_eq|].
    apply map_eq; intros i.
    destruct (decide (i = key)) as [->|];
      [by rewrite lookup_insert_eq, lookup_insert_ne, lookup_insert_eq|].
    rewrite lookup_insert_ne by done. done.
Qed.

End SafeStorage.

(** ** The fallback key-value store *)

(** C8.  No exception escapes [safeStorage]: in every world, whatever the
    medium refuses, [getItem], [setItem] and [removeItem] complete normally;
    [setItem] always leaves the value in the in-memory map and [removeItem]
    always takes it out of it.  When the medium refuses every call the store
    works on the in-memory map alone: the medium is left as it was and
    [getItem] answers with what the map holds. *)
Theorem safeStorage_never_throws (w : World) (key : string) (value : payload) :
  (exists v, safeStorage.getItem key w = (Normal v, w))
  /\ (exists w', safeStorage.setItem key value w = (Normal tt, w')
                 /\ memoryStore w' !! key = Some value)
  /\ (exists w', safeStorage.removeItem key w = (Normal tt, w')
                 /\ memoryStore w' !! key = None)
  /\ ((forall c, refuses (localStorage w) c = true) ->
      localStorage (snd (safeStorage.setItem key value w)) = localStorage w
      /\ localStorage (snd (safeStorage.removeItem key w)) = localStorage w
      /\ safeStorage.getItem key w = (Normal (or_null (memoryStore w !! key)), w)).
Proof.
  split; [|split; [|split]].
  - eexists. apply getItem_eq.
  - eexists. split; [apply setItem_eq|apply memoryStore_put].
  - eexists. split; [apply removeItem_eq|]. simpl. apply lookup_delete_eq.
  - intros Hall. rewrite setItem_eq, removeItem_eq, getItem_eq, read_eq; simpl.
    rewrite put_eq; simpl. rewrite !Hall.
    destruct (localStorage w); done.
Qed.

(** A world whose medium throws on every call. *)
Lemma safeStorage_never_throws_witness :
  localStorage (snd (safeStorage.setItem "k" (Raw "v")
                       (set_localStorage (blocked_medium ∅) fresh_world)))
  = blocked_medium ∅.
Proof.
  apply (safeStorage_never_throws (set_localStorage (blocked_medium ∅) fresh_world)
           "k" (Raw "v")).
  intros c. reflexivity.
Defined.

(** Where the value written is read back, and where it is not.  After
    [setItem(key, value)] with a non-empty [value], in any later world whose
    in-memory map still holds what [setItem] put there, [getItem(key)]
    returns [value] whenever the medium throws on the read, reports the key
    absent, or holds [value] itself; and when the medium answers the read
    with some entry for the key, [getItem] returns that entry, whatever the
    in-memory map holds. *)
Theorem getItem_after_setItem (w later : World) (key : string) (value : payload) :
  truthy value = true ->
  memoryStore later !! key = memoryStore (snd (safeStorage.setItem key value w)) !! key ->
  (refuses (localStorage later) (CallGetItem key) = true
   \/ entries (localStorage later) !! key = None
   \/ entries (localStorage later) !! key = Some value ->
   safeStorage.getItem key later = (Normal (Some value), later))
  /\ (forall held,
        refuses (localStorage later) (CallGetItem key) = false ->
        entries (localStorage later) !! key = Some held ->
        safeStorage.getItem key later = (Normal (Some held), later)).
Proof.
  intros Ht Hmem. split.
  - intros Hmedium. rewrite getItem_eq. f_equal. f_equal.
    rewrite read_eq, Hmem. fold (put key value w). rewrite memoryStore_put. simpl.
    rewrite Ht.
    destruct (refuses (localStorage later) (CallGetItem key)); [done|].
    destruct Hmedium as [?|[->| ->]]; done.
  - intros held Hanswers Hheld. rewrite getItem_eq. f_equal. f_equal.
    by rewrite read_eq, Hanswers, Hheld.
Qed.

(** A write the blocked medium refuses, read back while it is still blocked. *)
Lemma getItem_after_setItem_witness :
  let w := set_localStorage (blocked_medium ∅) fresh_world in
  safeStorage.getItem "k" (snd (safeStorage.setItem "k" (Raw "v") w))
  = (Normal (Some (Raw "v")), snd (safeStorage.setItem "k" (Raw "v") w)).
Proof.
  intros w.
  destruct (getItem_after_setItem w (snd (safeStorage.setItem "k" (Raw "v") w))
              "k" (Raw "v")) as [Hback _].
  - reflexivity.
  - reflexivity.
  - apply Hback. left. reflexivity.
Defined.

(** C6.  The read-back after a failed write, which the comments of
    [setItem] promise ("consistency in the current session", "the app keeps
    working through memoryStore"), is missed in one case.  A medium that is
    full refuses the write of the new value and still answers reads:
    [setItem] returns normally with the new value in the in-memory map, and
    [getItem] then returns the value the medium held before, because it
    turns to the in-memory map only when the medium throws or reports the
    key absent. *)
Theorem getItem_prefers_stale_medium :
  let w := set_localStorage (full_medium {["k" := Raw "old"]}) fresh_world in
  let w' := snd (safeStorage.setItem "k" (Raw "new") w) in
  refuses (localStorage w) (CallSetItem "k" (Raw "new")) = true
  /\ fst (safeStorage.setItem "k" (Raw "new") w) = Normal tt
  /\ memoryStore w' !! "k" = Some (Raw "new")
  /\ fst (safeStorage.getItem "k" w') = Normal (Some (Raw "old"))
  /\ fst (safeStorage.getItem "k" w') <> Normal (Some (Raw "new")).
Proof. repeat split. simpl. discriminate. Qed.

(** The empty string is lost by the fall-back to the in-memory map:
    [memoryStore.get(key) || null] turns it into [null]. *)
Lemma getItem_empty_string_is_null :
  let w := set_localStorage (blocked_medium ∅) fresh_world in
  fst (safeStorage.getItem "k" (snd (safeStorage.setItem "k" (Raw "") w))) = Normal None.
Proof. reflexivity. Qed.

(** ** Reading the collections of the fallback store *)

Section Collections.

Implicit Types (w : World).

Lemma isCloud_eq w : isCloud w = (Normal (bool_decide (is_Some (db w))), w).
Proof. reflexivity. Qed.

Lemma bind_isCloud_local {B : Type} (k : bool -> JS B) w :
  db w = None -> bind isCloud k w = k false w.
Proof. intros H. unfold bind at 1. rewrite isCloud_eq, H. done. Qed.

Lemma bind_isCloud_cloud {B : Type} (k : bool -> JS B) w h :
  db w = Some h -> bind isCloud k w = k true w.
Proof. intros H. unfold bind at 1. rewrite isCloud_eq, H. done. Qed.

Lemma parse_catalog w ps :
  catalog w = Some ps ->
  JSON_parse_products (or_default (read STORAGE_KEYS.PRODUCTS w) (ProductsJSON [])) = ret ps.
Proof.
  unfold catalog. destruct (or_default _ _); try done. by intros [= ->].
Qed.

Lemma parse_catalog_None w :
  catalog w = None ->
  JSON_parse_products (or_default (read STORAGE_KEYS.PRODUCTS w) (ProductsJSON []))
  = throw SyntaxError.
Proof. unfold catalog. destruct (or_default _ _); done. Qed.

Lemma parse_order_book w os :
  order_book w = Some os ->
  JSON_parse_orders (or_default (read STORAGE_KEYS.ORDERS w) (OrdersJSON [])) = ret os.
Proof.
  unfold order_book. destruct (or_default _ _); try done. by intros [= ->].
Qed.

Lemma parse_order_book_None w :
  order_book w = None ->
  JSON_parse_orders (or_default (read STORAGE_KEYS.ORDERS w) (OrdersJSON []))
  = throw SyntaxError.
Proof. unfold order_book. destruct (or_default _ _); done. Qed.

Lemma parse_table_map w ts :
  table_map w = Some ts ->
  JSON_parse_tables (or_default (read STORAGE_KEYS.TABLES w) (TablesJSON ∅)) = ret ts.
Proof.
  unfold table_map. destruct (or_default _ _); try done. by intros [= ->].
Qed.

Lemma parse_table_map_None w :
  table_map w = None ->
  JSON_parse_tables (or_default (read STORAGE_KEYS.TABLES w) (TablesJSON ∅))
  = throw SyntaxError.
Proof. unfold table_map. destruct (or_default _ _); done. Qed.

(** A write under one key leaves the collections under the other keys. *)
Lemma catalog_put_ne key value w :
  key <> STORAGE_KEYS.PRODUCTS -> catalog (put key value w) = catalog w.
Proof. intros. unfold catalog. by rewrite read_put_ne. Qed.

Lemma order_book_put_ne key value w :
  key <> STORAGE_KEYS.ORDERS -> order_book (put key value w) = order_book w.
Proof. intros. unfold order_book. by rewrite read_put_ne. Qed.

Lemma table_map_put_ne key value w :
  key <> STORAGE_KEYS.TABLES -> table_map (put key value w) = table_map w.
Proof. intros. unfold table_map. by rewrite read_put_ne. Qed.

(** The collections of the fallback store are read from the in-memory map
    and the medium, and from nothing else. *)
Lemma read_frame key w w' :
  memoryStore w' = memoryStore w -> localStorage w' = localStorage w ->
  read key w' = read key w.
Proof. intros Hm Hl. by rewrite !read_eq, Hm, Hl. Qed.

Lemma catalog_frame w w' :
  memoryStore w' = memoryStore w -> localStorage w' = localStorage w ->
  catalog w' = catalog w.
Proof. intros. unfold catalog. by rewrite (read_frame _ w w'). Qed.

Lemma order_book_frame w w' :
  memoryStore w' = memoryStore w -> localStorage w' = localStorage w ->
  order_book w' = order_book w.
Proof. intros. unfold order_book. by rewrite (read_frame _ w w'). Qed.

(** On a coherent medium a collection that was written is the one read. *)
Lemma catalog_put w ps :
  coherent (localStorage w) ->
  catalog (put STORAGE_KEYS.PRODUCTS (ProductsJSON ps) w) = Some ps.
Proof. intros. unfold catalog. by rewrite read_put_coherent. Qed.

Lemma order_book_put w os :
  coherent (localStorage w) ->
  order_book (put STORAGE_KEYS.ORDERS (OrdersJSON os) w) = Some os.
Proof. intros. unfold order_book. by rewrite read_put_coherent. Qed.

Lemma table_map_put w ts :
  coherent (localStorage w) ->
  table_map (put STORAGE_KEYS.TABLES (TablesJSON ts) w) = Some ts.
Proof. intros. unfold table_map. by rewrite read_put_coherent. Qed.

End Collections.

(** ** [createOrder] *)

Section CreateOrder.

Implicit Types (w : World) (items : list CartItem) (ps : list Product).

Lemma createOrder_local w table items observation ps os :
  db w = None -> catalog w = Some ps -> order_book w = Some os ->
  StorageService.createOrder table items observation w =
  (Normal tt,
   put STORAGE_KEYS.ORDERS
     (OrdersJSON
        (os ++ [with_order_id (StorageService.orderData (clock w) table items observation)
                              (toString (clock w))]))
     (put STORAGE_KEYS.PRODUCTS
        (ProductsJSON (fold_left StorageService.decrement_stock items ps)) w)).
Proof.
  intros Hdb Hps Hos. unfold StorageService.createOrder.
  unfold window.Date_now at 1. unfold bind at 1. unfold bind at 1. simpl.
  rewrite bind_isCloud_local by done.
  rewrite bind_getItem, (parse_catalog _ _ Hps). unfold bind at 1; simpl.
  rewrite bind_setItem.
  unfold window.Date_now at 1. unfold bind at 1. unfold bind at 1. simpl.
  rewrite bind_getItem, read_put_ne by done.
  rewrite (parse_order_book _ _ Hos). unfold bind at 1; simpl.
  rewrite setItem_eq, clock_put. done.
Qed.

End CreateOrder.

(** ** The stock loops *)

Section StockLoops.

Implicit Types (ps : list Product) (ref : string) (f : Z -> Z) (i : nat).

Lemma with_stock_stock (p : Product) : with_stock p (stock p) = p.
Proof. by destruct p. Qed.

Lemma first_index_Some ref ps i :
  first_index ref ps = Some i <->
  exists p, ps !! i = Some p /\ id p = ref
            /\ forall j q, ps !! j = Some q -> (j < i)%nat -> id q <> ref.
Proof.
  unfold first_index. rewrite fmap_Some. split.
  - intros [[j p] [Hf ->]]. apply list_find_Some in Hf as (? & ? & ?).
    exists p. simpl. eauto.
  - intros (p & ? & ? & ?). exists (i, p). split; [|done].
    apply list_find_Some. naive_solver.
Qed.

Lemma first_index_None ref ps :
  first_index ref ps = None <-> forall p, p ∈ ps -> id p <> ref.
Proof.
  unfold first_index. rewrite fmap_None, list_find_None, Forall_forall. done.
Qed.

(** The position depends on the identifiers only. *)
Lemma first_index_ids ref ps ps' :
  id <$> ps = id <$> ps' -> first_index ref ps = first_index ref ps'.
Proof.
  intros Hids. unfold first_index.
  assert (forall l, fst <$> list_find (fun p => id p = ref) l
                    = fst <$> list_find (fun s => s = ref) (id <$> l)) as E.
  { intros l. rewrite list_find_fmap.
    destruct (list_find ((fun s => s = ref) ∘ id) l) as [[? ?]|] eqn:H;
      unfold compose in H; rewrite H; done. }
  by rewrite !E, Hids.
Qed.

Lemma adjust_first_lookup ref f ps i :
  adjust_first ref f ps !! i =
  (fun p => if decide (first_index ref ps = Some i)
            then with_stock p (f (stock p)) else p) <$> ps !! i.
Proof.
  unfold adjust_first, first_index.
  destruct (list_find _ ps) as [[j q]|] eqn:Hfind; simpl.
  - rewrite list_lookup_alter. destruct (decide (j = i)) as [->|Hne].
    + destruct (ps !! i); simpl; [|done]. destruct (decide _); congruence.
    + destruct (ps !! i); simpl; [|done]. destruct (decide _); congruence.
  - by destruct (ps !! i).
Qed.

Lemma adjust_first_length ref f ps : length (adjust_first ref f ps) = length ps.
Proof.
  unfold adjust_first. destruct (list_find _ ps) as [[j q]|]; [|done].
  apply length_alter.
Qed.

Lemma adjust_first_ids ref f ps : id <$> adjust_first ref f ps = id <$> ps.
Proof.
  apply list_eq; intros i. rewrite !list_lookup_fmap, adjust_first_lookup.
  destruct (ps !! i); simpl; [|done]. by case_decide.
Qed.

Lemma fold_selected_ids {A : Type} (ref : A -> string) (f : A -> Z -> Z)
    (l : list A) ps ps' i (s : Z) :
  id <$> ps = id <$> ps' ->
  fold_left (fun s a => if decide (first_index (ref a) ps = Some i)
                        then f a s else s) l s
  = fold_left (fun s a => if decide (first_index (ref a) ps' = Some i)
                          then f a s else s) l s.
Proof.
  intros Hids. revert s. induction l as [|a l IH]; intros s; simpl; [done|].
  by rewrite (first_index_ids (ref a) ps ps'), IH.
Qed.

(** A loop of adjustments, position by position: the stock at position [i]
    goes through the adjustments of the items whose identifier selects
    [i], in order, and nothing else changes. *)
Lemma fold_adjust_lookup {A : Type} (ref : A -> string) (f : A -> Z -> Z)
    (l : list A) ps i :
  fold_left (fun ps a => adjust_first (ref a) (f a) ps) l ps !! i =
  (fun p =>
     with_stock p
       (fold_left (fun s a => if decide (first_index (ref a) ps = Some i)
                              then f a s else s) l (stock p)))
    <$> ps !! i.
Proof.
  revert ps. induction l as [|a l IH]; intros ps; simpl.
  - destruct (ps !! i); simpl; [|done]. by rewrite with_stock_stock.
  - rewrite IH, adjust_first_lookup.
    destruct (ps !! i) as [p|]; simpl; [|done]. f_equal.
    rewrite (fold_selected_ids ref f l _ ps) by apply adjust_first_ids.
    destruct (decide (first_index (ref a) ps = Some i)); by destruct p.
Qed.

Lemma fold_adjust_length {A : Type} (ref : A -> string) (f : A -> Z -> Z)
    (l : list A) ps :
  length (fold_left (fun ps a => adjust_first (ref a) (f a) ps) l ps) = length ps.
Proof.
  revert ps. induction l as [|a l IH]; intros ps; simpl; [done|].
  by rewrite IH, adjust_first_length.
Qed.

End StockLoops.

(** ** Stock arithmetic of the two loops *)

Section StockArithmetic.

Implicit Types (ps : list Product) (i : nat) (p : Product).

(** When [p] is the first product of its identifier, the items that select
    its position are those that carry its identifier. *)
Lemma fold_selected_first {A : Type} (ref : A -> string) (f : A -> Z -> Z)
    (l : list A) ps i p (s : Z) :
  ps !! i = Some p -> first_index (id p) ps = Some i ->
  fold_left (fun s a => if decide (first_index (ref a) ps = Some i)
                        then f a s else s) l s
  = fold_left (fun s a => if decide (ref a = id p) then f a s else s) l s.
Proof.
  intros Hp Hfirst. revert s. induction l as [|a l IH]; intros s; simpl; [done|].
  rewrite <- IH.
  destruct (decide (first_index (ref a) ps = Some i)) as [Ha|Ha];
    destruct (decide (ref a = id p)) as [Hb|Hb]; try done.
  - apply first_index_Some in Ha as (q & Hq & Hid & _). congruence.
  - rewrite Hb in Ha. done.
Qed.

(** A later product with the same identifier as an earlier one, and a
    product no item names, are selected by no item. *)
Lemma fold_selected_never {A : Type} (ref : A -> string) (f : A -> Z -> Z)
    (l : list A) ps i p (s : Z) :
  ps !! i = Some p ->
  (forall a, a ∈ l -> ref a = id p -> first_index (id p) ps <> Some i) ->
  fold_left (fun s a => if decide (first_index (ref a) ps = Some i)
                        then f a s else s) l s = s.
Proof.
  intros Hp. revert s. induction l as [|a l IH]; intros s Hno; simpl; [done|].
  rewrite decide_False.
  - apply IH. intros b Hb. apply Hno. by right.
  - intros Ha. pose proof Ha as Ha'.
    apply first_index_Some in Ha as (q & Hq & Hid & _).
    assert (q = p) as -> by congruence.
    eapply (Hno a); [by left|done|]. by rewrite Hid.
Qed.

Lemma ordered_nonneg ref (items : list CartItem) :
  (forall item, item ∈ items -> 0 <= quantity item) -> 0 <= ordered ref items.
Proof.
  induction items as [|a l IH]; intros Hq; simpl; [lia|].
  assert (0 <= ordered ref l) by (apply IH; intros; apply Hq; by right).
  assert (0 <= quantity a) by (apply Hq; by left).
  unfold ordered in *. case_decide; lia.
Qed.

(** The floor, over a whole order: from a stock that is not negative. *)
Lemma floor_fold_nonneg ref (items : list CartItem) (s : Z) :
  (forall item, item ∈ items -> 0 <= quantity item) -> 0 <= s ->
  fold_left (fun s a => if decide (id (product a) = ref)
                        then Z.max 0 (s - quantity a) else s) items s
  = Z.max 0 (s - ordered ref items).
Proof.
  revert s. induction items as [|a l IH]; intros s Hq Hs; simpl; [lia|].
  assert (0 <= ordered ref l) by (apply ordered_nonneg; intros; apply Hq; by right).
  assert (0 <= quantity a) by (apply Hq; by left).
  rewrite IH; [|intros; apply Hq; by right|case_decide; lia].
  unfold ordered in *. case_decide; lia.
Qed.

(** The floor, over a whole order: from any stock, once an item names the
    product. *)
Lemma floor_fold ref (items : list CartItem) (s : Z) :
  (forall item, item ∈ items -> 0 <= quantity item) ->
  (exists item, item ∈ items /\ id (product item) = ref) ->
  fold_left (fun s a => if decide (id (product a) = ref)
                        then Z.max 0 (s - quantity a) else s) items s
  = Z.max 0 (s - ordered ref items).
Proof.
  revert s. induction items as [|a l IH]; intros s Hq [item [Hin Hid]]; simpl.
  - by apply elem_of_nil in Hin.
  - assert (0 <= ordered ref l) by (apply ordered_nonneg; intros; apply Hq; by right).
    assert (0 <= quantity a) by (apply Hq; by left).
    destruct (decide (id (product a) = ref)) as [Ha|Ha].
    + rewrite floor_fold_nonneg; [|intros; apply Hq; by right|lia].
      unfold ordered in *. lia.
    + apply elem_of_cons in Hin as [->|Hin]; [done|].
      rewrite IH; [done|intros; apply Hq; by right|eauto].
Qed.

(** Whatever the quantities, a stock the loop changes ends at zero or above. *)
Lemma floor_fold_sign (P : CartItem -> Prop) `{!forall a, Decision (P a)}
    (items : list CartItem) (s : Z) :
  let s' := fold_left (fun s a => if decide (P a)
                                  then Z.max 0 (s - quantity a) else s) items s in
  s' = s \/ 0 <= s'.
Proof.
  simpl. revert s. induction items as [|a l IH]; intros s; simpl; [by left|].
  destruct (decide (P a)); [|apply IH].
  destruct (IH (Z.max 0 (s - quantity a))) as [->|?]; right; lia.
Qed.

(** What a cancelled order gives back to a product. *)
Lemma restore_fold ref (items : list OrderItem) (s : Z) :
  fold_left (fun s a => if decide (productId a = ref)
                        then s + item_quantity a else s) items s
  = s + returned ref items.
Proof.
  revert s. induction items as [|a l IH]; intros s; simpl; [lia|].
  rewrite IH. unfold returned. case_decide; lia.
Qed.

End StockArithmetic.

(** ** [createOrder] in fallback mode *)

Section CreateOrderFallback.

Implicit Types (w : World) (items : list CartItem) (ps : list Product).

Lemma createOrder_local_unparsed_orders w table items observation ps :
  db w = None -> catalog w = Some ps -> order_book w = None ->
  StorageService.createOrder table items observation w =
  (Throw SyntaxError,
   put STORAGE_KEYS.PRODUCTS
     (ProductsJSON (fold_left StorageService.decrement_stock items ps)) w).
Proof.
  intros Hdb Hps Hos. unfold StorageService.createOrder.
  unfold window.Date_now at 1. unfold bind at 1. unfold bind at 1. simpl.
  rewrite bind_isCloud_local by done.
  rewrite bind_getItem, (parse_catalog _ _ Hps). unfold bind at 1; simpl.
  rewrite bind_setItem.
  unfold window.Date_now at 1. unfold bind at 1. unfold bind at 1. simpl.
  rewrite bind_getItem, read_put_ne by done.
  rewrite (parse_order_book_None _ Hos). done.
Qed.

(** The catalog [createOrder] writes, whether or not the order book can be
    read afterwards. *)
Lemma createOrder_local_catalog w table items observation ps :
  db w = None -> catalog w = Some ps ->
  let w' := snd (StorageService.createOrder table items observation w) in
  memoryStore w' !! STORAGE_KEYS.PRODUCTS
    = Some (ProductsJSON (fold_left StorageService.decrement_stock items ps))
  /\ (coherent (localStorage w) ->
      catalog w' = Some (fold_left StorageService.decrement_stock items ps)).
Proof.
  intros Hdb Hps. destruct (order_book w) as [os|] eqn:Hos; simpl.
  - rewrite (createOrder_local _ _ _ _ _ _ Hdb Hps Hos); simpl. split.
    + rewrite memoryStore_put_ne by done. apply memoryStore_put.
    + intros Hc. rewrite catalog_put_ne by done. by apply catalog_put.
  - rewrite (createOrder_local_unparsed_orders _ _ _ _ _ Hdb Hps Hos); simpl. split.
    + apply memoryStore_put.
    + intros Hc. by apply catalog_put.
Qed.

Lemma decrement_fold items ps :
  fold_left StorageService.decrement_stock items ps
  = fold_left (fun ps a => adjust_first (id (product a))
                             (fun s => Z.max 0 (s - quantity a)) ps) items ps.
Proof. reflexivity. Qed.

Lemma decrement_fold_lookup items ps i :
  fold_left StorageService.decrement_stock items ps !! i =
  (fun p =>
     with_stock p
       (fold_left (fun s a => if decide (first_index (id (product a)) ps = Some i)
                              then Z.max 0 (s - quantity a) else s) items (stock p)))
    <$> ps !! i.
Proof.
  rewrite decrement_fold.
  apply (fold_adjust_lookup (fun a => id (product a))
           (fun a s => Z.max 0 (s - quantity a))).
Qed.

Lemma decrement_fold_length items ps :
  length (fold_left StorageService.decrement_stock items ps) = length ps.
Proof.
  rewrite decrement_fold.
  apply (fold_adjust_length (fun a => id (product a))
           (fun a s => Z.max 0 (s - quantity a))).
Qed.

(** A stock that the loop changes is not negative afterwards. *)
Lemma decrement_fold_sign items ps i p' :
  fold_left StorageService.decrement_stock items ps !! i = Some p' ->
  0 <= stock p' \/ ps !! i = Some p'.
Proof.
  rewrite decrement_fold_lookup. destruct (ps !! i) as [p|]; simpl; [|done].
  intros [= <-]; simpl.
  destruct (floor_fold_sign
              (fun a => first_index (id (product a)) ps = Some i)
              items (stock p)) as [E|E]; simpl in E.
  - right. by rewrite E, with_stock_stock.
  - by left.
Qed.

(** A product no item names is left as it was. *)
Lemma decrement_fold_frame items ps i p :
  ps !! i = Some p ->
  (forall item, item ∈ items -> id (product item) <> id p) ->
  fold_left StorageService.decrement_stock items ps !! i = Some p.
Proof.
  intros Hp Hno. rewrite decrement_fold_lookup, Hp; simpl. f_equal.
  rewrite (fold_selected_never (fun a => id (product a)) _ items ps i p) by naive_solver.
  apply with_stock_stock.
Qed.

(** Only the stock of a product can change. *)
Lemma decrement_fold_fields items ps i p :
  ps !! i = Some p ->
  exists s, fold_left StorageService.decrement_stock items ps !! i
            = Some (with_stock p s).
Proof. intros Hp. rewrite decrement_fold_lookup, Hp; simpl. eauto. Qed.

(** A line item whose product is not in the catalog does nothing. *)
Lemma decrement_stock_absent ps item :
  (forall p, p ∈ ps -> id p <> id (product item)) ->
  StorageService.decrement_stock ps item = ps.
Proof.
  intros Habs. unfold StorageService.decrement_stock.
  destruct (list_find _ ps) as [[j q]|] eqn:Hfind; [|done].
  apply list_find_Some in Hfind as (Hq & Hid & _).
  destruct (Habs q); [|done]. by eapply list_elem_of_lookup_2.
Qed.

Lemma decrement_fold_absent items ps :
  fold_left StorageService.decrement_stock items ps
  = fold_left StorageService.decrement_stock
      (filter (fun item => id (product item) ∈ id <$> ps) items) ps.
Proof.
  revert ps. induction items as [|a l IH]; intros ps; [done|].
  rewrite filter_cons. simpl. case_decide as Ha; simpl.
  - rewrite IH.
    replace (id <$> StorageService.decrement_stock ps a) with (id <$> ps); [done|].
    symmetry.
    exact (adjust_first_ids (id (product a)) (fun s => Z.max 0 (s - quantity a)) ps).
  - rewrite decrement_stock_absent; [apply IH|].
    intros p Hp Hid. apply Ha. rewrite <- Hid. apply list_elem_of_fmap. eauto.
Qed.

Lemma decrement_fold_all_absent items ps :
  (forall item p, item ∈ items -> p ∈ ps -> id p <> id (product item)) ->
  fold_left StorageService.decrement_stock items ps = ps.
Proof.
  induction items as [|a l IH]; intros Habs; simpl; [done|].
  rewrite decrement_stock_absent.
  - apply IH. intros item p Hin. apply Habs. by right.
  - intros p. apply Habs. by left.
Qed.

(** The floor at zero, product by product, for an order whose quantities
    are not negative. *)
Lemma decrement_fold_floor items ps i p :
  (forall item, item ∈ items -> 0 <= quantity item) ->
  ps !! i = Some p -> first_index (id p) ps = Some i ->
  (exists item, item ∈ items /\ id (product item) = id p) ->
  fold_left StorageService.decrement_stock items ps !! i
  = Some (with_stock p (Z.max 0 (stock p - ordered (id p) items))).
Proof.
  intros Hq Hp Hfirst Hnamed. rewrite decrement_fold_lookup, Hp; simpl. do 2 f_equal.
  rewrite (fold_selected_first (fun a => id (product a)) _ items ps i p) by done.
  by apply floor_fold.
Qed.

End CreateOrderFallback.

(** C2.  In fallback mode [createOrder] writes the catalog in which every
    line item has taken its quantity out of the first product with its
    identifier, floored at zero: the product an item selects gets the stock
    [max 0 (stock - quantity)].  Whatever the quantities, a stock that the
    call changes is not negative afterwards, so a catalog without negative
    stock stays one; when no quantity is negative, the new stock of a product
    some item names is its old stock minus the quantity ordered of it,
    floored at zero, also when that quantity exceeds the stock. *)
Theorem createOrder_stock_never_negative
    (w : World) (table : Z) (items : list CartItem) (observation : option string)
    (ps : list Product) :
  db w = None -> catalog w = Some ps ->
  let w' := snd (StorageService.createOrder table items observation w) in
  let ps' := fold_left StorageService.decrement_stock items ps in
  memoryStore w' !! STORAGE_KEYS.PRODUCTS = Some (ProductsJSON ps')
  /\ (coherent (localStorage w) -> catalog w' = Some ps')
  /\ (forall i p', ps' !! i = Some p' -> 0 <= stock p' \/ ps !! i = Some p')
  /\ (Forall (fun p => 0 <= stock p) ps -> Forall (fun p => 0 <= stock p) ps')
  /\ (forall qs item j q,
        list_find (fun p => id p = id (product item)) qs = Some (j, q) ->
        StorageService.decrement_stock qs item !! j
        = Some (with_stock q (Z.max 0 (stock q - quantity item))))
  /\ ((forall item, item ∈ items -> 0 <= quantity item) ->
      forall i p,
        ps !! i = Some p -> first_index (id p) ps = Some i ->
        (exists item, item ∈ items /\ id (product item) = id p) ->
        ps' !! i = Some (with_stock p (Z.max 0 (stock p - ordered (id p) items)))).
Proof.
  intros Hdb Hps w' ps'.
  destruct (createOrder_local_catalog w table items observation ps Hdb Hps) as [Hmem Hcat].
  split; [exact Hmem|]. split; [exact Hcat|]. split; [|split; [|split]].
  - intros i p'. apply decrement_fold_sign.
  - intros Hall. apply Forall_forall. intros p' Hin.
    apply list_elem_of_lookup in Hin as [i Hi].
    destruct (decrement_fold_sign items ps i p' Hi) as [?|Hold]; [done|].
    rewrite Forall_forall in Hall. apply Hall. by eapply list_elem_of_lookup_2.
  - intros qs item j q Hfind. unfold StorageService.decrement_stock. rewrite Hfind.
    apply list_find_Some in Hfind as (Hj & _). by rewrite list_lookup_alter_eq, Hj.
  - intros Hq i p Hp Hfirst Hnamed. by apply decrement_fold_floor.
Qed.

(** Fifty beers ordered out of a stock of 48. *)
Lemma createOrder_stock_never_negative_witness :
  catalog (snd (StorageService.createOrder 7 thirsty_cart None seeded_world))
  = Some (fold_left StorageService.decrement_stock thirsty_cart INITIAL_PRODUCTS)
  /\ fold_left StorageService.decrement_stock thirsty_cart INITIAL_PRODUCTS !! 0%nat
     = Some (with_stock beer 0).
Proof.
  destruct (createOrder_stock_never_negative seeded_world 7 thirsty_cart None
              INITIAL_PRODUCTS) as (_ & Hcat & _ & _ & _ & Hfloor).
  - reflexivity.
  - vm_compute. reflexivity.
  - split.
    + apply Hcat. intros key value Hrefused. exact Hrefused.
    + apply (Hfloor ltac:(intros item ->%list_elem_of_singleton; simpl; lia) 0%nat beer).
      * reflexivity.
      * vm_compute. reflexivity.
      * exists (mkCartItem beer 50). split; [apply list_elem_of_singleton|]; reflexivity.
Defined.

(** C10.  In fallback mode [createOrder] leaves the catalog's length and every
    field but the stock of every product; a product no line item names is
    unchanged; line items whose product is not in the catalog change nothing
    (the catalog is the one the other items alone would give); and the order
    is appended to the order book and the call returns, whatever the items
    matched. *)
Theorem createOrder_frame
    (w : World) (table : Z) (items : list CartItem) (observation : option string)
    (ps : list Product) (os : list Order) :
  db w = None -> catalog w = Some ps -> order_book w = Some os ->
  let w' := snd (StorageService.createOrder table items observation w) in
  let ps' := fold_left StorageService.decrement_stock items ps in
  let o := with_order_id (StorageService.orderData (clock w) table items observation)
                         (toString (clock w)) in
  memoryStore w' !! STORAGE_KEYS.PRODUCTS = Some (ProductsJSON ps')
  /\ length ps' = length ps
  /\ (forall i p, ps !! i = Some p -> exists s, ps' !! i = Some (with_stock p s))
  /\ (forall i p,
        ps !! i = Some p ->
        (forall item, item ∈ items -> id (product item) <> id p) ->
        ps' !! i = Some p)
  /\ ps' = fold_left StorageService.decrement_stock
             (filter (fun item => id (product item) ∈ id <$> ps) items) ps
  /\ ((forall item p, item ∈ items -> p ∈ ps -> id p <> id (product item)) -> ps' = ps)
  /\ fst (StorageService.createOrder table items observation w) = Normal tt
  /\ memoryStore w' !! STORAGE_KEYS.ORDERS = Some (OrdersJSON (os ++ [o]))
  /\ (coherent (localStorage w) ->
      catalog w' = Some ps' /\ order_book w' = Some (os ++ [o])).
Proof.
  intros Hdb Hps Hos w' ps' o. subst w'.
  rewrite (createOrder_local _ _ _ _ _ _ Hdb Hps Hos); simpl.
  split; [|split; [|split; [|split; [|split; [|split; [|split; [|split]]]]]]].
  - rewrite memoryStore_put_ne by done. apply memoryStore_put.
  - apply decrement_fold_length.
  - intros i p. apply decrement_fold_fields.
  - intros i p. apply decrement_fold_frame.
  - apply decrement_fold_absent.
  - intros Habs. apply decrement_fold_all_absent. eauto.
  - done.
  - apply memoryStore_put.
  - intros Hc. split.
    + rewrite catalog_put_ne by done. by apply catalog_put.
    + apply order_book_put. by apply coherent_put.
Qed.

(** An order for a product that is not in the catalog: nothing changes there
    and the order is in the book. *)
Lemma createOrder_frame_witness :
  let ghost := mkCartItem (with_id beer "99") 3 in
  let w' := snd (StorageService.createOrder 7 [ghost] None seeded_world) in
  catalog w' = Some INITIAL_PRODUCTS
  /\ order_book w'
     = Some [with_order_id (StorageService.orderData 1700000000000 7 [ghost] None)
                           "1700000000000"].
Proof.
  intros ghost w'.
  destruct (createOrder_frame seeded_world 7 [ghost] None INITIAL_PRODUCTS [])
    as (_ & _ & _ & _ & _ & Habs & _ & _ & Hc).
  - reflexivity.
  - vm_compute. reflexivity.
  - vm_compute. reflexivity.
  - destruct Hc as [Hcat Hbook]; [intros key value Hrefused; exact Hrefused|].
    split; [|exact Hbook].
    subst w'. rewrite Hcat. reflexivity.
Defined.

(** ** [saveProduct] and [deleteProduct] *)

Ltac fs_unfold :=
  repeat progress unfold
    firestore.updateDoc_product, firestore.updateDoc_order, firestore.addDoc_product,
    firestore.addDoc_order, firestore.deleteDoc_product, firestore.deleteDoc_table,
    firestore.getDocs_products_where_name, firestore.getDocs_orders_where_tableId,
    firestore.request, firestore.modify_cloud, window.alert,
    try_catch, bind, get_world, modify, ret, throw in *.

Section SaveProduct.

Implicit Types (w : World) (ps : list Product).

Lemma saveProduct_local w p ps :
  db w = None -> catalog w = Some ps ->
  StorageService.saveProduct p w =
  (Normal tt,
   put STORAGE_KEYS.PRODUCTS
     (ProductsJSON
        (StorageService.saveProduct_merge ps
           (fst <$> list_find (fun q => id q = id p) ps)
           (fst <$> list_find (fun q => name q = name p /\ id q <> id p) ps)
           (with_id p (stored_id w p)))) w).
Proof.
  intros Hdb Hps. unfold StorageService.saveProduct, stored_id.
  rewrite bind_isCloud_local by done.
  rewrite bind_getItem, (parse_catalog _ _ Hps). unfold bind at 1; simpl.
  destruct (String.eqb (id p) "" || (String.length (id p) <? 5)%nat).
  - unfold window.Date_now. unfold bind at 1. unfold bind at 1. simpl.
    unfold try_catch. by rewrite setItem_eq.
  - unfold bind at 1; simpl. unfold try_catch. rewrite setItem_eq.
    by destruct p.
Qed.

Lemma saveProduct_local_unparsed w p :
  db w = None -> catalog w = None ->
  StorageService.saveProduct p w = (Throw SyntaxError, w).
Proof.
  intros Hdb Hps. unfold StorageService.saveProduct.
  rewrite bind_isCloud_local by done.
  rewrite bind_getItem, (parse_catalog_None _ Hps). done.
Qed.

(** In cloud mode [saveProduct] touches the products collection and the
    alerts only. *)
Lemma saveProduct_cloud_frame w p h :
  db w = Some h ->
  let w' := snd (StorageService.saveProduct p w) in
  memoryStore w' = memoryStore w /\ localStorage w' = localStorage w
  /\ orders_col (cloud w') = orders_col (cloud w)
  /\ tables_col (cloud w') = tables_col (cloud w).
Proof.
  intros Hdb. unfold StorageService.saveProduct.
  rewrite (bind_isCloud_cloud _ _ _ Hdb). fs_unfold; simpl.
  destruct (outage (cloud w)) as [code|] eqn:Hout.
  - destruct (negb _ && _); simpl; rewrite ?Hout; done.
  - destruct (negb _ && _); simpl; rewrite ?Hout; simpl.
    + destruct (products_col (cloud w) !! id p); done.
    + destruct (map_to_list _) as [|[ref cur] rest]; simpl; rewrite ?Hout; simpl;
        [done|].
      destruct (products_col (cloud w) !! ref); done.
Qed.

(** Saving a product never touches the order book, in either mode. *)
Lemma saveProduct_orders w p :
  let w' := snd (StorageService.saveProduct p w) in
  order_book w' = order_book w /\ orders_col (cloud w') = orders_col (cloud w).
Proof.
  destruct (db w) as [h|] eqn:Hdb; simpl.
  - destruct (saveProduct_cloud_frame w p h Hdb) as (Hm & Hl & Ho & _).
    split; [by apply order_book_frame|done].
  - destruct (catalog w) as [ps|] eqn:Hps.
    + rewrite (saveProduct_local _ _ _ Hdb Hps); simpl.
      split; [by apply order_book_put_ne|by rewrite cloud_put].
    + by rewrite (saveProduct_local_unparsed _ _ Hdb Hps).
Qed.

Lemma deleteProduct_orders w ref :
  let w' := snd (StorageService.deleteProduct ref w) in
  order_book w' = order_book w /\ orders_col (cloud w') = orders_col (cloud w).
Proof.
  unfold StorageService.deleteProduct.
  destruct (db w) as [h|] eqn:Hdb; simpl.
  - rewrite (bind_isCloud_cloud _ _ _ Hdb). fs_unfold; simpl.
    destruct (outage (cloud w)); simpl; [done|].
    split; [by apply order_book_frame|done].
  - rewrite bind_isCloud_local by done. rewrite bind_getItem.
    destruct (catalog w) as [ps|] eqn:Hps.
    + rewrite (parse_catalog _ _ Hps). unfold bind at 1; simpl.
      rewrite setItem_eq.
      split; [by apply order_book_put_ne|exact (f_equal orders_col (cloud_put _ _ _))].
    + by rewrite (parse_catalog_None _ Hps).
Qed.

End SaveProduct.

(** ** [createOrder]: the order and its total *)

Section OrderTotal.

Implicit Types (w : World) (items : list CartItem).

(** The total is a running sum: it starts from zero and takes the items in
    their order, each product and each sum rounded to a number. *)
Lemma order_total_nil : StorageService.order_total [] = number_of_Z 0.
Proof. reflexivity. Qed.

Lemma order_total_snoc items item :
  StorageService.order_total (items ++ [item])
  = number_add (StorageService.order_total items)
               (number_mul (number_of_Q (price (product item)))
                           (number_of_Z (quantity item))).
Proof. unfold StorageService.order_total. by rewrite fold_left_app. Qed.

(** The line items carry the prices of the cart, not of the catalog. *)
Lemma line_items_prices items :
  item_price <$> StorageService.line_items items
  = (fun i => price (product i)) <$> items.
Proof.
  unfold StorageService.line_items. induction items as [|a l IH]; [done|].
  simpl. f_equal. exact IH.
Qed.

Lemma line_items_quantities cart :
  item_quantity <$> StorageService.line_items cart = quantity <$> cart.
Proof.
  unfold StorageService.line_items. induction cart as [|a l IH]; [done|].
  simpl. f_equal. exact IH.
Qed.

(** The stock updates of cloud mode settle one by one and touch the products
    collection only. *)
Lemma createOrder_cloud_updates items w :
  exists products,
    forEach items (fun item =>
      try_catch
        (firestore.updateDoc_product (id (product item))
           (fun d => with_stock d (stock d + - quantity item)))
        (fun _ => ret tt)) w
    = (Normal tt, set_cloud (set_products_col products (cloud w)) w).
Proof.
  revert w. induction items as [|a l IH]; intros w; simpl.
  - exists (products_col (cloud w)). unfold ret. f_equal.
    by destruct w as [? ? ? ? [] ? ? ?].
  - unfold bind at 1.
    assert (exists products,
      try_catch
        (firestore.updateDoc_product (id (product a))
           (fun d => with_stock d (stock d + - quantity a)))
        (fun _ => ret tt) w
      = (Normal tt, set_cloud (set_products_col products (cloud w)) w))
      as [products ->].
    { fs_unfold; simpl.
      destruct (outage (cloud w)); simpl;
        [exists (products_col (cloud w)); by destruct w as [? ? ? ? [] ? ? ?]|].
      destruct (products_col (cloud w) !! id (product a)); simpl;
        [eexists; reflexivity|].
      exists (products_col (cloud w)); by destruct w as [? ? ? ? [] ? ? ?]. }
    destruct (IH (set_cloud (set_products_col products (cloud w)) w))
      as [products' ->].
    exists products'. by destruct w as [? ? ? ? [] ? ? ?].
Qed.

Lemma addDoc_order_eq (data : Order) w :
  firestore.addDoc_order data w =
  match outage (cloud w) with
  | Some code => (Throw (FirebaseError code), w)
  | None =>
      (Normal tt,
       set_cloud (set_orders_col
                    (<[autoId (cloud w) := with_order_id data (autoId (cloud w))]>
                       (orders_col (cloud w))) (cloud w)) w)
  end.
Proof. fs_unfold. by destruct (outage (cloud w)). Qed.

Lemma createOrder_cloud_eq w table items observation h :
  db w = Some h -> outage (cloud w) = None ->
  exists products,
    StorageService.createOrder table items observation w
    = (Normal tt,
       set_cloud
         (set_products_col products
            (set_orders_col
               (<[autoId (cloud w) :=
                    with_order_id
                      (StorageService.orderData (clock w) table items observation)
                      (autoId (cloud w))]> (orders_col (cloud w)))
               (cloud w))) w).
Proof.
  intros Hdb Hout. unfold StorageService.createOrder.
  unfold window.Date_now at 1. unfold bind at 1. unfold bind at 1. simpl.
  rewrite (bind_isCloud_cloud _ _ _ Hdb).
  unfold bind at 1. rewrite addDoc_order_eq, Hout.
  match goal with
  | |- context [forEach items ?body ?v] =>
      destruct (createOrder_cloud_updates items v) as [products ->]
  end.
  exists products. by destruct w as [? ? ? ? [] ? ? ?].
Qed.

Lemma createOrder_cloud w table items observation h :
  db w = Some h -> outage (cloud w) = None ->
  let w' := snd (StorageService.createOrder table items observation w) in
  fst (StorageService.createOrder table items observation w) = Normal tt
  /\ orders_col (cloud w')
     = <[autoId (cloud w) :=
           with_order_id (StorageService.orderData (clock w) table items observation)
                         (autoId (cloud w))]> (orders_col (cloud w)).
Proof.
  intros Hdb Hout.
  destruct (createOrder_cloud_eq w table items observation h Hdb Hout) as [products ->].
  done.
Qed.

Lemma createOrder_cloud_outage w table items observation h code :
  db w = Some h -> outage (cloud w) = Some code ->
  StorageService.createOrder table items observation w
  = (Throw (FirebaseError code), w).
Proof.
  intros Hdb Hout. unfold StorageService.createOrder.
  unfold window.Date_now at 1. unfold bind at 1. unfold bind at 1. simpl.
  rewrite (bind_isCloud_cloud _ _ _ Hdb).
  unfold bind at 1. by rewrite addDoc_order_eq, Hout.
Qed.

End OrderTotal.

(** C3, as the code has it.  The total of the order [createOrder] stores is
    a running sum in the arithmetic of JavaScript numbers: it starts from
    zero and adds price times quantity item by item, in the order of the
    supplied items, each product and each sum rounded to the nearest binary64
    value; the stored total is what that number is worth whenever it is
    finite.  The line items carry the prices and quantities of the supplied
    products.  That holds of the order fallback mode appends to the order
    book and of the one cloud mode adds to the orders collection.  Saving or
    deleting a product afterwards, in either mode, leaves the order book and
    the orders collection as they are, so neither the stored total nor the
    captured prices change. *)
Theorem createOrder_total
    (w : World) (table : Z) (cart : list CartItem) (note : option string) :
  let w' := snd (StorageService.createOrder table cart note w) in
  let as_ordered (o : Order) :=
    (finite (StorageService.order_total cart) = true ->
     total o = Q_of_number (StorageService.order_total cart))
    /\ item_price <$> items o = (fun i => price (product i)) <$> cart
    /\ item_quantity <$> items o = quantity <$> cart in
  StorageService.order_total [] = number_of_Z 0
  /\ (forall earlier item,
        StorageService.order_total (earlier ++ [item])
        = number_add (StorageService.order_total earlier)
                     (number_mul (number_of_Q (price (product item)))
                                 (number_of_Z (quantity item))))
  /\ (forall ps os,
        db w = None -> catalog w = Some ps -> order_book w = Some os ->
        exists o,
          as_ordered o
          /\ memoryStore w' !! STORAGE_KEYS.ORDERS = Some (OrdersJSON (os ++ [o]))
          /\ (coherent (localStorage w) -> order_book w' = Some (os ++ [o])))
  /\ (forall h,
        db w = Some h -> outage (cloud w) = None ->
        exists o,
          as_ordered o
          /\ orders_col (cloud w') = <[autoId (cloud w) := o]> (orders_col (cloud w)))
  /\ (forall (later : World) (p : Product),
        order_book (snd (StorageService.saveProduct p later)) = order_book later
        /\ orders_col (cloud (snd (StorageService.saveProduct p later)))
           = orders_col (cloud later))
  /\ (forall (later : World) (ref : string),
        order_book (snd (StorageService.deleteProduct ref later)) = order_book later
        /\ orders_col (cloud (snd (StorageService.deleteProduct ref later)))
           = orders_col (cloud later)).
Proof.
  intros w' as_ordered.
  assert (forall ref,
            as_ordered (with_order_id
                          (StorageService.orderData (clock w) table cart note) ref))
    as Hordered.
  { intros ref. split; [done|].
    split; [apply line_items_prices|apply line_items_quantities]. }
  split; [apply order_total_nil|]. split; [apply order_total_snoc|].
  split; [|split; [|split]].
  - intros ps os Hdb Hps Hos. subst w'.
    rewrite (createOrder_local _ _ _ _ _ _ Hdb Hps Hos); simpl.
    eexists. split; [apply Hordered|].
    split; [apply memoryStore_put|].
    intros Hco. apply order_book_put. by apply coherent_put.
  - intros h Hdb Hout. eexists. split; [apply Hordered|].
    by apply (createOrder_cloud w table cart note h).
  - intros later p. apply saveProduct_orders.
  - intros later ref. apply deleteProduct_orders.
Qed.

(** An order taken in the seeded session, followed by a change of the beer's
    price: the book still holds the order with its total of 50 times 15,
    which no step rounds. *)
Lemma createOrder_total_witness :
  let w' := snd (StorageService.createOrder 7 thirsty_cart None seeded_world) in
  let w'' := snd (StorageService.saveProduct (with_price beer 99) w') in
  exists o, order_book w'' = Some [o]
            /\ total o = Q_of_number (StorageService.order_total thirsty_cart)
            /\ Q_of_number (StorageService.order_total thirsty_cart) = 750%Q.
Proof.
  intros w' w''.
  destruct (createOrder_total seeded_world 7 thirsty_cart None)
    as (_ & _ & Hlocal & _ & Hsave & _).
  destruct (Hlocal INITIAL_PRODUCTS []) as (o & (Htotal & _) & _ & Hbook).
  - reflexivity.
  - vm_compute. reflexivity.
  - vm_compute. reflexivity.
  - exists o. split; [|split].
    + subst w''. rewrite (proj1 (Hsave w' (with_price beer 99))).
      apply Hbook. intros key value Hrefused. exact Hrefused.
    + apply Htotal. vm_compute. reflexivity.
    + vm_compute. reflexivity.
Defined.

(** C3, as stated, fails: the total is not the sum of price times quantity
    when a step rounds.  Three items at [0.1] are stored with the total
    [0.30000000000000004], which is neither three times the price nor the
    number JavaScript reads for [0.3]. *)
Lemma createOrder_total_is_rounded :
  let w' := snd (StorageService.createOrder 7 dime_cart None seeded_world) in
  exists o,
    order_book w' = Some [o]
    /\ item_price <$> items o = [ten_cents]
    /\ item_quantity <$> items o = [3]
    /\ total o = 1351079888211149 # 4503599627370496
    /\ ~ (total o == sum_price_quantity dime_cart)%Q
    /\ ~ (total o == ten_cents * 3)%Q
    /\ total o <> Q_of_number (number_of_Q (3 # 10)).
Proof.
  eexists. split; [vm_compute; reflexivity|].
  repeat split; try (vm_compute; congruence).
Qed.

(** ** [updateOrderStatus] in fallback mode *)

Section UpdateOrderStatus.

Implicit Types (w : World) (os : list Order) (ps : list Product).

Lemma updateOrderStatus_local_cancel w orderId os index o ps :
  db w = None -> order_book w = Some os ->
  list_find (fun o => order_id o = orderId) os = Some (index, o) ->
  status o <> CANCELED -> catalog w = Some ps ->
  StorageService.updateOrderStatus orderId CANCELED w =
  (Normal tt,
   put STORAGE_KEYS.ORDERS
     (OrdersJSON (alter (fun o => with_status o CANCELED) index os))
     (put STORAGE_KEYS.PRODUCTS
        (ProductsJSON (fold_left StorageService.restore_stock (items o) ps)) w)).
Proof.
  intros Hdb Hos Hfind Hst Hps. unfold StorageService.updateOrderStatus.
  rewrite bind_isCloud_local by done.
  rewrite bind_getItem, (parse_order_book _ _ Hos). unfold bind at 1; simpl.
  rewrite Hfind. rewrite (bool_decide_eq_false_2 (status o = CANCELED)) by done. simpl.
  unfold bind at 1. rewrite bind_getItem, (parse_catalog _ _ Hps).
  unfold bind at 1; simpl. by rewrite !setItem_eq.
Qed.

(** Any other transition, and the cancellation of an order that is cancelled
    already, writes the order book only. *)
Lemma updateOrderStatus_local_plain w orderId newStatus os index o :
  db w = None -> order_book w = Some os ->
  list_find (fun o => order_id o = orderId) os = Some (index, o) ->
  newStatus <> CANCELED \/ status o = CANCELED ->
  StorageService.updateOrderStatus orderId newStatus w =
  (Normal tt,
   put STORAGE_KEYS.ORDERS
     (OrdersJSON (alter (fun o => with_status o newStatus) index os)) w).
Proof.
  intros Hdb Hos Hfind Hcase. unfold StorageService.updateOrderStatus.
  rewrite bind_isCloud_local by done.
  rewrite bind_getItem, (parse_order_book _ _ Hos). unfold bind at 1; simpl.
  rewrite Hfind.
  assert (bool_decide (newStatus = CANCELED) && negb (bool_decide (status o = CANCELED))
          = false) as ->.
  { destruct Hcase as [Hn|Hc].
    - by rewrite (bool_decide_eq_false_2 _ Hn).
    - rewrite (bool_decide_eq_true_2 _ Hc). apply andb_false_r. }
  unfold bind at 1; simpl. by rewrite setItem_eq.
Qed.

Lemma restore_fold_eq (l : list OrderItem) ps :
  fold_left StorageService.restore_stock l ps
  = fold_left (fun ps a => adjust_first (productId a)
                             (fun s => s + item_quantity a) ps) l ps.
Proof. reflexivity. Qed.

(** What the loop gives back, product by product: the first product of an
    identifier gets the quantities of all the line items that name it, each
    once; every other product keeps its stock. *)
Lemma restore_fold_lookup (l : list OrderItem) ps i p :
  ps !! i = Some p ->
  fold_left StorageService.restore_stock l ps !! i
  = Some (with_stock p (if decide (first_index (id p) ps = Some i)
                        then stock p + returned (id p) l else stock p)).
Proof.
  intros Hp. rewrite restore_fold_eq.
  rewrite (fold_adjust_lookup productId (fun a s => s + item_quantity a)), Hp; simpl.
  do 2 f_equal. destruct (decide (first_index (id p) ps = Some i)) as [Hfirst|Hfirst].
  - rewrite (fold_selected_first productId _ l ps i p) by done. apply restore_fold.
  - by apply (fold_selected_never productId _ l ps i p).
Qed.

Lemma restore_fold_length (l : list OrderItem) ps :
  length (fold_left StorageService.restore_stock l ps) = length ps.
Proof.
  rewrite restore_fold_eq.
  apply (fold_adjust_length productId (fun a s => s + item_quantity a)).
Qed.

(** The order is found at the same place once its status is changed. *)
Lemma find_order_alter orderId os index o st :
  list_find (fun o => order_id o = orderId) os = Some (index, o) ->
  list_find (fun o => order_id o = orderId)
            (alter (fun o => with_status o st) index os)
  = Some (index, with_status o st).
Proof.
  intros (Hi & Hid & Hbefore)%list_find_Some. apply list_find_Some.
  split; [by rewrite list_lookup_alter_eq, Hi|]. split; [done|].
  intros j y Hj Hlt. rewrite list_lookup_alter_ne in Hj by lia. eauto.
Qed.

End UpdateOrderStatus.

(** C4.  In fallback mode, cancelling an order that is not cancelled returns
    normally and writes the catalog in which the first product of each
    identifier has got back the quantities of the line items that name it,
    each once, every other stock and field being kept; the order is written
    back as CANCELED.  Cancelling an order that is CANCELED already leaves
    the products entry of both the in-memory map and the medium untouched.
    On a coherent medium the two compose: a second cancellation right after
    the first reads the same catalog as the first left. *)
Theorem cancel_restores_stock_once
    (w : World) (orderId : string) (os : list Order) (index : nat) (o : Order)
    (ps : list Product) :
  db w = None -> order_book w = Some os ->
  list_find (fun o => order_id o = orderId) os = Some (index, o) ->
  catalog w = Some ps ->
  let once := snd (StorageService.updateOrderStatus orderId CANCELED w) in
  let twice := snd (StorageService.updateOrderStatus orderId CANCELED once) in
  let ps' := fold_left StorageService.restore_stock (items o) ps in
  (status o <> CANCELED ->
     fst (StorageService.updateOrderStatus orderId CANCELED w) = Normal tt
     /\ memoryStore once !! STORAGE_KEYS.PRODUCTS = Some (ProductsJSON ps')
     /\ memoryStore once !! STORAGE_KEYS.ORDERS
        = Some (OrdersJSON (alter (fun o => with_status o CANCELED) index os))
     /\ length ps' = length ps
     /\ (forall i p,
           ps !! i = Some p ->
           ps' !! i = Some (with_stock p (if decide (first_index (id p) ps = Some i)
                                          then stock p + returned (id p) (items o)
                                          else stock p)))
     /\ (coherent (localStorage w) ->
         catalog once = Some ps'
         /\ order_book once = Some (alter (fun o => with_status o CANCELED) index os)
         /\ catalog twice = Some ps'))
  /\ (status o = CANCELED ->
      memoryStore once !! STORAGE_KEYS.PRODUCTS = memoryStore w !! STORAGE_KEYS.PRODUCTS
      /\ entries (localStorage once) !! STORAGE_KEYS.PRODUCTS
         = entries (localStorage w) !! STORAGE_KEYS.PRODUCTS
      /\ catalog once = catalog w).
Proof.
  intros Hdb Hos Hfind Hps once twice ps'. split.
  - intros Hst. subst twice once.
    rewrite (updateOrderStatus_local_cancel _ _ _ _ _ _ Hdb Hos Hfind Hst Hps); simpl.
    split; [done|]. split; [|split; [|split; [|split]]].
    + rewrite memoryStore_put_ne by done. apply memoryStore_put.
    + apply memoryStore_put.
    + apply restore_fold_length.
    + intros i p. apply restore_fold_lookup.
    + intros Hc.
      assert (catalog (put STORAGE_KEYS.ORDERS
                (OrdersJSON (alter (fun o => with_status o CANCELED) index os))
                (put STORAGE_KEYS.PRODUCTS (ProductsJSON ps') w)) = Some ps') as Hcat.
      { rewrite catalog_put_ne by done. by apply catalog_put. }
      assert (order_book (put STORAGE_KEYS.ORDERS
                (OrdersJSON (alter (fun o => with_status o CANCELED) index os))
                (put STORAGE_KEYS.PRODUCTS (ProductsJSON ps') w))
              = Some (alter (fun o => with_status o CANCELED) index os)) as Hbook.
      { apply order_book_put. by apply coherent_put. }
      split; [exact Hcat|]. split; [exact Hbook|].
      rewrite (updateOrderStatus_local_plain _ orderId CANCELED
                 (alter (fun o => with_status o CANCELED) index os) index
                 (with_status o CANCELED));
        [|by rewrite !db_put|exact Hbook|by apply find_order_alter|by right].
      simpl. rewrite catalog_put_ne by done. exact Hcat.
  - intros Hst. subst once.
    rewrite (updateOrderStatus_local_plain _ orderId CANCELED os index o)
      by (done || by right).
    simpl. split; [by apply memoryStore_put_ne|].
    split; [by apply entries_put_ne|by apply catalog_put_ne].
Qed.

(** The fifty beers of table 7 are cancelled, twice: the stock goes from 0 to
    50 and stays there. *)
Lemma cancel_restores_stock_once_witness :
  let once := snd (StorageService.updateOrderStatus "1700000000000" CANCELED
                     world_with_order) in
  let twice := snd (StorageService.updateOrderStatus "1700000000000" CANCELED once) in
  catalog world_with_order = Some (with_stock beer 0 :: tail INITIAL_PRODUCTS)
  /\ catalog once = Some (with_stock beer 50 :: tail INITIAL_PRODUCTS)
  /\ catalog twice = Some (with_stock beer 50 :: tail INITIAL_PRODUCTS).
Proof.
  intros once twice.
  pose (o := with_order_id (StorageService.orderData 1700000000000 7 thirsty_cart None)
                           "1700000000000").
  destruct (cancel_restores_stock_once world_with_order "1700000000000" [o] 0 o
              (with_stock beer 0 :: tail INITIAL_PRODUCTS)) as [Hcancel _].
  - reflexivity.
  - vm_compute. reflexivity.
  - vm_compute. reflexivity.
  - vm_compute. reflexivity.
  - destruct Hcancel as (_ & _ & _ & _ & _ & Hc); [discriminate|].
    destruct Hc as (Honce & _ & Htwice); [intros key value Hrefused; exact Hrefused|].
    split; [vm_compute; reflexivity|]. split.
    + subst once. rewrite Honce. reflexivity.
    + subst twice once. rewrite Htwice. reflexivity.
Defined.

(** ** [subscribeProducts] in fallback mode *)

Section SubscribeProducts.

Implicit Types (w : World).

Lemma subscribeProducts_fetch_seed w :
  or_null (read STORAGE_KEYS.PRODUCTS w) = None ->
  StorageService.subscribeProducts_fetch w
  = (Normal INITIAL_PRODUCTS,
     put STORAGE_KEYS.PRODUCTS (ProductsJSON INITIAL_PRODUCTS) w).
Proof.
  intros Hnone. unfold StorageService.subscribeProducts_fetch.
  rewrite bind_getItem, Hnone, bind_setItem. done.
Qed.

Lemma subscribeProducts_fetch_stored w ps :
  read STORAGE_KEYS.PRODUCTS w = Some (ProductsJSON ps) ->
  StorageService.subscribeProducts_fetch w = (Normal ps, w).
Proof.
  intros Hsome. unfold StorageService.subscribeProducts_fetch.
  rewrite bind_getItem, Hsome. done.
Qed.

(** After the seeding a read finds the seed, whatever the medium does. *)
Lemma read_after_seed w value :
  truthy value = true -> read STORAGE_KEYS.PRODUCTS w = None ->
  read STORAGE_KEYS.PRODUCTS (put STORAGE_KEYS.PRODUCTS value w) = Some value.
Proof.
  intros Ht Hnone. apply read_put; [done|]. rewrite read_eq in Hnone.
  destruct (refuses (localStorage w) (CallGetItem STORAGE_KEYS.PRODUCTS));
    [by right; left|].
  right; right. by destruct (entries (localStorage w) !! STORAGE_KEYS.PRODUCTS).
Qed.

End SubscribeProducts.

(** C9.  In fallback mode, when [safeStorage.getItem] finds no products entry
    (as it does when neither the in-memory map nor the medium has one),
    [subscribeProducts] writes the seed catalog to the store and delivers it
    at once: the in-memory map holds it, the medium holds it unless it
    refused the write, and a read finds it.  The seed is the catalog of four
    products of the source.  When the store holds a catalog, that catalog is
    delivered and the world is left as it was. *)
Theorem subscribeProducts_seeds_once (w : World) :
  db w = None ->
  let w' := put STORAGE_KEYS.PRODUCTS (ProductsJSON INITIAL_PRODUCTS) w in
  (read STORAGE_KEYS.PRODUCTS w = None ->
     StorageService.subscribeProducts w = (Normal (Some INITIAL_PRODUCTS), w')
     /\ memoryStore w' !! STORAGE_KEYS.PRODUCTS = Some (ProductsJSON INITIAL_PRODUCTS)
     /\ (refuses (localStorage w)
           (CallSetItem STORAGE_KEYS.PRODUCTS (ProductsJSON INITIAL_PRODUCTS)) = false ->
         entries (localStorage w') !! STORAGE_KEYS.PRODUCTS
         = Some (ProductsJSON INITIAL_PRODUCTS))
     /\ catalog w' = Some INITIAL_PRODUCTS)
  /\ (memoryStore w !! STORAGE_KEYS.PRODUCTS = None ->
      entries (localStorage w) !! STORAGE_KEYS.PRODUCTS = None ->
      read STORAGE_KEYS.PRODUCTS w = None)
  /\ (forall ps,
        read STORAGE_KEYS.PRODUCTS w = Some (ProductsJSON ps) ->
        StorageService.subscribeProducts w = (Normal (Some ps), w))
  /\ name <$> INITIAL_PRODUCTS
     = ["Cerveja Gelada 600ml"; "Água de Coco"; "Isca de Peixe"; "Batata Frita"]
  /\ stock <$> INITIAL_PRODUCTS = [48; 20; 10; 15]
  /\ price <$> INITIAL_PRODUCTS = [15; 8; 45; 25]%Q
  /\ category <$> INITIAL_PRODUCTS = [BEBIDAS; BEBIDAS; TIRA_GOSTO; TIRA_GOSTO].
Proof.
  intros Hdb w'. split; [|split; [|split]].
  - intros Hnone. unfold StorageService.subscribeProducts.
    rewrite bind_isCloud_local by done. unfold bind at 1.
    rewrite subscribeProducts_fetch_seed by (by rewrite Hnone).
    split; [done|]. split; [apply memoryStore_put|]. split.
    + intros Haccepted. subst w'. rewrite put_eq; simpl. rewrite Haccepted.
      apply lookup_insert_eq.
    + unfold catalog. subst w'. by rewrite read_after_seed.
  - intros Hmem Hmedium. rewrite read_eq, Hmem, Hmedium. by destruct (refuses _ _).
  - intros ps Hsome. unfold StorageService.subscribeProducts.
    rewrite bind_isCloud_local by done. unfold bind at 1.
    by rewrite (subscribeProducts_fetch_stored _ _ Hsome).
  - done.
Qed.

(** The first subscription of a fresh session, and the next one. *)
Lemma subscribeProducts_seeds_once_witness :
  fst (StorageService.subscribeProducts fresh_world) = Normal (Some INITIAL_PRODUCTS)
  /\ StorageService.subscribeProducts
       (snd (StorageService.subscribeProducts fresh_world))
     = (Normal (Some INITIAL_PRODUCTS), snd (StorageService.subscribeProducts fresh_world)).
Proof.
  destruct (subscribeProducts_seeds_once fresh_world eq_refl) as (Hseed & _ & _).
  destruct Hseed as (Heq & _ & _ & _); [reflexivity|].
  split; [by rewrite Heq|].
  rewrite Heq. simpl.
  apply (subscribeProducts_seeds_once
           (put STORAGE_KEYS.PRODUCTS (ProductsJSON INITIAL_PRODUCTS) fresh_world)).
  - reflexivity.
  - vm_compute. reflexivity.
Defined.

(** ** [saveProduct]: the restock *)

Lemma restock_cloud_fields (incoming currentData d : Product) :
  let merged := StorageService.restock_cloud incoming currentData d in
  stock merged = stock currentData + stock incoming
  /\ price merged = price incoming
  /\ description merged = description incoming
  /\ imageUrl merged = str_or (imageUrl incoming) (imageUrl currentData)
  /\ id merged = id d /\ name merged = name d /\ category merged = category d.
Proof. done. Qed.

Lemma restock_local_fields (incoming existing : Product) :
  let merged := StorageService.restock_local incoming existing in
  stock merged = stock existing + stock incoming
  /\ price merged = price incoming
  /\ description merged = description existing
  /\ imageUrl merged = str_or (imageUrl incoming) (imageUrl existing)
  /\ id merged = id existing /\ name merged = name existing
  /\ category merged = category existing.
Proof. done. Qed.

(** In fallback mode a product saved without identifier under the name of a
    stored product is merged into the first such product, and the catalog
    keeps its length. *)
Lemma saveProduct_local_restock (w : World) (incoming existing : Product)
    (ps : list Product) (j : nat) :
  db w = None -> catalog w = Some ps -> id incoming = "" ->
  (forall q, q ∈ ps -> id q <> "") ->
  list_find (fun q => name q = name incoming) ps = Some (j, existing) ->
  let ps' := alter (StorageService.restock_local incoming) j ps in
  StorageService.saveProduct incoming w
  = (Normal tt, put STORAGE_KEYS.PRODUCTS (ProductsJSON ps') w)
  /\ length ps' = length ps
  /\ ps' !! j = Some (StorageService.restock_local incoming existing).
Proof.
  intros Hdb Hps Hid Hids Hfind ps'.
  rewrite (saveProduct_local _ _ _ Hdb Hps). split; [|split].
  - assert (list_find (fun q => id q = id incoming) ps = None) as ->.
    { apply list_find_None, Forall_forall. intros q Hq. rewrite Hid. by apply Hids. }
    assert (list_find (fun q => name q = name incoming /\ id q <> id incoming) ps
            = Some (j, existing)) as ->.
    { apply list_find_Some in Hfind as (Hj & Hname & Hbefore).
      apply list_find_Some. split; [done|]. split.
      - split; [done|]. rewrite Hid. apply Hids. by eapply list_elem_of_lookup_2.
      - intros k y Hk Hlt [Hy _]. by eapply Hbefore. }
    done.
  - apply length_alter.
  - apply list_find_Some in Hfind as (Hj & _). subst ps'.
    by rewrite list_lookup_alter_eq, Hj.
Qed.

(** C1, on the code.  The beer of the seed catalog is delivered again.  In
    cloud mode the stored product gets the sum of the stocks, the new price
    and the new description, and keeps its image; in fallback mode it gets
    the sum of the stocks and the new price and keeps its image, but its
    description stays the old one.  In both modes no second record is
    made. *)
Theorem saveProduct_restock_description :
  catalog (snd (StorageService.saveProduct beer_delivery seeded_world))
  = Some (mkProduct "1" "Cerveja Gelada 600ml" "Estupidamente gelada" 16 BEBIDAS 58
                    "https://picsum.photos/200/200?random=1"
          :: tail INITIAL_PRODUCTS)
  /\ products_col (cloud (snd (StorageService.saveProduct beer_delivery cloud_world)))
     = {[ "1" := mkProduct "1" "Cerveja Gelada 600ml" "Long neck" 16 BEBIDAS 58
                           "https://picsum.photos/200/200?random=1" ]}.
Proof. split; vm_compute; reflexivity. Qed.

(** ** [init] *)

Section Init.

Implicit Types (w : World) (fc : DatabaseConfig) (config : option DatabaseConfig).

Lemma init_reuse_eq w :
  StorageService.init_reuse w =
  if reuses_app w then (Normal true, set_db (Some FirestoreHandle) w)
  else (Normal false, w).
Proof.
  unfold StorageService.init_reuse, reuses_app, firebase.getApps_length, firebase.getApp.
  js_unfold; simpl.
  destruct (0 <? apps (sdk w))%nat; simpl; [|done].
  by destruct (getApp_throws (sdk w)).
Qed.

Lemma init_resolve_eq fc config w :
  StorageService.init_resolve fc config w = (Normal (resolved fc config w), w).
Proof.
  unfold StorageService.init_resolve, resolved, stored_config. fold (usable fc).
  destruct (usable fc); [done|]. destruct config as [c|]; [done|].
  rewrite bind_getItem.
  destruct (or_null (read STORAGE_KEYS.DB_CONFIG w)) as [[]|]; done.
Qed.

Lemma init_connect_eq config w :
  StorageService.init_connect config w =
  match config with
  | Some c =>
      if String.eqb (apiKey c) "" then (Normal false, w)
      else
        match initializeApp_error (sdk w) c with
        | None =>
            (Normal true,
             set_db (Some FirestoreHandle)
               (set_sdk (mkFirebaseSDK (S (apps (sdk w))) false
                                       (initializeApp_error (sdk w)))
                        (attempted c w)))
        | Some code =>
            if String.eqb code "app/duplicate-app" then
              if getApp_throws (sdk w)
              then (Throw (FirebaseError "app/no-app"), attempted c w)
              else (Normal true, set_db (Some FirestoreHandle) (attempted c w))
            else (Normal false, attempted c w)
        end
  | None => (Normal false, w)
  end.
Proof.
  unfold StorageService.init_connect, attempted.
  destruct config as [c|]; [|done].
  destruct (String.eqb (apiKey c) ""); simpl; [done|].
  unfold firebase.initializeApp, firebase.getApp. js_unfold; simpl.
  destruct (initializeApp_error (sdk w) c) as [code|]; simpl; [|done].
  destruct (String.eqb code "app/duplicate-app") eqn:Hcode.
  - apply String.eqb_eq in Hcode as ->. simpl.
    by destruct (getApp_throws (sdk w)).
  - assert (code <> "app/duplicate-app") as Hne by (by apply String.eqb_neq).
    clear Hcode.
    repeat (let a := fresh "a" in
            destruct code as [|a code]; [done|];
            destruct a as [[] [] [] [] [] [] [] []]; try done).
Qed.

Lemma init_eq fc config w :
  StorageService.init fc config w =
  if reuses_app w then (Normal true, set_db (Some FirestoreHandle) w)
  else StorageService.init_connect (resolved fc config w) w.
Proof.
  unfold StorageService.init. unfold bind at 1. rewrite init_reuse_eq.
  destruct (reuses_app w); [done|].
  unfold bind at 1. by rewrite init_resolve_eq.
Qed.

End Init.




(** ** [finalizeTable] in fallback mode *)

Section FinalizeFallback.

Implicit Types (w : World) (table : Z).

Lemma finalizeTable_local w table :
  db w = None ->
  StorageService.finalizeTable table w =
  match table_map w with
  | None => (Throw SyntaxError, w)
  | Some ts =>
      let w1 := put STORAGE_KEYS.TABLES (TablesJSON (delete (toString table) ts)) w in
      match order_book w with
      | None => (Throw SyntaxError, w1)
      | Some os =>
          (Normal tt,
           put STORAGE_KEYS.ORDERS
             (OrdersJSON (map (StorageService.archive table) os)) w1)
      end
  end.
Proof.
  intros Hdb. unfold StorageService.finalizeTable.
  rewrite bind_isCloud_local by done. rewrite bind_getItem.
  destruct (table_map w) as [ts|] eqn:Hts.
  - rewrite (parse_table_map _ _ Hts). unfold bind at 1; simpl.
    rewrite bind_setItem, bind_getItem, read_put_ne by done.
    destruct (order_book w) as [os|] eqn:Hos.
    + rewrite (parse_order_book _ _ Hos). unfold bind at 1; simpl.
      by rewrite setItem_eq.
    + by rewrite (parse_order_book_None _ Hos).
  - by rewrite (parse_table_map_None _ Hts).
Qed.

(** A read after a write finds the value written or, when the medium
    refused the write and still answers with what it held, what was read
    before. *)
Lemma read_put_cases key value w :
  truthy value = true ->
  read key (put key value w) = Some value
  \/ read key (put key value w) = read key w.
Proof.
  intros Ht. rewrite !read_eq, refuses_put, memoryStore_put. simpl. rewrite Ht.
  destruct (refuses (localStorage w) (CallGetItem key)); [by left|].
  rewrite put_eq; simpl.
  destruct (refuses (localStorage w) (CallSetItem key value)).
  - destruct (entries (localStorage w) !! key); [by right|by left].
  - rewrite lookup_insert_eq. by left.
Qed.

Lemma table_map_put_cases w ts :
  table_map (put STORAGE_KEYS.TABLES (TablesJSON ts) w) = Some ts
  \/ table_map (put STORAGE_KEYS.TABLES (TablesJSON ts) w) = table_map w.
Proof.
  unfold table_map.
  destruct (read_put_cases STORAGE_KEYS.TABLES (TablesJSON ts) w eq_refl) as [-> | ->];
    [by left|by right].
Qed.

Lemma order_book_put_cases w os :
  order_book (put STORAGE_KEYS.ORDERS (OrdersJSON os) w) = Some os
  \/ order_book (put STORAGE_KEYS.ORDERS (OrdersJSON os) w) = order_book w.
Proof.
  unfold order_book.
  destruct (read_put_cases STORAGE_KEYS.ORDERS (OrdersJSON os) w eq_refl) as [-> | ->];
    [by left|by right].
Qed.

Lemma archive_idemp table (o : Order) :
  StorageService.archive table (StorageService.archive table o)
  = StorageService.archive table o.
Proof.
  unfold StorageService.archive.
  destruct (loose_eq (tableId o) table) eqn:Hid; simpl; [|by rewrite Hid].
  case_bool_decide as Hst; simpl.
  - rewrite Hid. by rewrite (bool_decide_eq_true_2 _ Hst).
  - by rewrite Hid.
Qed.

Lemma map_archive_idemp table (os : list Order) :
  map (StorageService.archive table) (map (StorageService.archive table) os)
  = map (StorageService.archive table) os.
Proof.
  induction os as [|o os IH]; simpl; [done|]. by rewrite archive_idemp, IH.
Qed.

(** The tables entry and the order book a second call finds. *)
Lemma table_map_after w table ts value :
  table_map w = Some ts ->
  let w2 := put STORAGE_KEYS.ORDERS value
              (put STORAGE_KEYS.TABLES (TablesJSON (delete (toString table) ts)) w) in
  exists ts2, table_map w2 = Some ts2
              /\ delete (toString table) ts2 = delete (toString table) ts.
Proof.
  intros Hts w2. subst w2. rewrite table_map_put_ne by done.
  destruct (table_map_put_cases w (delete (toString table) ts)) as [-> | ->].
  - eexists. split; [done|]. apply delete_delete_eq.
  - eexists. split; [exact Hts|done].
Qed.

Lemma order_book_after w table os value :
  order_book w = Some os ->
  let w2 := put STORAGE_KEYS.ORDERS (OrdersJSON (map (StorageService.archive table) os))
              (put STORAGE_KEYS.TABLES value w) in
  exists os2, order_book w2 = Some os2
              /\ map (StorageService.archive table) os2
                 = map (StorageService.archive table) os.
Proof.
  intros Hos w2. subst w2.
  destruct (order_book_put_cases (put STORAGE_KEYS.TABLES value w)
              (map (StorageService.archive table) os)) as [-> | ->].
  - eexists. split; [done|]. apply map_archive_idemp.
  - rewrite order_book_put_ne by done. eexists. split; [exact Hos|done].
Qed.

Lemma finalizeTable_local_idemp w table :
  db w = None ->
  StorageService.finalizeTable table (snd (StorageService.finalizeTable table w))
  = StorageService.finalizeTable table w.
Proof.
  intros Hdb. rewrite (finalizeTable_local w table Hdb).
  destruct (table_map w) as [ts|] eqn:Hts; simpl;
    [|by rewrite (finalizeTable_local w table Hdb), Hts].
  destruct (order_book w) as [os|] eqn:Hos; simpl.
  - rewrite finalizeTable_local by (by rewrite !db_put).
    destruct (table_map_after w table ts
                (OrdersJSON (map (StorageService.archive table) os)) Hts)
      as (ts2 & -> & ->).
    destruct (order_book_after w table os
                (TablesJSON (delete (toString table) ts)) Hos)
      as (os2 & -> & ->).
    simpl. rewrite (put_put_put STORAGE_KEYS.TABLES STORAGE_KEYS.ORDERS) by done.
    by rewrite put_put.
  - rewrite finalizeTable_local by (by rewrite !db_put).
    destruct (table_map_put_cases w (delete (toString table) ts)) as [-> | ->].
    + simpl. rewrite delete_delete_eq, put_put, order_book_put_ne, Hos; done.
    + rewrite Hts. simpl. rewrite put_put, order_book_put_ne, Hos; done.
Qed.

End FinalizeFallback.

(** ** [finalizeTable] in cloud mode *)

Section FinalizeCloud.

Implicit Types (w : World) (table : Z) (docs : list (string * Order))
               (seen : gset string) (orders : gmap string Order).

Lemma mark_lookup refs orders ref :
  mark refs orders !! ref
  = (fun o => if decide (ref ∈ refs) then paid o else o) <$> orders !! ref.
Proof. unfold mark. rewrite map_lookup_imap. by destruct (orders !! ref). Qed.

Lemma mark_empty orders : mark ∅ orders = orders.
Proof.
  apply map_eq; intros ref. rewrite mark_lookup.
  destruct (orders !! ref); simpl; [|done]. by rewrite decide_False by set_solver.
Qed.

Lemma mark_insert refs orders ref o :
  orders !! ref = Some o ->
  mark refs (<[ref := paid o]> orders) = mark ({[ref]} ∪ refs) orders.
Proof.
  intros Ho. apply map_eq; intros i. rewrite !mark_lookup.
  destruct (decide (i = ref)) as [->|Hne].
  - rewrite lookup_insert_eq, Ho; simpl.
    rewrite (decide_True (P := ref ∈ {[ref]} ∪ refs))
      by (apply elem_of_union_l, elem_of_singleton; done).
    by destruct (decide (ref ∈ refs)).
  - rewrite lookup_insert_ne by done.
    destruct (orders !! i); simpl; [|done].
    destruct (decide (i ∈ refs)) as [Hi|Hi].
    + by rewrite decide_True by (by apply elem_of_union_r).
    + rewrite decide_False; [done|].
      intros [Hs%elem_of_singleton|?]%elem_of_union; done.
Qed.

Lemma set_orders_col_id w :
  set_cloud (set_orders_col (orders_col (cloud w)) (cloud w)) w = w.
Proof. by destruct w as [? ? ? ? [] ? ? ?]. Qed.

Lemma updateDoc_order_eq ref (f : Order -> Order) w o :
  outage (cloud w) = None -> orders_col (cloud w) !! ref = Some o ->
  firestore.updateDoc_order ref f w
  = (Normal tt,
     set_cloud (set_orders_col (<[ref := f o]> (orders_col (cloud w))) (cloud w)) w).
Proof. intros Hout Ho. fs_unfold. by rewrite Hout, Ho. Qed.

(** The updates [processDoc] issues all settle, and mark their documents. *)
Lemma Promise_all_processDocs docs seen w :
  outage (cloud w) = None ->
  (forall ref d, (ref, d) ∈ docs -> is_Some (orders_col (cloud w) !! ref)) ->
  Promise_all (StorageService.processDocs docs seen) w
  = (Normal tt,
     set_cloud (set_orders_col (mark (updated docs seen) (orders_col (cloud w)))
                               (cloud w)) w).
Proof.
  revert seen w. induction docs as [|[ref d] rest IH]; intros seen w Hout Hin; simpl.
  - by rewrite mark_empty, set_orders_col_id.
  - destruct (decide (ref ∈ seen)).
    { apply IH; [done|]. intros r x Hr. apply (Hin r x). by right. }
    fold (active d). destruct (active d); simpl.
    + destruct (Hin ref d) as [o Ho]; [by left|].
      rewrite (updateDoc_order_eq _ _ _ _ Hout Ho). fold (paid o).
      rewrite IH; [|done|].
      * simpl. rewrite (mark_insert _ _ _ _ Ho).
        by destruct w as [? ? ? ? [] ? ? ?].
      * intros r x Hr. simpl.
        destruct (decide (r = ref)) as [->|]; [by rewrite lookup_insert_eq|].
        rewrite lookup_insert_ne by done. apply (Hin r x). by right.
    + rewrite IH; [|done|intros r x Hr; apply (Hin r x); by right].
      by rewrite (left_id_L ∅ (∪)).
Qed.

Lemma updated_sound docs seen ref :
  ref ∈ updated docs seen -> exists d, (ref, d) ∈ docs /\ active d = true.
Proof.
  revert seen. induction docs as [|[r d] rest IH]; intros seen; simpl; [set_solver|].
  destruct (decide (r ∈ seen)).
  - intros (x & ? & ?)%IH. exists x. split; [by right|done].
  - intros [Hhd|Htl]%elem_of_union.
    + destruct (active d) eqn:Hd; [|set_solver].
      apply elem_of_singleton in Hhd as ->. exists d. split; [by left|done].
    + apply IH in Htl as (x & ? & ?). exists x. split; [by right|done].
Qed.

Lemma updated_complete docs seen ref d :
  (forall r x y, (r, x) ∈ docs -> (r, y) ∈ docs -> x = y) ->
  (ref, d) ∈ docs -> active d = true -> ref ∉ seen -> ref ∈ updated docs seen.
Proof.
  revert seen. induction docs as [|[r x] rest IH]; intros seen Hfun Hin Hd Hseen; simpl.
  - by apply elem_of_nil in Hin.
  - assert (forall r' x' y', (r', x') ∈ rest -> (r', y') ∈ rest -> x' = y') as Hfun'.
    { intros r' x' y' ? ?. apply (Hfun r'); by right. }
    destruct (decide (r ∈ seen)) as [Hr|Hr].
    + apply elem_of_cons in Hin as [[= -> ->]|Hin]; [done|]. by apply IH.
    + destruct (decide (ref = r)) as [->|Hne].
      * assert (x = d) as -> by (apply (Hfun r); [by left|done]).
        rewrite Hd. set_solver.
      * apply elem_of_cons in Hin as [[= -> ->]|Hin]; [done|].
        apply elem_of_union_r. apply IH; [done..|set_solver].
Qed.

Lemma elem_of_snapshots table orders ref d :
  (ref, d) ∈ snapshots table orders <->
  orders !! ref = Some d
  /\ (tableId d = TableNum table \/ tableId d = TableStr (toString table)).
Proof.
  unfold snapshots.
  rewrite elem_of_app, !elem_of_map_to_list, !map_lookup_filter_Some. simpl.
  naive_solver.
Qed.

Lemma mark_snapshots table orders :
  mark (updated (snapshots table orders) ∅) orders = archive_cloud table <$> orders.
Proof.
  apply map_eq; intros ref. rewrite mark_lookup, lookup_fmap.
  destruct (orders !! ref) as [o|] eqn:Ho; simpl; [|done]. f_equal.
  unfold archive_cloud.
  destruct (decide (ref ∈ updated (snapshots table orders) ∅)) as [Hin|Hnot].
  - apply updated_sound in Hin as (d & Hd & Hact).
    apply elem_of_snapshots in Hd as [Hd Htab].
    assert (d = o) as -> by congruence. rewrite Hact.
    destruct Htab as [E|E]; rewrite E.
    + by rewrite bool_decide_eq_true_2.
    + rewrite (bool_decide_eq_true_2 (TableStr _ = TableStr _)) by done.
      by rewrite orb_true_r.
  - destruct ((bool_decide (tableId o = TableNum table)
               || bool_decide (tableId o = TableStr (toString table)))
              && active o) eqn:Hcond; [|done].
    destruct Hnot. apply andb_true_iff in Hcond as [Htab Hact].
    apply (updated_complete _ _ ref o); [|apply elem_of_snapshots|done|set_solver].
    + intros r x y [Hx _]%elem_of_snapshots [Hy _]%elem_of_snapshots. congruence.
    + split; [done|]. apply orb_true_iff in Htab as [E|E];
        apply bool_decide_eq_true in E; eauto.
Qed.

(** [finalizeTable] in cloud mode, in one step. *)
Lemma finalizeTable_cloud w table h :
  db w = Some h ->
  StorageService.finalizeTable table w =
  match outage (cloud w) with
  | Some code => (Throw (FirebaseError code), w)
  | None =>
      (Normal tt,
       set_cloud
         (mkFirestore (products_col (cloud w))
                      (archive_cloud table <$> orders_col (cloud w))
                      (delete (toString table) (tables_col (cloud w)))
                      None (autoId (cloud w))) w)
  end.
Proof.
  intros Hdb. unfold StorageService.finalizeTable.
  rewrite (bind_isCloud_cloud _ _ _ Hdb).
  destruct (outage (cloud w)) as [code|] eqn:Hout.
  { unfold bind at 1. unfold firestore.deleteDoc_table. fs_unfold. by rewrite Hout. }
  unfold bind at 1.
  assert (firestore.deleteDoc_table (toString table) w
          = (Normal tt,
             set_cloud (set_tables_col (delete (toString table) (tables_col (cloud w)))
                                       (cloud w)) w)) as ->.
  { unfold firestore.deleteDoc_table. fs_unfold. by rewrite Hout. }
  set (w1 := set_cloud _ w).
  assert (outage (cloud w1) = None) as Hout1 by done.
  unfold bind at 1.
  assert (forall t, firestore.getDocs_orders_where_tableId t w1
                    = (Normal (map_to_list
                                 (filter (fun kv => tableId kv.2 = t)
                                         (orders_col (cloud w)))), w1)) as Hsnap.
  { intros t. unfold firestore.getDocs_orders_where_tableId. fs_unfold.
    by rewrite Hout1. }
  unfold Promise_all_2. unfold bind at 1. rewrite Hsnap.
  unfold bind at 1. rewrite Hsnap. unfold ret. simpl.
  fold (snapshots table (orders_col (cloud w))).
  rewrite Promise_all_processDocs; [|done|].
  - simpl. rewrite mark_snapshots. f_equal. subst w1.
    destruct w as [? ? ? ? [] ? ? ?]. simpl in *. by rewrite Hout.
  - intros ref d [Hd _]%elem_of_snapshots. simpl. eauto.
Qed.

Lemma set_cloud_set_cloud (a b : Firestore) w :
  set_cloud a (set_cloud b w) = set_cloud a w.
Proof. done. Qed.

Lemma archive_cloud_idemp table (o : Order) :
  archive_cloud table (archive_cloud table o) = archive_cloud table o.
Proof.
  unfold archive_cloud.
  destruct ((bool_decide (tableId o = TableNum table)
             || bool_decide (tableId o = TableStr (toString table)))
            && active o) eqn:Hcond; [|by rewrite Hcond].
  simpl. unfold active. simpl. by rewrite andb_false_r.
Qed.

Lemma finalizeTable_cloud_idemp w table h :
  db w = Some h ->
  StorageService.finalizeTable table (snd (StorageService.finalizeTable table w))
  = StorageService.finalizeTable table w.
Proof.
  intros Hdb. rewrite (finalizeTable_cloud w table h Hdb).
  destruct (outage (cloud w)) as [code|] eqn:Hout; simpl.
  - by rewrite (finalizeTable_cloud w table h Hdb), Hout.
  - rewrite (finalizeTable_cloud _ table h) by done. simpl.
    rewrite set_cloud_set_cloud. do 2 f_equal. f_equal.
    + rewrite <- map_fmap_compose. apply map_fmap_ext.
      intros ref o _. apply archive_cloud_idemp.
    + apply delete_delete_eq.
Qed.

End FinalizeCloud.

(** C5.  [finalizeTable] is idempotent in both modes and from every world: a
    second call right after the first completes as the first did and leaves
    the world the first left, so the table map and the order statuses are
    the same after two calls as after one.  The first call, and so the second,
    returns normally whenever the tables entry and the order book of the
    fallback store can be parsed (fallback mode) and whenever the backend has
    no outage (cloud mode); what it leaves is the tables without the table and
    the orders of the table archived. *)
Theorem finalizeTable_idempotent (w : World) (table : Z) :
  let once := StorageService.finalizeTable table w in
  let twice := StorageService.finalizeTable table (snd once) in
  twice = once
  /\ table_map (snd twice) = table_map (snd once)
  /\ order_book (snd twice) = order_book (snd once)
  /\ tables_col (cloud (snd twice)) = tables_col (cloud (snd once))
  /\ orders_col (cloud (snd twice)) = orders_col (cloud (snd once))
  /\ (forall ts os,
        db w = None -> table_map w = Some ts -> order_book w = Some os ->
        fst twice = Normal tt
        /\ once = (Normal tt,
                   put STORAGE_KEYS.ORDERS
                     (OrdersJSON (map (StorageService.archive table) os))
                     (put STORAGE_KEYS.TABLES
                        (TablesJSON (delete (toString table) ts)) w)))
  /\ (forall h,
        db w = Some h -> outage (cloud w) = None ->
        fst twice = Normal tt
        /\ tables_col (cloud (snd once)) = delete (toString table) (tables_col (cloud w))
        /\ orders_col (cloud (snd once)) = archive_cloud table <$> orders_col (cloud w)).
Proof.
  intros once twice.
  assert (twice = once) as Hidem.
  { subst twice once. destruct (db w) as [h|] eqn:Hdb.
    - by apply (finalizeTable_cloud_idemp w table h).
    - by apply finalizeTable_local_idemp. }
  split; [exact Hidem|]. rewrite Hidem.
  split; [done|]. split; [done|]. split; [done|]. split; [done|]. split.
  - intros ts os Hdb Hts Hos. subst once.
    rewrite (finalizeTable_local w table Hdb), Hts, Hos. done.
  - intros h Hdb Hout. subst once.
    rewrite (finalizeTable_cloud w table h Hdb), Hout. done.
Qed.

(** Table 7 pays twice: the order for the fifty beers is PAID after the first
    call and the second call changes nothing. *)
Lemma finalizeTable_idempotent_witness :
  let once := StorageService.finalizeTable 7 world_with_order in
  fst once = Normal tt
  /\ status <$> default [] (order_book (snd once)) = [PAID]
  /\ StorageService.finalizeTable 7 (snd once) = once.
Proof.
  intros once.
  destruct (finalizeTable_idempotent world_with_order 7) as (Hidem & _).
  split; [reflexivity|]. split; [vm_compute; reflexivity|]. exact Hidem.
Defined.


(** * Further properties of the service *)

(** ** The fallback key-value store: removal and independence of keys *)

Section SafeStorageRemoval.

Implicit Types (key : string) (value : payload) (w : World).

Lemma removeItem_drop key w : safeStorage.removeItem key w = (Normal tt, drop key w).
Proof. unfold drop. by rewrite removeItem_eq. Qed.

Lemma drop_eq key w :
  drop key w =
  mkWorld (db w) (delete key (memoryStore w))
    (mkLocalStorage
       (if refuses (localStorage w) (CallRemoveItem key)
        then entries (localStorage w)
        else delete key (entries (localStorage w)))
       (refuses (localStorage w)))
    (sdk w) (cloud w) (clock w) (attempts w) (alerts w).
Proof. unfold drop. by rewrite removeItem_eq. Qed.

Lemma bind_removeItem {B : Type} key (k : unit -> JS B) w :
  bind (safeStorage.removeItem key) k w = k tt (drop key w).
Proof. unfold bind at 1. by rewrite removeItem_drop. Qed.

Lemma read_drop_ne key key' w : key <> key' -> read key' (drop key w) = read key' w.
Proof.
  intros Hne. rewrite !read_eq, drop_eq; simpl.
  rewrite lookup_delete_ne by done.
  destruct (refuses (localStorage w) (CallRemoveItem key)); [done|].
  by rewrite lookup_delete_ne.
Qed.

Lemma read_drop key w :
  refuses (localStorage w) (CallRemoveItem key) = false
  \/ refuses (localStorage w) (CallGetItem key) = true
  \/ entries (localStorage w) !! key = None ->
  read key (drop key w) = None.
Proof.
  intros Hm. rewrite read_eq, drop_eq; simpl. rewrite lookup_delete_eq. simpl.
  destruct (refuses (localStorage w) (CallGetItem key)); [done|].
  destruct (refuses (localStorage w) (CallRemoveItem key)).
  - destruct Hm as [?|[?|Hm]]; try done. by rewrite Hm.
  - by rewrite lookup_delete_eq.
Qed.

Lemma read_drop_stale key w held :
  refuses (localStorage w) (CallRemoveItem key) = true ->
  refuses (localStorage w) (CallGetItem key) = false ->
  entries (localStorage w) !! key = Some held ->
  read key (drop key w) = Some held.
Proof.
  intros Hr Hg Hheld. rewrite read_eq, drop_eq; simpl. by rewrite Hg, Hr, Hheld.
Qed.

End SafeStorageRemoval.

(** X1.  A write or a removal under one key never changes what [getItem]
    returns for another key, whatever the medium refuses. *)
Theorem safeStorage_keys_independent
    (w : World) (key key' : string) (value : payload) :
  key <> key' ->
  fst (safeStorage.getItem key' (snd (safeStorage.setItem key value w)))
  = fst (safeStorage.getItem key' w)
  /\ fst (safeStorage.getItem key' (snd (safeStorage.removeItem key w)))
     = fst (safeStorage.getItem key' w).
Proof.
  intros Hne. rewrite !getItem_eq. simpl. split; f_equal.
  - fold (put key value w). by apply read_put_ne.
  - fold (drop key w). by apply read_drop_ne.
Qed.

(** The catalog of the seeded session is still read after the order book is
    overwritten or removed. *)
Lemma safeStorage_keys_independent_witness :
  fst (safeStorage.getItem STORAGE_KEYS.PRODUCTS
         (snd (safeStorage.removeItem STORAGE_KEYS.ORDERS seeded_world)))
  = Normal (Some (ProductsJSON INITIAL_PRODUCTS)).
Proof.
  destruct (safeStorage_keys_independent seeded_world STORAGE_KEYS.ORDERS
              STORAGE_KEYS.PRODUCTS (Raw "x")) as [_ Hremove].
  - discriminate.
  - rewrite Hremove. reflexivity.
Defined.

(** X2.  [removeItem(key)] always takes the key out of the in-memory map.
    [getItem(key)] then returns [null] when the medium took the removal,
    throws on the read, or held nothing for the key; when the medium refuses
    the removal and still answers the read, [getItem] keeps returning the
    entry the medium holds. *)
Theorem removeItem_then_getItem (w : World) (key : string) :
  let w' := snd (safeStorage.removeItem key w) in
  memoryStore w' !! key = None
  /\ (refuses (localStorage w) (CallRemoveItem key) = false
      \/ refuses (localStorage w) (CallGetItem key) = true
      \/ entries (localStorage w) !! key = None ->
      safeStorage.getItem key w' = (Normal None, w'))
  /\ (forall held,
        refuses (localStorage w) (CallRemoveItem key) = true ->
        refuses (localStorage w) (CallGetItem key) = false ->
        entries (localStorage w) !! key = Some held ->
        safeStorage.getItem key w' = (Normal (Some held), w')).
Proof.
  intros w'. subst w'. fold (drop key w). split; [|split].
  - rewrite drop_eq; simpl. apply lookup_delete_eq.
  - intros Hm. by rewrite getItem_eq, read_drop.
  - intros held Hr Hg Hheld. by rewrite getItem_eq, (read_drop_stale _ _ held).
Qed.

(** A medium that answers reads and refuses everything else keeps serving the
    catalog after its removal. *)
Lemma removeItem_then_getItem_witness :
  let stuck :=
    mkLocalStorage {[ STORAGE_KEYS.PRODUCTS := ProductsJSON INITIAL_PRODUCTS ]}
      (fun c => match c with CallGetItem _ => false | _ => true end) in
  let w := set_localStorage stuck fresh_world in
  fst (safeStorage.getItem STORAGE_KEYS.PRODUCTS
         (snd (safeStorage.removeItem STORAGE_KEYS.PRODUCTS w)))
  = Normal (Some (ProductsJSON INITIAL_PRODUCTS)).
Proof.
  intros stuck w.
  destruct (removeItem_then_getItem w STORAGE_KEYS.PRODUCTS) as (_ & _ & Hstale).
  rewrite (Hstale (ProductsJSON INITIAL_PRODUCTS)); reflexivity.
Defined.

(** ** [init], [saveConfig] and [clearConfig] *)

Section Configuration.

Implicit Types (w : World) (fc : DatabaseConfig) (config : option DatabaseConfig).

(** [init] touches the handle, the SDK and the log of attempts, and nothing
    of the fallback store. *)
Lemma init_store fc config w :
  memoryStore (snd (StorageService.init fc config w)) = memoryStore w
  /\ localStorage (snd (StorageService.init fc config w)) = localStorage w
  /\ cloud (snd (StorageService.init fc config w)) = cloud w.
Proof.
  rewrite init_eq, init_connect_eq.
  destruct (reuses_app w); [done|].
  destruct (resolved fc config w) as [c|]; [|done].
  destruct (String.eqb (apiKey c) ""); [done|].
  destruct (initializeApp_error (sdk w) c) as [code|]; [|done].
  destruct (String.eqb code "app/duplicate-app"); [|done].
  by destruct (getApp_throws (sdk w)).
Qed.

Lemma usable_key fc : usable fc = true -> String.eqb (apiKey fc) "" = false.
Proof.
  unfold usable. intros [Hk _]%andb_true_iff. by apply negb_true_iff in Hk.
Qed.

Lemma clearConfig_eq w :
  StorageService.clearConfig w
  = (Normal StorageService.Reload, set_db None (drop STORAGE_KEYS.DB_CONFIG w)).
Proof.
  unfold StorageService.clearConfig. rewrite bind_removeItem. reflexivity.
Qed.

Lemma saveConfig_world fc (c : DatabaseConfig) w :
  snd (StorageService.saveConfig fc c w)
  = snd (StorageService.init fc (Some c) (put STORAGE_KEYS.DB_CONFIG (ConfigJSON c) w)).
Proof.
  unfold StorageService.saveConfig. rewrite bind_setItem. unfold bind.
  by destruct (StorageService.init fc (Some c) _) as [[] ?].
Qed.

Lemma read_set_db key (v : option Handle) w : read key (set_db v w) = read key w.
Proof. by apply read_frame. Qed.

End Configuration.

(** X3.  [init] returns [true] only with the backend handle set.  An
    exception escapes [init] in one case only: [initializeApp] reports a
    duplicate app and [getApp] then finds none.  When no registered app is
    reused and [initializeApp] accepts the resolved configuration, whose key
    is not empty, [init] returns [true] after that one attempt. *)
Theorem init_outcome (w : World) (fc : DatabaseConfig) (config : option DatabaseConfig) :
  let r := StorageService.init fc config w in
  (fst r = Normal true -> db (snd r) = Some FirestoreHandle)
  /\ (forall e,
        fst r = Throw e ->
        e = FirebaseError "app/no-app" /\ reuses_app w = false
        /\ getApp_throws (sdk w) = true
        /\ exists c, resolved fc config w = Some c
                     /\ initializeApp_error (sdk w) c = Some "app/duplicate-app")
  /\ (forall c,
        reuses_app w = false -> resolved fc config w = Some c -> apiKey c <> "" ->
        initializeApp_error (sdk w) c = None ->
        fst r = Normal true /\ attempts (snd r) = attempts w ++ [c]).
Proof.
  intros r. subst r. rewrite init_eq, init_connect_eq. split; [|split].
  - destruct (reuses_app w); [done|].
    destruct (resolved fc config w) as [c|]; [|done].
    destruct (String.eqb (apiKey c) ""); [done|].
    destruct (initializeApp_error (sdk w) c) as [code|]; [|done].
    destruct (String.eqb code "app/duplicate-app"); [|done].
    by destruct (getApp_throws (sdk w)).
  - intros e. destruct (reuses_app w); [done|].
    destruct (resolved fc config w) as [c|]; [|done].
    destruct (String.eqb (apiKey c) ""); [done|].
    destruct (initializeApp_error (sdk w) c) as [code|] eqn:Herr; [|done].
    destruct (String.eqb code "app/duplicate-app") eqn:Hcode; [|done].
    apply String.eqb_eq in Hcode as ->.
    destruct (getApp_throws (sdk w)); [|done].
    simpl. intros [= <-]. repeat split; try done. by exists c.
  - intros c -> -> Hkey ->. apply String.eqb_neq in Hkey. by rewrite Hkey.
Qed.

(** A fresh session given a configuration that [initializeApp] accepts. *)
Lemma init_outcome_witness :
  let c := mkDatabaseConfig "AIzaSy-key" "" "joilda" "" "" "" in
  let r := StorageService.init placeholder_config (Some c) fresh_world in
  fst r = Normal true /\ db (snd r) = Some FirestoreHandle /\ attempts (snd r) = [c].
Proof.
  intros c r.
  destruct (init_outcome fresh_world placeholder_config (Some c)) as (Hset & _ & Hok).
  destruct (Hok c) as [Htrue Hatt]; try reflexivity; [discriminate|].
  split; [exact Htrue|]. split; [exact (Hset Htrue)|exact Hatt].
Defined.

(** X4.  [saveConfig(config)] always leaves [config] in the in-memory map
    under the configuration key, but the connection it then tries is made
    with the compiled-in configuration whenever that one is usable; the
    saved configuration is tried only when the compiled-in one is not and
    its own key is not empty.  When a registered app is reused nothing is
    tried at all. *)
Theorem saveConfig_precedence (w : World) (fc c : DatabaseConfig) :
  let w' := snd (StorageService.saveConfig fc c w) in
  memoryStore w' !! STORAGE_KEYS.DB_CONFIG = Some (ConfigJSON c)
  /\ (reuses_app w = false -> usable fc = true -> attempts w' = attempts w ++ [fc])
  /\ (reuses_app w = false -> usable fc = false -> apiKey c <> "" ->
      attempts w' = attempts w ++ [c])
  /\ (reuses_app w = true ->
      attempts w' = attempts w /\ db w' = Some FirestoreHandle).
Proof.
  intros w'. subst w'. rewrite saveConfig_world.
  set (v := put STORAGE_KEYS.DB_CONFIG (ConfigJSON c) w).
  assert (reuses_app v = reuses_app w) as Hreuse by (subst v; by rewrite put_eq).
  assert (attempts v = attempts w) as Hatt by (subst v; by rewrite put_eq).
  split.
  { destruct (init_store fc (Some c) v) as (-> & _ & _). apply memoryStore_put. }
  rewrite init_eq, init_connect_eq, Hreuse, <- Hatt. unfold resolved.
  split; [|split].
  - intros -> Hu. rewrite Hu, (usable_key _ Hu).
    destruct (initializeApp_error (sdk v) fc) as [code|]; [|done].
    destruct (String.eqb code "app/duplicate-app"); [|done].
    by destruct (getApp_throws (sdk v)).
  - intros -> -> Hkey. apply String.eqb_neq in Hkey. rewrite Hkey.
    destruct (initializeApp_error (sdk v) c) as [code|]; [|done].
    destruct (String.eqb code "app/duplicate-app"); [|done].
    by destruct (getApp_throws (sdk v)).
  - by intros ->.
Qed.

(** With a usable key compiled in, the configuration the user saves is
    stored and the compiled-in one is tried. *)
Lemma saveConfig_precedence_witness :
  let fc := mkDatabaseConfig "AIzaSy-compiled" "" "" "" "" "" in
  let c := mkDatabaseConfig "AIzaSy-saved" "" "" "" "" "" in
  attempts (snd (StorageService.saveConfig fc c fresh_world)) = [fc].
Proof.
  intros fc c.
  destruct (saveConfig_precedence fresh_world fc c) as (_ & Hcompiled & _).
  apply Hcompiled; reflexivity.
Defined.

(** X5.  [clearConfig] returns by asking for a reload, with the handle unset
    and the configuration gone from the in-memory map; the catalog, the order
    book and the table map are as before.  When the medium took the removal,
    throws on reads of the key, or held no configuration, no stored
    configuration is left, and an [init()] that has no usable compiled-in
    configuration and no app to reuse then fails. *)
Theorem clearConfig_forgets (w : World) (fc : DatabaseConfig) :
  let w' := snd (StorageService.clearConfig w) in
  fst (StorageService.clearConfig w) = Normal StorageService.Reload
  /\ db w' = None
  /\ memoryStore w' !! STORAGE_KEYS.DB_CONFIG = None
  /\ catalog w' = catalog w /\ order_book w' = order_book w /\ table_map w' = table_map w
  /\ (refuses (localStorage w) (CallRemoveItem STORAGE_KEYS.DB_CONFIG) = false
      \/ refuses (localStorage w) (CallGetItem STORAGE_KEYS.DB_CONFIG) = true
      \/ entries (localStorage w) !! STORAGE_KEYS.DB_CONFIG = None ->
      stored_config w' = None
      /\ (usable fc = false -> reuses_app w = false ->
          StorageService.init fc None w' = (Normal false, w'))).
Proof.
  intros w'. subst w'. rewrite clearConfig_eq. simpl.
  split; [done|]. split; [done|]. split; [|split; [|split; [|split]]].
  - rewrite drop_eq; simpl. apply lookup_delete_eq.
  - unfold catalog. by rewrite read_set_db, read_drop_ne.
  - unfold order_book. by rewrite read_set_db, read_drop_ne.
  - unfold table_map. by rewrite read_set_db, read_drop_ne.
  - intros Hm.
    assert (stored_config (set_db None (drop STORAGE_KEYS.DB_CONFIG w)) = None) as Hnone.
    { unfold stored_config. by rewrite read_set_db, read_drop. }
    split; [exact Hnone|]. intros Hu Hr.
    rewrite init_eq, init_connect_eq. unfold resolved. rewrite Hu, Hnone.
    replace (reuses_app (set_db None (drop STORAGE_KEYS.DB_CONFIG w))) with (reuses_app w)
      by (by rewrite drop_eq).
    by rewrite Hr.
Qed.

(** A configuration is saved and cleared again in a fresh session. *)
Lemma clearConfig_forgets_witness :
  let c := mkDatabaseConfig "AIzaSy-saved" "" "" "" "" "" in
  let saved := put STORAGE_KEYS.DB_CONFIG (ConfigJSON c) fresh_world in
  stored_config saved = Some c
  /\ stored_config (snd (StorageService.clearConfig saved)) = None.
Proof.
  intros c saved. split; [reflexivity|].
  destruct (clearConfig_forgets saved placeholder_config) as (_ & _ & _ & _ & _ & _ & Hgone).
  apply Hgone. left. reflexivity.
Defined.

(** ** [saveProduct] in fallback mode: identifiers, new products, updates *)

Section SaveProductFallback.

Implicit Types (w : World) (p : Product) (ps : list Product).

Lemma to_int_not_nil (n : Z) : Z.to_int n <> Decimal.Pos Decimal.Nil
                               /\ Z.to_int n <> Decimal.Neg Decimal.Nil.
Proof.
  destruct n as [|q|q]; simpl; split; try discriminate;
    intros [= H]; by apply (Unsigned.to_uint_nonnil q).
Qed.

(** [toString] writes different numbers differently. *)
Lemma toString_inj (a b : Z) : toString a = toString b -> a = b.
Proof.
  unfold toString. intros H. apply DecimalZ.to_int_inj.
  assert (NilZero.int_of_string (NilZero.string_of_int (Z.to_int a))
          = NilZero.int_of_string (NilZero.string_of_int (Z.to_int b))) as E
    by (by rewrite H).
  destruct (to_int_not_nil a), (to_int_not_nil b).
  rewrite !NilZero.isi in E by done. by injection E.
Qed.

Lemma stored_id_short w p :
  (String.length (id p) < 5)%nat ->
  stored_id w p = String.append "local_" (toString (clock w)).
Proof.
  intros Hlen. unfold stored_id.
  rewrite (proj2 (Nat.ltb_lt _ _) Hlen). by rewrite orb_true_r.
Qed.

Lemma stored_id_long w p :
  (5 <= String.length (id p))%nat -> stored_id w p = id p.
Proof.
  intros Hlen. unfold stored_id.
  rewrite (proj2 (Nat.ltb_ge _ _) Hlen).
  destruct (id p); [simpl in Hlen; lia|done].
Qed.

Lemma stored_id_length w p : (5 <= String.length (stored_id w p))%nat.
Proof.
  destruct (decide (String.length (id p) < 5)%nat) as [Hs|Hl].
  - rewrite stored_id_short by done. simpl. lia.
  - rewrite stored_id_long by lia. lia.
Qed.

(** What [saveProduct] leaves of a world in fallback mode. *)
Lemma saveProduct_local_frame w p :
  db w = None ->
  let w' := snd (StorageService.saveProduct p w) in
  alerts w' = alerts w /\ db w' = None /\ cloud w' = cloud w
  /\ order_book w' = order_book w /\ table_map w' = table_map w.
Proof.
  intros Hdb. destruct (catalog w) as [ps|] eqn:Hps; simpl.
  - rewrite (saveProduct_local _ _ _ Hdb Hps); simpl.
    rewrite order_book_put_ne, table_map_put_ne by done.
    by rewrite put_eq.
  - by rewrite (saveProduct_local_unparsed _ _ Hdb Hps).
Qed.

End SaveProductFallback.

(** X6.  In fallback mode [saveProduct] never calls [alert]: its handler for
    a full browser storage cannot run, because [setItem] has swallowed the
    medium's error already.  The call returns normally whenever the store
    holds a catalog or no products entry; it never leaves fallback mode and
    never touches the order book, the table map or the remote collections. *)
Theorem saveProduct_fallback_quiet (w : World) (p : Product) :
  db w = None ->
  let w' := snd (StorageService.saveProduct p w) in
  alerts w' = alerts w /\ db w' = None /\ cloud w' = cloud w
  /\ order_book w' = order_book w /\ table_map w' = table_map w
  /\ (is_Some (catalog w) -> fst (StorageService.saveProduct p w) = Normal tt).
Proof.
  intros Hdb w'.
  destruct (saveProduct_local_frame w p Hdb) as (Ha & Hd & Hc & Ho & Ht).
  split; [exact Ha|]. split; [exact Hd|]. split; [exact Hc|].
  split; [exact Ho|]. split; [exact Ht|].
  intros [ps Hps]. by rewrite (saveProduct_local _ _ _ Hdb Hps).
Qed.

(** A product whose image does not fit a medium that is full: no alert. *)
Lemma saveProduct_fallback_quiet_witness :
  let w := set_localStorage (full_medium ∅) fresh_world in
  alerts (snd (StorageService.saveProduct beer_delivery w)) = []
  /\ fst (StorageService.saveProduct beer_delivery w) = Normal tt.
Proof.
  intros w.
  destruct (saveProduct_fallback_quiet w beer_delivery eq_refl)
    as (Ha & _ & _ & _ & _ & Hok).
  split; [exact Ha|]. apply Hok. vm_compute. eauto.
Defined.

(** X7.  In fallback mode a product whose identifier and name no stored
    product has is appended to the catalog, all its fields kept but the
    identifier: an identifier of fewer than five characters (the empty one
    included) is replaced by ["local_"] followed by the clock reading, a
    longer one is kept.  The stored identifier has at least five
    characters. *)
Theorem saveProduct_fallback_appends (w : World) (p : Product) (ps : list Product) :
  db w = None -> catalog w = Some ps ->
  (forall q, q ∈ ps -> id q <> id p) ->
  (forall q, q ∈ ps -> name q <> name p) ->
  let w' := snd (StorageService.saveProduct p w) in
  memoryStore w' !! STORAGE_KEYS.PRODUCTS
    = Some (ProductsJSON (ps ++ [with_id p (stored_id w p)]))
  /\ (coherent (localStorage w) -> catalog w' = Some (ps ++ [with_id p (stored_id w p)]))
  /\ (5 <= String.length (stored_id w p))%nat
  /\ ((String.length (id p) < 5)%nat ->
      stored_id w p = String.append "local_" (toString (clock w)))
  /\ ((5 <= String.length (id p))%nat -> stored_id w p = id p).
Proof.
  intros Hdb Hps Hids Hnames w'. subst w'.
  rewrite (saveProduct_local _ _ _ Hdb Hps); simpl.
  assert (list_find (fun q => id q = id p) ps = None) as ->.
  { apply list_find_None, Forall_forall. exact Hids. }
  assert (list_find (fun q => name q = name p /\ id q <> id p) ps = None) as ->.
  { apply list_find_None, Forall_forall. intros q Hq [Hn _]. by apply (Hnames q). }
  simpl. split; [apply memoryStore_put|]. split; [intros; by apply catalog_put|].
  split; [apply stored_id_length|]. split; [apply stored_id_short|apply stored_id_long].
Qed.

(** A fifth product is entered without identifier in the seeded session. *)
Lemma saveProduct_fallback_appends_witness :
  let caipirinha := mkProduct "" "Caipirinha" "Limao" 18 BEBIDAS 30 "" in
  catalog (snd (StorageService.saveProduct caipirinha seeded_world))
  = Some (INITIAL_PRODUCTS ++ [with_id caipirinha "local_1700000000000"]).
Proof.
  intros caipirinha.
  destruct (saveProduct_fallback_appends seeded_world caipirinha INITIAL_PRODUCTS)
    as (_ & Hcat & _ & Hshort & _).
  - reflexivity.
  - vm_compute. reflexivity.
  - intros q Hq. repeat (apply elem_of_cons in Hq as [->|Hq]; [discriminate|]).
    by apply elem_of_nil in Hq.
  - intros q Hq. repeat (apply elem_of_cons in Hq as [->|Hq]; [discriminate|]).
    by apply elem_of_nil in Hq.
  - rewrite Hcat by (intros key value Hrefused; exact Hrefused).
    rewrite Hshort by (simpl; lia). reflexivity.
Defined.

(** X8.  In fallback mode a product saved under the identifier of a stored
    product replaces the first product with that identifier, in place and
    whole; every other product and the length of the catalog are kept.  The
    record is stored under the saved identifier only if that has five
    characters or more: a shorter one, such as those of the seed catalog, is
    replaced by a generated one. *)
Theorem saveProduct_fallback_replaces
    (w : World) (p old : Product) (ps : list Product) (i : nat) :
  db w = None -> catalog w = Some ps ->
  list_find (fun q => id q = id p) ps = Some (i, old) ->
  let w' := snd (StorageService.saveProduct p w) in
  let ps' := <[i := with_id p (stored_id w p)]> ps in
  memoryStore w' !! STORAGE_KEYS.PRODUCTS = Some (ProductsJSON ps')
  /\ (coherent (localStorage w) -> catalog w' = Some ps')
  /\ length ps' = length ps
  /\ ps' !! i = Some (with_id p (stored_id w p))
  /\ (forall j, j <> i -> ps' !! j = ps !! j)
  /\ ((String.length (id p) < 5)%nat -> id p <> stored_id w p).
Proof.
  intros Hdb Hps Hfind w' ps'. subst w'.
  rewrite (saveProduct_local _ _ _ Hdb Hps), Hfind; simpl.
  apply list_find_Some in Hfind as (Hi & _).
  split; [apply memoryStore_put|]. split; [intros; by apply catalog_put|].
  split; [apply length_insert|]. split; [|split].
  - apply list_lookup_insert_eq. by eapply lookup_lt_Some.
  - intros j Hj. by apply list_lookup_insert_ne.
  - intros Hlen E. pose proof (stored_id_length w p) as H5. rewrite <- E in H5. lia.
Qed.

(** The beer of the seed catalog is edited under its identifier ["1"]. *)
Lemma saveProduct_fallback_replaces_witness :
  catalog (snd (StorageService.saveProduct (with_price beer 17) seeded_world))
  = Some (with_id (with_price beer 17) "local_1700000000000" :: tail INITIAL_PRODUCTS).
Proof.
  destruct (saveProduct_fallback_replaces seeded_world (with_price beer 17) beer
              INITIAL_PRODUCTS 0) as (_ & Hcat & _).
  - reflexivity.
  - vm_compute. reflexivity.
  - vm_compute. reflexivity.
  - rewrite Hcat by (intros key value Hrefused; exact Hrefused). reflexivity.
Defined.

(** X9.  The identifier [saveProduct] generates in fallback mode depends on
    the clock reading alone: two products saved without a usable identifier
    get the same identifier exactly when [Date.now()] reads the same for
    both. *)
Theorem generated_ids_collide_iff_same_clock (w1 w2 : World) (p1 p2 : Product) :
  (String.length (id p1) < 5)%nat -> (String.length (id p2) < 5)%nat ->
  stored_id w1 p1 = stored_id w2 p2 <-> clock w1 = clock w2.
Proof.
  intros H1 H2. rewrite !stored_id_short by done. split.
  - simpl. intros [= E]. by apply toString_inj.
  - by intros ->.
Qed.

(** Two different products entered in the same millisecond share their
    identifier. *)
Lemma generated_ids_collide_iff_same_clock_witness :
  stored_id fresh_world beer_delivery
  = stored_id fresh_world (mkProduct "" "Caipirinha" "Limao" 18 BEBIDAS 30 "").
Proof.
  apply (generated_ids_collide_iff_same_clock fresh_world fresh_world).
  - simpl. lia.
  - simpl. lia.
  - reflexivity.
Defined.

(** ** [saveProduct] in cloud mode *)

Section SaveProductCloud.

Implicit Types (w : World) (p : Product).

Lemma id_test_true p :
  id p <> "" ->
  negb (String.eqb (id p) "") && (0 <? String.length (id p))%nat = true.
Proof. intros Hid. destruct (id p); [done|reflexivity]. Qed.

Lemma id_test_false p :
  id p = "" ->
  negb (String.eqb (id p) "") && (0 <? String.length (id p))%nat = false.
Proof. by intros ->. Qed.

Lemma saveProduct_cloud_outage w p h code :
  db w = Some h -> outage (cloud w) = Some code ->
  StorageService.saveProduct p w
  = (Throw (FirebaseError code),
     set_alerts (alerts w ++ [StorageService.saveProduct_alert (FirebaseError code)]) w).
Proof.
  intros Hdb Hout. unfold StorageService.saveProduct.
  rewrite (bind_isCloud_cloud _ _ _ Hdb). fs_unfold; simpl.
  destruct (negb _ && _); simpl; by rewrite Hout.
Qed.

Lemma saveProduct_cloud_update w p h :
  db w = Some h -> outage (cloud w) = None -> id p <> "" ->
  StorageService.saveProduct p w =
  match products_col (cloud w) !! id p with
  | Some d =>
      (Normal tt,
       set_cloud (set_products_col (<[id p := with_id p (id d)]> (products_col (cloud w)))
                                   (cloud w)) w)
  | None =>
      (Throw (FirebaseError "not-found"), set_alerts (alerts w ++ [AlertSaveError]) w)
  end.
Proof.
  intros Hdb Hout Hid. unfold StorageService.saveProduct.
  rewrite (bind_isCloud_cloud _ _ _ Hdb). fs_unfold; simpl.
  rewrite (id_test_true _ Hid), Hout; simpl.
  by destruct (products_col (cloud w) !! id p).
Qed.

Lemma saveProduct_cloud_new w p h :
  db w = Some h -> outage (cloud w) = None -> id p = "" ->
  StorageService.saveProduct p w =
  match map_to_list (filter (fun kv => name kv.2 = name p) (products_col (cloud w))) with
  | (ref, currentData) :: _ =>
      (Normal tt,
       set_cloud
         (set_products_col
            (<[ref := StorageService.restock_cloud p currentData currentData]>
               (products_col (cloud w))) (cloud w)) w)
  | [] =>
      (Normal tt,
       set_cloud
         (set_products_col
            (<[autoId (cloud w) := with_id p (autoId (cloud w))]> (products_col (cloud w)))
            (cloud w)) w)
  end.
Proof.
  intros Hdb Hout Hid. unfold StorageService.saveProduct.
  rewrite (bind_isCloud_cloud _ _ _ Hdb). fs_unfold; simpl.
  rewrite (id_test_false _ Hid), Hout; simpl.
  destruct (map_to_list _) as [|[ref cur] rest] eqn:Hq; simpl; rewrite ?Hout; simpl; [done|].
  assert (products_col (cloud w) !! ref = Some cur) as ->; [|done].
  assert ((ref, cur) ∈ map_to_list
            (filter (fun kv => name kv.2 = name p) (products_col (cloud w)))) as Hin
    by (rewrite Hq; by left).
  apply elem_of_map_to_list, map_lookup_filter_Some in Hin. by destruct Hin.
Qed.

End SaveProductCloud.

(** X10.  In cloud mode a request the backend rejects makes [saveProduct]
    raise exactly one alert, chosen by the code of the error, and rethrow the
    error; the collections and the fallback store are left as they were.
    Saving under an identifier that has no document is such a failure: the
    product is not created. *)
Theorem saveProduct_cloud_failure (w : World) (p : Product) (h : Handle) :
  db w = Some h ->
  (forall code,
     outage (cloud w) = Some code ->
     StorageService.saveProduct p w
     = (Throw (FirebaseError code),
        set_alerts (alerts w ++ [StorageService.saveProduct_alert (FirebaseError code)]) w))
  /\ (outage (cloud w) = None -> id p <> "" -> products_col (cloud w) !! id p = None ->
      StorageService.saveProduct p w
      = (Throw (FirebaseError "not-found"), set_alerts (alerts w ++ [AlertSaveError]) w))
  /\ StorageService.saveProduct_alert (FirebaseError "permission-denied")
     = AlertPermissionDenied
  /\ StorageService.saveProduct_alert (FirebaseError "resource-exhausted")
     = AlertImageTooLarge
  /\ StorageService.saveProduct_alert (FirebaseError "unavailable") = AlertSaveError.
Proof.
  intros Hdb. split; [|split; [|done]].
  - intros code Hout. by apply (saveProduct_cloud_outage w p h).
  - intros Hout Hid Hnone. by rewrite (saveProduct_cloud_update w p h), Hnone.
Qed.

(** An edit of a product whose document is gone. *)
Lemma saveProduct_cloud_failure_witness :
  let gone := with_id beer "deleted-document" in
  StorageService.saveProduct gone cloud_world
  = (Throw (FirebaseError "not-found"), set_alerts [AlertSaveError] cloud_world).
Proof.
  intros gone.
  destruct (saveProduct_cloud_failure cloud_world gone FirestoreHandle eq_refl)
    as (_ & Hmissing & _).
  apply Hmissing; [reflexivity|discriminate|reflexivity].
Defined.

(** X11.  In cloud mode, when the backend takes the requests, a product
    saved under the identifier of a document replaces all the fields of that
    document; a product saved without identifier is merged into a document
    of the same name when there is one, and no document is added; it is added
    as a new document under the identifier the backend picks only when no
    document has its name.  Every other document is left as it was and no
    alert is raised. *)
Theorem saveProduct_cloud_success (w : World) (p : Product) (h : Handle) :
  db w = Some h -> outage (cloud w) = None ->
  let r := StorageService.saveProduct p w in
  let products := products_col (cloud w) in
  let products' := products_col (cloud (snd r)) in
  (forall d,
     id p <> "" -> products !! id p = Some d ->
     fst r = Normal tt /\ products' = <[id p := with_id p (id d)]> products
     /\ alerts (snd r) = alerts w)
  /\ (id p = "" ->
      (exists ref d, products !! ref = Some d /\ name d = name p) ->
      exists ref d,
        products !! ref = Some d /\ name d = name p
        /\ fst r = Normal tt
        /\ products' = <[ref := StorageService.restock_cloud p d d]> products
        /\ dom products' = dom products
        /\ alerts (snd r) = alerts w)
  /\ (id p = "" ->
      (forall ref d, products !! ref = Some d -> name d <> name p) ->
      fst r = Normal tt
      /\ products' = <[autoId (cloud w) := with_id p (autoId (cloud w))]> products
      /\ alerts (snd r) = alerts w).
Proof.
  intros Hdb Hout r products products'. subst r products products'.
  split; [|split].
  - intros d Hid Hd. by rewrite (saveProduct_cloud_update w p h), Hd.
  - intros Hid (ref0 & d0 & Hd0 & Hn0).
    rewrite (saveProduct_cloud_new w p h) by done.
    destruct (map_to_list _) as [|[ref cur] rest] eqn:Hq.
    + apply map_to_list_empty_iff in Hq.
      apply map_empty_filter_1 in Hq. by destruct (Hq ref0 d0 Hd0).
    + assert ((ref, cur) ∈ map_to_list
                (filter (fun kv => name kv.2 = name p) (products_col (cloud w)))) as Hin
        by (rewrite Hq; by left).
      apply elem_of_map_to_list, map_lookup_filter_Some in Hin as [Hcur Hname].
      exists ref, cur. simpl. split; [done|]. split; [done|]. split; [done|].
      split; [done|]. split; [|done].
      rewrite dom_insert_L. apply elem_of_dom_2 in Hcur. set_solver.
  - intros Hid Hnone. rewrite (saveProduct_cloud_new w p h) by done.
    destruct (map_to_list _) as [|[ref cur] rest] eqn:Hq; [done|].
    assert ((ref, cur) ∈ map_to_list
              (filter (fun kv => name kv.2 = name p) (products_col (cloud w)))) as Hin
      by (rewrite Hq; by left).
    apply elem_of_map_to_list, map_lookup_filter_Some in Hin as [Hcur Hname].
    by destruct (Hnone ref cur Hcur).
Qed.

(** A new product in the cloud session: a second document next to the beer. *)
Lemma saveProduct_cloud_success_witness :
  let caipirinha := mkProduct "" "Caipirinha" "Limao" 18 BEBIDAS 30 "" in
  products_col (cloud (snd (StorageService.saveProduct caipirinha cloud_world)))
  = <["auto-id" := with_id caipirinha "auto-id"]> {[ "1" := beer ]}.
Proof.
  intros caipirinha.
  destruct (saveProduct_cloud_success cloud_world caipirinha FirestoreHandle eq_refl eq_refl)
    as (_ & _ & Hadd).
  destruct Hadd as (_ & Hnew & _); [reflexivity| |exact Hnew].
  intros ref d. simpl.
  intros [<- <-]%lookup_singleton_Some. discriminate.
Defined.

(** ** [deleteProduct] *)

Section DeleteProduct.

Implicit Types (w : World) (ps : list Product) (ref : string).

Lemma deleteProduct_local w ref ps :
  db w = None -> catalog w = Some ps ->
  StorageService.deleteProduct ref w
  = (Normal tt,
     put STORAGE_KEYS.PRODUCTS (ProductsJSON (filter (fun p => id p <> ref) ps)) w).
Proof.
  intros Hdb Hps. unfold StorageService.deleteProduct.
  rewrite bind_isCloud_local by done.
  rewrite bind_getItem, (parse_catalog _ _ Hps). unfold bind at 1; simpl.
  by rewrite setItem_eq.
Qed.

Lemma deleteProduct_cloud w ref h :
  db w = Some h -> outage (cloud w) = None ->
  StorageService.deleteProduct ref w
  = (Normal tt,
     set_cloud (set_products_col (delete ref (products_col (cloud w))) (cloud w)) w).
Proof.
  intros Hdb Hout. unfold StorageService.deleteProduct.
  rewrite (bind_isCloud_cloud _ _ _ Hdb). fs_unfold. by rewrite Hout.
Qed.

Lemma filter_other_ids ref ps :
  (forall p, p ∈ ps -> id p <> ref) -> filter (fun p => id p <> ref) ps = ps.
Proof.
  induction ps as [|q ps IH]; intros Hall; [done|].
  rewrite filter_cons, decide_True by (apply Hall; by left).
  f_equal. apply IH. intros p Hp. apply Hall. by right.
Qed.

End DeleteProduct.

(** X12.  [deleteProduct(id)] returns normally in fallback mode whenever the
    catalog parses and writes the catalog without the products of that
    identifier, all of them when several share it; the other products stay,
    in their order, and a catalog that has no such product is written back
    as it is.  In cloud mode, when the backend takes the request, the
    document of that identifier is gone and every other document stays. *)
Theorem deleteProduct_removes (w : World) (ref : string) :
  let r := StorageService.deleteProduct ref w in
  (forall ps,
     db w = None -> catalog w = Some ps ->
     let ps' := filter (fun p => id p <> ref) ps in
     fst r = Normal tt
     /\ memoryStore (snd r) !! STORAGE_KEYS.PRODUCTS = Some (ProductsJSON ps')
     /\ (coherent (localStorage w) -> catalog (snd r) = Some ps')
     /\ (forall p, p ∈ ps' <-> p ∈ ps /\ id p <> ref)
     /\ ps' `sublist_of` ps
     /\ ((forall p, p ∈ ps -> id p <> ref) -> ps' = ps))
  /\ (forall h,
        db w = Some h -> outage (cloud w) = None ->
        fst r = Normal tt
        /\ products_col (cloud (snd r)) !! ref = None
        /\ (forall other, other <> ref ->
              products_col (cloud (snd r)) !! other = products_col (cloud w) !! other)).
Proof.
  intros r. subst r. split.
  - intros ps Hdb Hps ps'. rewrite (deleteProduct_local _ _ _ Hdb Hps); simpl.
    split; [done|]. split; [apply memoryStore_put|]. split; [intros; by apply catalog_put|].
    split; [|split].
    + intros p. subst ps'. by rewrite list_elem_of_filter, (comm and).
    + apply sublist_filter.
    + apply filter_other_ids.
  - intros h Hdb Hout. rewrite (deleteProduct_cloud _ _ _ Hdb Hout); simpl.
    split; [done|]. split; [apply lookup_delete_eq|].
    intros other Hne. by apply lookup_delete_ne.
Qed.

(** The beer is deleted from the seeded session. *)
Lemma deleteProduct_removes_witness :
  catalog (snd (StorageService.deleteProduct "1" seeded_world))
  = Some (tail INITIAL_PRODUCTS).
Proof.
  destruct (deleteProduct_removes seeded_world "1") as [Hlocal _].
  destruct (Hlocal INITIAL_PRODUCTS) as (_ & _ & Hcat & _).
  - reflexivity.
  - vm_compute. reflexivity.
  - rewrite Hcat by (intros key value Hrefused; exact Hrefused). reflexivity.
Defined.

(** ** The seed catalog and the operations that come before the first
       subscription *)

Section SeedSuppressed.

Implicit Types (w : World).

Lemma catalog_unset w : read STORAGE_KEYS.PRODUCTS w = None -> catalog w = Some [].
Proof. intros Hnone. unfold catalog. by rewrite Hnone. Qed.

Lemma subscribeProducts_stored w ps :
  db w = None -> read STORAGE_KEYS.PRODUCTS w = Some (ProductsJSON ps) ->
  StorageService.subscribeProducts w = (Normal (Some ps), w).
Proof.
  intros Hdb Hsome. unfold StorageService.subscribeProducts.
  rewrite bind_isCloud_local by done. unfold bind at 1.
  by rewrite (subscribeProducts_fetch_stored _ _ Hsome).
Qed.

Lemma createOrder_local_read w table items observation ps :
  db w = None -> catalog w = Some ps -> coherent (localStorage w) ->
  let w' := snd (StorageService.createOrder table items observation w) in
  db w' = None
  /\ read STORAGE_KEYS.PRODUCTS w'
     = Some (ProductsJSON (fold_left StorageService.decrement_stock items ps)).
Proof.
  intros Hdb Hps Hc. destruct (order_book w) as [os|] eqn:Hos; simpl.
  - rewrite (createOrder_local _ _ _ _ _ _ Hdb Hps Hos); simpl.
    rewrite !db_put, read_put_ne by done. split; [done|]. by apply read_put_coherent.
  - rewrite (createOrder_local_unparsed_orders _ _ _ _ _ Hdb Hps Hos); simpl.
    rewrite db_put. split; [done|]. by apply read_put_coherent.
Qed.

End SeedSuppressed.

(** X13.  The seed catalog is delivered only to a subscription that comes
    before every mutation.  In fallback mode, on a medium that does not
    answer reads with stale entries, an operation that runs while the store
    has no products entry writes one, so that the next [subscribeProducts]
    delivers what was written and does not seed: the empty catalog after
    [deleteProduct] or [createOrder], the one saved product after
    [saveProduct]. *)
Theorem mutation_before_subscription_suppresses_seed (w : World) :
  db w = None -> read STORAGE_KEYS.PRODUCTS w = None -> coherent (localStorage w) ->
  (forall ref,
     let w' := snd (StorageService.deleteProduct ref w) in
     StorageService.subscribeProducts w' = (Normal (Some []), w'))
  /\ (forall table items observation,
        let w' := snd (StorageService.createOrder table items observation w) in
        StorageService.subscribeProducts w' = (Normal (Some []), w'))
  /\ (forall p,
        let w' := snd (StorageService.saveProduct p w) in
        StorageService.subscribeProducts w'
        = (Normal (Some [with_id p (stored_id w p)]), w')).
Proof.
  intros Hdb Hnone Hc. pose proof (catalog_unset w Hnone) as Hps. split; [|split].
  - intros ref w'. subst w'. rewrite (deleteProduct_local _ _ _ Hdb Hps); simpl.
    apply subscribeProducts_stored; [by rewrite db_put|].
    rewrite filter_nil. by apply read_put_coherent.
  - intros table items observation w'.
    destruct (createOrder_local_read w table items observation [] Hdb Hps Hc)
      as [Hdb' Hread].
    subst w'. apply subscribeProducts_stored; [exact Hdb'|].
    rewrite Hread. do 2 f_equal. apply decrement_fold_all_absent.
    intros item q _ Hq. by apply elem_of_nil in Hq.
  - intros p w'. subst w'. rewrite (saveProduct_local _ _ _ Hdb Hps); simpl.
    apply subscribeProducts_stored; [by rewrite db_put|].
    by apply read_put_coherent.
Qed.

(** An order taken before the first subscription of a fresh session: the
    application starts with an empty catalog. *)
Lemma mutation_before_subscription_suppresses_seed_witness :
  fst (StorageService.subscribeProducts
         (snd (StorageService.createOrder 7 thirsty_cart None fresh_world)))
  = Normal (Some []).
Proof.
  destruct (mutation_before_subscription_suppresses_seed fresh_world) as (_ & Horder & _).
  - reflexivity.
  - reflexivity.
  - intros key value Hrefused. exact Hrefused.
  - by rewrite (Horder 7 thirsty_cart None).
Defined.

(** ** [createOrder] in cloud mode: the stock *)

Section CreateOrderCloudStock.

Implicit Types (w : World) (items : list CartItem).

Lemma taken_out_nil ref (d : Product) : taken_out [] ref d = d.
Proof. unfold taken_out, ordered. simpl. rewrite Z.sub_0_r. apply with_stock_stock. Qed.

Lemma taken_out_cons_hit (a : CartItem) items (d : Product) :
  taken_out items (id (product a)) (with_stock d (stock d + - quantity a))
  = taken_out (a :: items) (id (product a)) d.
Proof.
  unfold taken_out, ordered. simpl. rewrite decide_True by done.
  unfold with_stock. simpl. f_equal. lia.
Qed.

Lemma taken_out_cons_miss (a : CartItem) items ref (d : Product) :
  id (product a) <> ref -> taken_out (a :: items) ref d = taken_out items ref d.
Proof. intros Hne. unfold taken_out, ordered. simpl. by rewrite decide_False. Qed.

Lemma set_products_col_id w :
  set_cloud (set_products_col (products_col (cloud w)) (cloud w)) w = w.
Proof. by destruct w as [? ? ? ? [] ? ? ?]. Qed.

Lemma createOrder_cloud_updates_exact items w :
  outage (cloud w) = None ->
  forEach items (fun item =>
    try_catch
      (firestore.updateDoc_product (id (product item))
         (fun d => with_stock d (stock d + - quantity item)))
      (fun _ => ret tt)) w
  = (Normal tt,
     set_cloud
       (set_products_col
          (map_imap (fun ref d => Some (taken_out items ref d)) (products_col (cloud w)))
          (cloud w)) w).
Proof.
  revert w. induction items as [|a l IH]; intros w Hout; simpl.
  - unfold ret. f_equal. rewrite <- (set_products_col_id w) at 1. do 2 f_equal.
    apply map_eq; intros ref. rewrite map_lookup_imap.
    destruct (products_col (cloud w) !! ref); simpl; [|done]. by rewrite taken_out_nil.
  - unfold bind at 1.
    destruct (products_col (cloud w) !! id (product a)) as [d0|] eqn:Hd0.
    + assert (try_catch
                (firestore.updateDoc_product (id (product a))
                   (fun d => with_stock d (stock d + - quantity a)))
                (fun _ => ret tt) w
              = (Normal tt,
                 set_cloud
                   (set_products_col
                      (<[id (product a) := with_stock d0 (stock d0 + - quantity a)]>
                         (products_col (cloud w))) (cloud w)) w)) as ->.
      { fs_unfold. by rewrite Hout, Hd0. }
      rewrite IH by done. simpl. f_equal.
      replace (map_imap (fun ref d => Some (taken_out l ref d))
                 (<[id (product a) := with_stock d0 (stock d0 + - quantity a)]>
                    (products_col (cloud w))))
        with (map_imap (fun ref d => Some (taken_out (a :: l) ref d))
                (products_col (cloud w))); [by destruct w as [? ? ? ? [] ? ? ?]|].
      apply map_eq; intros ref. rewrite !map_lookup_imap.
      destruct (decide (id (product a) = ref)) as [<-|Hne].
      * rewrite lookup_insert_eq, Hd0. simpl. by rewrite taken_out_cons_hit.
      * rewrite lookup_insert_ne by done.
        destruct (products_col (cloud w) !! ref); simpl; [|done].
        by rewrite taken_out_cons_miss.
    + assert (try_catch
                (firestore.updateDoc_product (id (product a))
                   (fun d => with_stock d (stock d + - quantity a)))
                (fun _ => ret tt) w
              = (Normal tt, w)) as ->.
      { fs_unfold. by rewrite Hout, Hd0. }
      rewrite IH by done. do 3 f_equal.
      apply map_eq; intros ref. rewrite !map_lookup_imap.
      destruct (products_col (cloud w) !! ref) eqn:Href; simpl; [|done].
      rewrite taken_out_cons_miss; [done|]. congruence.
Qed.

Lemma createOrder_cloud_exact w table items observation h :
  db w = Some h -> outage (cloud w) = None ->
  StorageService.createOrder table items observation w
  = (Normal tt,
     set_cloud
       (set_products_col
          (map_imap (fun ref d => Some (taken_out items ref d)) (products_col (cloud w)))
          (set_orders_col
             (<[autoId (cloud w) :=
                  with_order_id
                    (StorageService.orderData (clock w) table items observation)
                    (autoId (cloud w))]> (orders_col (cloud w)))
             (cloud w))) w).
Proof.
  intros Hdb Hout. unfold StorageService.createOrder.
  unfold window.Date_now at 1. unfold bind at 1. unfold bind at 1. simpl.
  rewrite (bind_isCloud_cloud _ _ _ Hdb).
  unfold bind at 1. rewrite addDoc_order_eq, Hout.
  rewrite createOrder_cloud_updates_exact by done.
  by destruct w as [? ? ? ? [] ? ? ?].
Qed.

End CreateOrderCloudStock.

(** X14.  In cloud mode, when the backend takes the requests, [createOrder]
    takes from each product document exactly the quantity ordered of it, with
    no floor: the stock goes below zero when more is ordered than there is.
    Items whose product has no document are skipped, no document is made for
    them, the order is stored all the same and the call returns normally;
    the fallback store is not touched. *)
Theorem createOrder_cloud_stock_unfloored
    (w : World) (table : Z) (cart : list CartItem) (observation : option string)
    (h : Handle) :
  db w = Some h -> outage (cloud w) = None ->
  let r := StorageService.createOrder table cart observation w in
  fst r = Normal tt
  /\ (forall ref d,
        products_col (cloud w) !! ref = Some d ->
        products_col (cloud (snd r)) !! ref
        = Some (with_stock d (stock d - ordered ref cart)))
  /\ (forall ref,
        products_col (cloud w) !! ref = None ->
        products_col (cloud (snd r)) !! ref = None)
  /\ is_Some (orders_col (cloud (snd r)) !! autoId (cloud w))
  /\ memoryStore (snd r) = memoryStore w /\ localStorage (snd r) = localStorage w.
Proof.
  intros Hdb Hout r. subst r.
  rewrite (createOrder_cloud_exact _ _ _ _ _ Hdb Hout); simpl.
  split; [done|]. split; [|split; [|split]].
  - intros ref d Hd. by rewrite map_lookup_imap, Hd.
  - intros ref Hd. by rewrite map_lookup_imap, Hd.
  - rewrite lookup_insert_eq. by eexists.
  - done.
Qed.

(** Fifty beers ordered in cloud mode out of a stock of 48. *)
Lemma createOrder_cloud_stock_unfloored_witness :
  products_col (cloud (snd (StorageService.createOrder 7 thirsty_cart None cloud_world)))
  !! "1" = Some (with_stock beer (-2)).
Proof.
  destruct (createOrder_cloud_stock_unfloored cloud_world 7 thirsty_cart None
              FirestoreHandle eq_refl eq_refl) as (_ & Hstock & _).
  rewrite (Hstock "1" beer); reflexivity.
Defined.

(** ** An order and its cancellation, in fallback mode *)

Section OrderThenCancel.

Implicit Types (w : World) (cart : list CartItem) (ps : list Product) (i : nat).

Lemma returned_line_items ref cart :
  returned ref (StorageService.line_items cart) = ordered ref cart.
Proof.
  unfold returned, ordered, StorageService.line_items.
  induction cart as [|a l IH]; simpl; [done|]. by rewrite IH.
Qed.

Lemma ordered_unnamed ref cart :
  (forall item, item ∈ cart -> id (product item) <> ref) -> ordered ref cart = 0.
Proof.
  unfold ordered. induction cart as [|a l IH]; intros Hno; simpl; [done|].
  rewrite decide_False by (apply Hno; by left).
  apply IH. intros item Hin. apply Hno. by right.
Qed.

Lemma decrement_fold_ids cart ps :
  id <$> fold_left StorageService.decrement_stock cart ps = id <$> ps.
Proof.
  revert ps. induction cart as [|a l IH]; intros ps; simpl; [done|].
  rewrite IH.
  exact (adjust_first_ids (id (product a)) (fun s => Z.max 0 (s - quantity a)) ps).
Qed.

(** What the catalog holds at a position once an order has been taken out
    and given back. *)
Lemma restore_after_decrement cart ps i p :
  (forall item, item ∈ cart -> 0 <= quantity item) ->
  ps !! i = Some p ->
  fold_left StorageService.restore_stock (StorageService.line_items cart)
    (fold_left StorageService.decrement_stock cart ps) !! i
  = Some (if decide (first_index (id p) ps = Some i
                     /\ Exists (fun item => id (product item) = id p) cart)
          then with_stock p (Z.max (stock p) (ordered (id p) cart))
          else p).
Proof.
  intros Hq Hp.
  assert (forall ref, first_index ref (fold_left StorageService.decrement_stock cart ps)
                      = first_index ref ps) as Hfirst
    by (intros ref; apply first_index_ids, decrement_fold_ids).
  destruct (decide (first_index (id p) ps = Some i
                    /\ Exists (fun item => id (product item) = id p) cart))
    as [[Hi Hnamed]|Hnot].
  - apply Exists_exists in Hnamed.
    rewrite (restore_fold_lookup _ _ i
               (with_stock p (Z.max 0 (stock p - ordered (id p) cart))))
      by (by apply decrement_fold_floor).
    simpl. rewrite Hfirst, decide_True by done. rewrite returned_line_items.
    pose proof (ordered_nonneg (id p) cart Hq). f_equal. unfold with_stock. simpl.
    f_equal. lia.
  - assert (fold_left StorageService.decrement_stock cart ps !! i = Some p) as Hp1.
    { rewrite decrement_fold_lookup, Hp. simpl. f_equal.
      rewrite (fold_selected_never (fun a => id (product a)) _ cart ps i p);
        [apply with_stock_stock|done|].
      intros a Ha Hid Hi. apply Hnot. split; [done|].
      apply Exists_exists. eauto. }
    rewrite (restore_fold_lookup _ _ i p Hp1), Hfirst, returned_line_items.
    destruct (decide (first_index (id p) ps = Some i)) as [Hi|Hi];
      [|by rewrite with_stock_stock].
    rewrite ordered_unnamed, Z.add_0_r; [by rewrite with_stock_stock|].
    intros item Hin Hid. apply Hnot. split; [done|]. apply Exists_exists. eauto.
Qed.

Lemma find_last_order (os : list Order) (o : Order) (ref : string) :
  (forall x, x ∈ os -> order_id x <> ref) -> order_id o = ref ->
  list_find (fun x => order_id x = ref) (os ++ [o]) = Some (length os, o).
Proof.
  intros Hfresh Hid. apply list_find_Some. split; [|split; [done|]].
  - by rewrite lookup_app_r, Nat.sub_diag.
  - intros j y Hj Hlt. rewrite lookup_app_l in Hj by done.
    apply Hfresh. by eapply list_elem_of_lookup_2.
Qed.

End OrderThenCancel.

(** X15.  In fallback mode, on a medium that does not answer reads with stale
    entries, an order of non-negative quantities that is created and then
    cancelled leaves every product as it was except those that were short:
    the first product of an identifier that the order names ends with the
    larger of its old stock and the quantity ordered of it.  The catalog is
    back to what it was exactly when no named product had less in stock than
    was ordered; otherwise the cancellation gives back more than the order
    took. *)
Theorem order_then_cancel
    (w : World) (table : Z) (cart : list CartItem) (observation : option string)
    (ps : list Product) (os : list Order) :
  db w = None -> catalog w = Some ps -> order_book w = Some os ->
  coherent (localStorage w) ->
  (forall x, x ∈ os -> order_id x <> toString (clock w)) ->
  (forall item, item ∈ cart -> 0 <= quantity item) ->
  let ordered_world := snd (StorageService.createOrder table cart observation w) in
  let cancelled :=
    snd (StorageService.updateOrderStatus (toString (clock w)) CANCELED ordered_world) in
  exists ps2,
    catalog cancelled = Some ps2
    /\ length ps2 = length ps
    /\ (forall i p,
          ps !! i = Some p ->
          ps2 !! i
          = Some (if decide (first_index (id p) ps = Some i
                             /\ Exists (fun item => id (product item) = id p) cart)
                  then with_stock p (Z.max (stock p) (ordered (id p) cart))
                  else p))
    /\ ((forall p, p ∈ ps -> ordered (id p) cart <= stock p) -> ps2 = ps).
Proof.
  intros Hdb Hps Hos Hc Hfresh Hq ordered_world cancelled.
  subst cancelled ordered_world.
  rewrite (createOrder_local _ _ _ _ _ _ Hdb Hps Hos); simpl.
  set (ps1 := fold_left StorageService.decrement_stock cart ps).
  set (o := with_order_id (StorageService.orderData (clock w) table cart observation)
                          (toString (clock w))).
  set (w1 := put STORAGE_KEYS.ORDERS (OrdersJSON (os ++ [o]))
               (put STORAGE_KEYS.PRODUCTS (ProductsJSON ps1) w)).
  assert (coherent (localStorage w1)) as Hc1 by (by do 2 apply coherent_put).
  rewrite (updateOrderStatus_local_cancel w1 (toString (clock w)) (os ++ [o])
             (length os) o ps1).
  - simpl.
    exists (fold_left StorageService.restore_stock (StorageService.line_items cart) ps1).
    split; [|split; [|split]].
    + rewrite catalog_put_ne by done. by apply catalog_put.
    + subst ps1. by rewrite restore_fold_length, decrement_fold_length.
    + intros i p Hp. by apply restore_after_decrement.
    + intros Henough. subst ps1. apply list_eq; intros i.
      destruct (ps !! i) as [p|] eqn:Hp.
      * rewrite (restore_after_decrement cart ps i p Hq Hp).
        destruct (decide _); [|done].
        assert (ordered (id p) cart <= stock p)
          by (apply Henough; by eapply list_elem_of_lookup_2).
        rewrite Z.max_l by done. by rewrite with_stock_stock.
      * apply lookup_ge_None. apply lookup_ge_None in Hp.
        by rewrite restore_fold_length, decrement_fold_length.
  - subst w1. by rewrite !db_put.
  - subst w1. apply order_book_put. by apply coherent_put.
  - by apply find_last_order.
  - discriminate.
  - subst w1. rewrite catalog_put_ne by done. by apply catalog_put.
Qed.

(** Ten beers ordered out of the seeded catalog and cancelled: the catalog is
    the seeded one again. *)
Lemma order_then_cancel_witness :
  let small_cart := [mkCartItem beer 10] in
  let w1 := snd (StorageService.createOrder 7 small_cart None seeded_world) in
  catalog (snd (StorageService.updateOrderStatus (toString (clock seeded_world))
                  CANCELED w1))
  = Some INITIAL_PRODUCTS.
Proof.
  intros small_cart w1.
  destruct (order_then_cancel seeded_world 7 small_cart None INITIAL_PRODUCTS [])
    as (ps2 & Hcat & _ & _ & Hback).
  - reflexivity.
  - vm_compute. reflexivity.
  - vm_compute. reflexivity.
  - intros key value Hrefused. exact Hrefused.
  - intros x Hx. by apply elem_of_nil in Hx.
  - intros item ->%list_elem_of_singleton. simpl. lia.
  - subst w1. rewrite Hcat. f_equal. apply Hback.
    intros p Hp. repeat (apply elem_of_cons in Hp as [->|Hp]; [vm_compute; discriminate|]).
    by apply elem_of_nil in Hp.
Defined.

(** ** Reading the order book back *)

Section OrderBookReads.

Implicit Types (w : World) (os : list Order).

Lemma order_book_cases w :
  match or_null (read STORAGE_KEYS.ORDERS w) with
  | Some text => JSON_parse_orders text
  | None => ret []
  end
  = match order_book w with
    | Some os => ret os
    | None => throw SyntaxError
    end.
Proof.
  unfold order_book, or_null, or_default.
  destruct (read STORAGE_KEYS.ORDERS w) as [t|]; [|done].
  destruct (truthy t); [|done]. by destruct t.
Qed.

Lemma getOrdersOnce_local w :
  db w = None ->
  StorageService.getOrdersOnce w
  = match order_book w with
    | Some os => (Normal os, w)
    | None => (Throw SyntaxError, w)
    end.
Proof.
  intros Hdb. unfold StorageService.getOrdersOnce.
  rewrite bind_isCloud_local, bind_getItem, order_book_cases by done.
  by destruct (order_book w).
Qed.

Lemma subscribeOrders_local w :
  db w = None ->
  StorageService.subscribeOrders w
  = match order_book w with
    | Some os => (Normal (Some os), w)
    | None => (Throw SyntaxError, w)
    end.
Proof.
  intros Hdb. unfold StorageService.subscribeOrders, StorageService.subscribeOrders_fetch.
  rewrite bind_isCloud_local by done. unfold bind at 1.
  rewrite bind_getItem, order_book_cases. by destruct (order_book w).
Qed.

Lemma updateOrderStatus_local_unknown w orderId newStatus os :
  db w = None -> order_book w = Some os ->
  list_find (fun o => order_id o = orderId) os = None ->
  StorageService.updateOrderStatus orderId newStatus w = (Normal tt, w).
Proof.
  intros Hdb Hos Hfind. unfold StorageService.updateOrderStatus.
  rewrite bind_isCloud_local by done.
  rewrite bind_getItem, (parse_order_book _ _ Hos). unfold bind at 1; simpl.
  by rewrite Hfind.
Qed.

End OrderBookReads.

(** X16.  In fallback mode, on a medium that does not answer reads with stale
    entries, [getOrdersOnce] after [updateOrderStatus] returns the order book
    with the new status written into the first order that has the identifier
    and every other order as it was; when no order has the identifier the
    call returns normally and the order book is the one before. *)
Theorem updateOrderStatus_then_getOrdersOnce
    (w : World) (orderId : string) (newStatus : OrderStatus)
    (os : list Order) (ps : list Product) :
  db w = None -> coherent (localStorage w) ->
  order_book w = Some os -> catalog w = Some ps ->
  fst (StorageService.updateOrderStatus orderId newStatus w) = Normal tt
  /\ fst (StorageService.getOrdersOnce
            (snd (StorageService.updateOrderStatus orderId newStatus w)))
     = Normal (match list_find (fun o => order_id o = orderId) os with
               | Some (index, _) => alter (fun o => with_status o newStatus) index os
               | None => os
               end).
Proof.
  intros Hdb Hc Hos Hps.
  destruct (list_find (fun o => order_id o = orderId) os) as [[index o]|] eqn:Hfind.
  - destruct (decide (newStatus = CANCELED /\ status o <> CANCELED)) as [[-> Hst]|Hplain].
    + rewrite (updateOrderStatus_local_cancel w orderId os index o ps) by done.
      split; [done|]. simpl.
      rewrite getOrdersOnce_local by (by rewrite !db_put).
      rewrite order_book_put by (by apply coherent_put). done.
    + rewrite (updateOrderStatus_local_plain w orderId newStatus os index o); try done.
      * split; [done|]. simpl.
        rewrite getOrdersOnce_local by (by rewrite db_put).
        by rewrite order_book_put.
      * destruct (decide (newStatus = CANCELED)); [|by left].
        destruct (decide (status o = CANCELED)); [by right|]. by destruct Hplain.
  - rewrite (updateOrderStatus_local_unknown w orderId newStatus os) by done.
    split; [done|]. simpl. by rewrite getOrdersOnce_local, Hos.
Qed.

(** The order of the fifty beers is marked paid and read back. *)
Lemma updateOrderStatus_then_getOrdersOnce_witness :
  fst (StorageService.getOrdersOnce
         (snd (StorageService.updateOrderStatus (toString (clock seeded_world)) PAID
                 world_with_order)))
  = Normal (map (fun o => with_status o PAID)
                (default [] (order_book world_with_order))).
Proof.
  destruct (updateOrderStatus_then_getOrdersOnce world_with_order
              (toString (clock seeded_world)) PAID
              (default [] (order_book world_with_order))
              (default [] (catalog world_with_order))) as [_ Hread].
  - reflexivity.
  - intros key value Hrefused. exact Hrefused.
  - vm_compute. reflexivity.
  - vm_compute. reflexivity.
  - etrans; [exact Hread|]. vm_compute. reflexivity.
Defined.

(** X17.  In cloud mode [updateOrderStatus] never touches the products, not
    even for a cancellation: when it returns, the one change is the status of
    the order document with the identifier, and the stock that [createOrder]
    took stays taken; when the request is rejected, because of an outage or
    because there is no such document, nothing has changed. *)
Theorem updateOrderStatus_cloud_keeps_stock
    (w : World) (h : Handle) (orderId : string) (newStatus : OrderStatus) :
  db w = Some h ->
  let result := StorageService.updateOrderStatus orderId newStatus w in
  products_col (cloud (snd result)) = products_col (cloud w)
  /\ (fst result = Normal tt ->
      exists o, orders_col (cloud w) !! orderId = Some o
                /\ snd result
                   = set_cloud (set_orders_col
                                  (<[orderId := with_status o newStatus]>
                                     (orders_col (cloud w)))
                                  (cloud w)) w)
  /\ (fst result <> Normal tt -> snd result = w)
  /\ (fst result = Normal tt
      <-> outage (cloud w) = None /\ is_Some (orders_col (cloud w) !! orderId)).
Proof.
  intros Hdb result. subst result. unfold StorageService.updateOrderStatus.
  rewrite (bind_isCloud_cloud _ _ _ Hdb).
  destruct (outage (cloud w)) as [code|] eqn:Hout.
  { assert (firestore.updateDoc_order orderId (fun o => with_status o newStatus) w
            = (Throw (FirebaseError code), w)) as ->
      by (fs_unfold; by rewrite Hout).
    simpl. repeat split; try done. by intros [? _]. }
  destruct (orders_col (cloud w) !! orderId) as [o|] eqn:Ho.
  - rewrite (updateDoc_order_eq _ _ _ o Hout Ho). simpl.
    repeat split; eauto. by destruct (cloud w).
  - assert (firestore.updateDoc_order orderId (fun o => with_status o newStatus) w
            = (Throw (FirebaseError "not-found"), w)) as ->
      by (fs_unfold; by rewrite Hout, Ho).
    simpl. repeat split; try done. intros [_ [? ?]]. done.
Qed.

(** Table 7 orders fifty beers in cloud mode and cancels: the products are
    what the order left. *)
Lemma updateOrderStatus_cloud_keeps_stock_witness :
  let w := snd (StorageService.createOrder 7 thirsty_cart None cloud_world) in
  products_col (cloud (snd (StorageService.updateOrderStatus "auto-id" CANCELED w)))
  = products_col (cloud w).
Proof.
  intros w.
  destruct (updateOrderStatus_cloud_keeps_stock w FirestoreHandle "auto-id" CANCELED)
    as [Hproducts _]; [reflexivity|exact Hproducts].
Defined.

(** ** Closing a table *)

Section Tables.

Implicit Types (w : World) (ts : gmap string TableSession) (table : Z).

Lemma requestTableClose_local w table method :
  db w = None ->
  StorageService.requestTableClose table method w
  = match table_map w with
    | Some ts =>
        (Normal tt,
         put STORAGE_KEYS.TABLES
           (TablesJSON (<[toString table := mkTableSession CLOSING_REQUESTED method]> ts)) w)
    | None => (Throw SyntaxError, w)
    end.
Proof.
  intros Hdb. unfold StorageService.requestTableClose.
  rewrite bind_isCloud_local, bind_getItem by done.
  destruct (table_map w) as [ts|] eqn:Hts.
  - rewrite (parse_table_map _ _ Hts). unfold bind at 1; simpl. by rewrite setItem_eq.
  - by rewrite (parse_table_map_None _ Hts).
Qed.

Lemma requestTableClose_cloud w table method h :
  db w = Some h ->
  StorageService.requestTableClose table method w
  = match outage (cloud w) with
    | Some code => (Throw (FirebaseError code), w)
    | None =>
        (Normal tt,
         set_cloud
           (set_tables_col
              (<[toString table := mkTableSession CLOSING_REQUESTED method]>
                 (tables_col (cloud w)))
              (cloud w)) w)
    end.
Proof.
  intros Hdb. unfold StorageService.requestTableClose.
  rewrite (bind_isCloud_cloud _ _ _ Hdb).
  unfold firestore.setDoc_table_merge. fs_unfold.
  by destruct (outage (cloud w)).
Qed.

Lemma subscribeTables_local w :
  db w = None ->
  StorageService.subscribeTables w
  = match table_map w with
    | Some ts => (Normal (Some ts), w)
    | None => (Throw SyntaxError, w)
    end.
Proof.
  intros Hdb. unfold StorageService.subscribeTables, StorageService.subscribeTables_fetch.
  rewrite bind_isCloud_local by done. unfold bind at 1. rewrite bind_getItem.
  destruct (table_map w) as [ts|] eqn:Hts.
  - by rewrite (parse_table_map _ _ Hts).
  - by rewrite (parse_table_map_None _ Hts).
Qed.

Lemma toString_ne (a b : Z) : a <> b -> toString a <> toString b.
Proof. intros Hne Heq. by apply Hne, toString_inj. Qed.

Lemma archive_new_order table now cart observation ref :
  StorageService.archive table
    (with_order_id (StorageService.orderData now table cart observation) ref)
  = with_status
      (with_order_id (StorageService.orderData now table cart observation) ref) PAID.
Proof.
  unfold StorageService.archive. simpl. by rewrite bool_decide_eq_true_2.
Qed.

Lemma archive_cloud_new_order table now cart observation ref :
  archive_cloud table
    (with_order_id (StorageService.orderData now table cart observation) ref)
  = with_status
      (with_order_id (StorageService.orderData now table cart observation) ref) PAID.
Proof.
  unfold archive_cloud. simpl. by rewrite bool_decide_eq_true_2.
Qed.

End Tables.

(** X18.  In fallback mode, on a medium that does not answer reads with stale
    entries, [requestTableClose] files the request under the table's number
    and leaves the entry of every other table; [finalizeTable] for the same
    table then removes the entry, so that the tables delivered to a
    subscriber are those before the request without that table, and leaves
    the catalog.  Where the stored orders carry their table as a number or as
    its decimal form, the order book is then the one before with the table's
    orders that are not CANCELED marked PAID. *)
Theorem requestTableClose_then_finalizeTable
    (w : World) (table : Z) (method : string)
    (ts : gmap string TableSession) (os : list Order) :
  db w = None -> coherent (localStorage w) ->
  table_map w = Some ts -> order_book w = Some os ->
  let requested := snd (StorageService.requestTableClose table method w) in
  let finalized := snd (StorageService.finalizeTable table requested) in
  (exists ts1,
     fst (StorageService.subscribeTables requested) = Normal (Some ts1)
     /\ ts1 !! toString table = Some (mkTableSession CLOSING_REQUESTED method)
     /\ forall other, other <> table -> ts1 !! toString other = ts !! toString other)
  /\ fst (StorageService.subscribeTables finalized)
     = Normal (Some (delete (toString table) ts))
  /\ (Forall (fun o => plain_table (tableId o)) os ->
      order_book finalized = Some (map (StorageService.archive table) os))
  /\ catalog finalized = catalog w.
Proof.
  intros Hdb Hc Hts Hos requested finalized. subst finalized requested.
  rewrite requestTableClose_local, Hts by done. simpl.
  set (ts1 := <[toString table := mkTableSession CLOSING_REQUESTED method]> ts).
  set (w1 := put STORAGE_KEYS.TABLES (TablesJSON ts1) w).
  assert (db w1 = None) as Hdb1 by (subst w1; by rewrite db_put).
  assert (coherent (localStorage w1)) as Hc1 by (by apply coherent_put).
  assert (table_map w1 = Some ts1) as Hts1 by (by apply table_map_put).
  assert (order_book w1 = Some os) as Hos1
    by (subst w1; by rewrite order_book_put_ne).
  split.
  { exists ts1. rewrite subscribeTables_local, Hts1 by done.
    split; [done|]. split; [apply lookup_insert_eq|].
    intros other Hne. subst ts1. apply lookup_insert_ne. by apply toString_ne. }
  rewrite finalizeTable_local, Hts1, Hos1 by done. simpl.
  set (w2 := put STORAGE_KEYS.TABLES (TablesJSON (delete (toString table) ts1)) w1).
  assert (coherent (localStorage w2)) as Hc2 by (by apply coherent_put).
  split; [|split].
  - rewrite subscribeTables_local by (subst w2; by rewrite !db_put).
    rewrite table_map_put_ne by done. subst w2. rewrite table_map_put by done.
    subst ts1. by rewrite delete_insert_eq.
  - intros _. by apply order_book_put.
  - subst w2 w1. by rewrite !catalog_put_ne.
Qed.

(** Table 7, which has ordered, asks to pay by card and is finalized: no
    table is left waiting. *)
Lemma requestTableClose_then_finalizeTable_witness :
  fst (StorageService.subscribeTables
         (snd (StorageService.finalizeTable 7
                 (snd (StorageService.requestTableClose 7 "card" world_with_order)))))
  = Normal (Some ∅).
Proof.
  destruct (requestTableClose_then_finalizeTable world_with_order 7 "card" ∅
              (default [] (order_book world_with_order)))
    as (_ & Hdelivered & _).
  - reflexivity.
  - intros key value Hrefused. exact Hrefused.
  - vm_compute. reflexivity.
  - vm_compute. reflexivity.
  - etrans; [exact Hdelivered|]. by rewrite delete_empty.
Defined.

(** X19.  In fallback mode, on a medium that does not answer reads with stale
    entries, an order created for a table is PAID once that table is
    finalized.  Where the earlier orders carry their table as a number or as
    its decimal form, the order book then holds those orders, the ones of the
    table that were not CANCELED marked PAID, followed by the new order with
    status PAID; the catalog is the one [createOrder] left. *)
Theorem createOrder_then_finalizeTable
    (w : World) (table : Z) (cart : list CartItem) (note : option string)
    (ps : list Product) (os : list Order) (ts : gmap string TableSession) :
  db w = None -> coherent (localStorage w) ->
  catalog w = Some ps -> order_book w = Some os -> table_map w = Some ts ->
  Forall (fun o => plain_table (tableId o)) os ->
  let ordered_world := snd (StorageService.createOrder table cart note w) in
  let finalized := snd (StorageService.finalizeTable table ordered_world) in
  (exists o,
     fst (StorageService.getOrdersOnce finalized)
     = Normal (map (StorageService.archive table) os ++ [o])
     /\ status o = PAID
     /\ tableId o = TableNum table
     /\ items o = StorageService.line_items cart)
  /\ catalog finalized = catalog ordered_world.
Proof.
  intros Hdb Hc Hps Hos Hts _ ordered_world finalized. subst finalized ordered_world.
  rewrite (createOrder_local _ _ _ _ _ _ Hdb Hps Hos); simpl.
  set (o := with_order_id (StorageService.orderData (clock w) table cart note)
                          (toString (clock w))).
  set (w0 := put STORAGE_KEYS.PRODUCTS _ w).
  set (w1 := put STORAGE_KEYS.ORDERS (OrdersJSON (os ++ [o])) w0).
  assert (coherent (localStorage w0)) as Hc0 by (by apply coherent_put).
  assert (coherent (localStorage w1)) as Hc1 by (by apply coherent_put).
  assert (db w1 = None) as Hdb1 by (subst w1 w0; by rewrite !db_put).
  assert (table_map w1 = Some ts) as Hts1
    by (subst w1 w0; by rewrite !table_map_put_ne).
  assert (order_book w1 = Some (os ++ [o])) as Hos1 by (by apply order_book_put).
  rewrite finalizeTable_local, Hts1, Hos1 by done. simpl. split.
  - exists (with_status o PAID).
    rewrite getOrdersOnce_local by (by rewrite !db_put).
    rewrite order_book_put by (by apply coherent_put).
    rewrite map_app. simpl. subst o. by rewrite archive_new_order.
  - by rewrite !catalog_put_ne.
Qed.

(** The fifty beers of table 7 are paid once the table is finalized. *)
Lemma createOrder_then_finalizeTable_witness :
  exists o,
    fst (StorageService.getOrdersOnce
           (snd (StorageService.finalizeTable 7 world_with_order)))
    = Normal [o]
    /\ status o = PAID.
Proof.
  destruct (createOrder_then_finalizeTable seeded_world 7 thirsty_cart None
              INITIAL_PRODUCTS [] ∅) as [(o & Hread & Hpaid & _) _].
  - reflexivity.
  - intros key value Hrefused. exact Hrefused.
  - vm_compute. reflexivity.
  - vm_compute. reflexivity.
  - vm_compute. reflexivity.
  - constructor.
  - exists o. split; [exact Hread|exact Hpaid].
Defined.

(** X20.  In cloud mode, while the backend accepts requests, a table's
    session runs to its end: the order [createOrder] adds, the request
    [requestTableClose] files under the table's number, and [finalizeTable],
    after which the table's document is gone, the tables are those before the
    session without that table, the new order is PAID, and the products are
    what [createOrder] left. *)
Theorem cloud_table_session
    (w : World) (h : Handle) (table : Z) (cart : list CartItem)
    (observation : option string) (method : string) :
  db w = Some h -> outage (cloud w) = None ->
  let ordered_world := snd (StorageService.createOrder table cart observation w) in
  let requested := snd (StorageService.requestTableClose table method ordered_world) in
  let finalized := snd (StorageService.finalizeTable table requested) in
  tables_col (cloud requested) !! toString table
  = Some (mkTableSession CLOSING_REQUESTED method)
  /\ fst (StorageService.finalizeTable table requested) = Normal tt
  /\ tables_col (cloud finalized) = delete (toString table) (tables_col (cloud w))
  /\ orders_col (cloud finalized) !! autoId (cloud w)
     = Some (with_status
               (with_order_id
                  (StorageService.orderData (clock w) table cart observation)
                  (autoId (cloud w)))
               PAID)
  /\ products_col (cloud finalized) = products_col (cloud ordered_world).
Proof.
  intros Hdb Hout ordered_world requested finalized.
  subst finalized requested ordered_world.
  destruct (createOrder_cloud_eq w table cart observation h Hdb Hout) as [products ->].
  simpl.
  set (w1 := set_cloud _ w).
  assert (db w1 = Some h) as Hdb1 by done.
  assert (outage (cloud w1) = None) as Hout1 by done.
  rewrite (requestTableClose_cloud w1 table method h Hdb1), Hout1. simpl.
  set (w2 := set_cloud _ w1).
  assert (db w2 = Some h) as Hdb2 by done.
  assert (outage (cloud w2) = None) as Hout2 by done.
  rewrite (finalizeTable_cloud w2 table h Hdb2), Hout2. simpl.
  split; [apply lookup_insert_eq|]. split; [done|]. split; [|split; [|done]].
  - by rewrite delete_insert_eq.
  - rewrite lookup_fmap, lookup_insert_eq. simpl. by rewrite archive_cloud_new_order.
Qed.

Lemma cloud_table_session_witness :
  let w1 := snd (StorageService.createOrder 7 thirsty_cart None cloud_world) in
  let w2 := snd (StorageService.requestTableClose 7 "card" w1) in
  tables_col (cloud (snd (StorageService.finalizeTable 7 w2))) = ∅.
Proof.
  intros w1 w2.
  destruct (cloud_table_session cloud_world FirestoreHandle 7 thirsty_cart None "card")
    as (_ & _ & Htables & _); [reflexivity|reflexivity|].
  etrans; [exact Htables|]. apply delete_empty.
Defined.

(** ** [runDiagnostics] *)

Section Diagnostics.

Implicit Types (w : World).

Lemma runDiagnostics_local w :
  db w = None ->
  StorageService.runDiagnostics w
  = (Normal (if StorageService.is_ok (read (probe_key w) (put (probe_key w) (Raw "ok") w))
             then StorageService.DiagnosisLocalWorking else StorageService.DiagnosisLocalBlocked),
     drop (probe_key w) (put (probe_key w) (Raw "ok") w)).
Proof.
  intros Hdb. unfold StorageService.runDiagnostics.
  rewrite bind_isCloud_local by done.
  unfold try_catch, window.Date_now. unfold bind at 1. unfold bind at 1. simpl.
  fold (probe_key w).
  rewrite bind_setItem, bind_getItem, bind_removeItem.
  by destruct (StorageService.is_ok _).
Qed.

Lemma runDiagnostics_cloud w h :
  db w = Some h ->
  StorageService.runDiagnostics w
  = (Normal match outage (cloud w) with
            | None => StorageService.DiagnosisCloudOk
            | Some code =>
                if String.eqb code "permission-denied" then StorageService.DiagnosisPermissionDenied
                else StorageService.DiagnosisCloudError
            end,
     w).
Proof.
  intros Hdb. unfold StorageService.runDiagnostics.
  rewrite (bind_isCloud_cloud _ _ _ Hdb).
  unfold try_catch, firestore.getDocs_products_limit. fs_unfold.
  destruct (outage (cloud w)) as [code|]; [|done]. simpl.
  by destruct (String.eqb code "permission-denied").
Qed.

(** What the probe reads back. *)
Lemma read_probe key w :
  read key (put key (Raw "ok") w)
  = if refuses (localStorage w) (CallGetItem key) then Some (Raw "ok")
    else if refuses (localStorage w) (CallSetItem key (Raw "ok"))
         then match entries (localStorage w) !! key with
              | Some held => Some held
              | None => Some (Raw "ok")
              end
         else Some (Raw "ok").
Proof.
  rewrite read_eq, refuses_put, memoryStore_put, put_eq. simpl.
  destruct (refuses (localStorage w) (CallGetItem key)); [done|].
  destruct (refuses (localStorage w) (CallSetItem key (Raw "ok"))); [done|].
  by rewrite lookup_insert_eq.
Qed.

End Diagnostics.

(** X21.  In fallback mode [runDiagnostics] never throws and never reaches
    its error message.  It reports blocked storage in one case only: the
    medium refuses the write of the probe, answers the read, and holds under
    the probe's key an entry that is not the probe.  In every other case,
    also when the medium refuses every call, the in-memory map answers and
    the report is that local storage works.  The probe is gone from the
    in-memory map afterwards, and no other key reads differently. *)
Theorem runDiagnostics_fallback (w : World) :
  db w = None ->
  let result := StorageService.runDiagnostics w in
  let medium := localStorage w in
  let stale :=
    refuses medium (CallSetItem (probe_key w) (Raw "ok")) = true
    /\ refuses medium (CallGetItem (probe_key w)) = false
    /\ exists held, entries medium !! probe_key w = Some held
                    /\ StorageService.is_ok (Some held) = false in
  (fst result = Normal StorageService.DiagnosisLocalBlocked <-> stale)
  /\ (fst result = Normal StorageService.DiagnosisLocalWorking <-> ~ stale)
  /\ memoryStore (snd result) !! probe_key w = None
  /\ forall key, key <> probe_key w -> read key (snd result) = read key w.
Proof.
  intros Hdb result medium stale. subst result stale medium.
  rewrite (runDiagnostics_local w Hdb). simpl. rewrite read_probe.
  split; [|split; [|split]].
  - destruct (refuses (localStorage w) (CallGetItem (probe_key w))).
    { simpl. split; [done|]. by intros (_ & ? & _). }
    destruct (refuses (localStorage w) (CallSetItem (probe_key w) (Raw "ok"))).
    2:{ simpl. split; [done|]. by intros (? & _). }
    destruct (entries (localStorage w) !! probe_key w) as [held|].
    2:{ simpl. split; [done|]. by intros (_ & _ & ? & ? & _). }
    destruct (StorageService.is_ok (Some held)) eqn:Hok.
    + split; [done|]. intros (_ & _ & x & Heq & Hno). injection Heq as <-. simpl in Hok. congruence.
    + split; [|done]. intros _. eauto.
  - destruct (refuses (localStorage w) (CallGetItem (probe_key w))).
    { simpl. split; [|done]. by intros _ (_ & ? & _). }
    destruct (refuses (localStorage w) (CallSetItem (probe_key w) (Raw "ok"))).
    2:{ simpl. split; [|done]. by intros _ (? & _). }
    destruct (entries (localStorage w) !! probe_key w) as [held|].
    2:{ simpl. split; [|done]. by intros _ (_ & _ & ? & ? & _). }
    destruct (StorageService.is_ok (Some held)) eqn:Hok.
    + split; [|done]. intros _ (_ & _ & x & Heq & Hno). injection Heq as <-. simpl in Hok. congruence.
    + split; [done|]. intros Hno. exfalso. apply Hno. eauto.
  - rewrite drop_eq. simpl. apply lookup_delete_eq.
  - intros key Hne. rewrite read_drop_ne, read_put_ne; done.
Qed.

(** A medium that refuses every call is reported as working. *)
Lemma runDiagnostics_fallback_witness :
  fst (StorageService.runDiagnostics (set_localStorage (blocked_medium ∅) fresh_world))
  = Normal StorageService.DiagnosisLocalWorking.
Proof.
  destruct (runDiagnostics_fallback (set_localStorage (blocked_medium ∅) fresh_world))
    as (_ & Hworking & _); [reflexivity|].
  apply Hworking. intros (_ & Hanswers & _). discriminate Hanswers.
Defined.

(** X22.  In cloud mode [runDiagnostics] never throws and changes nothing.
    It reports a working connection exactly when the backend accepts the
    read of one product, a permission problem exactly when the read is
    rejected with the code [permission-denied], and a connection error for
    every other rejection. *)
Theorem runDiagnostics_reports_cloud (w : World) (h : Handle) :
  db w = Some h ->
  let result := StorageService.runDiagnostics w in
  snd result = w
  /\ (fst result = Normal StorageService.DiagnosisCloudOk <-> outage (cloud w) = None)
  /\ (fst result = Normal StorageService.DiagnosisPermissionDenied
      <-> outage (cloud w) = Some "permission-denied")
  /\ (fst result = Normal StorageService.DiagnosisCloudError
      <-> exists code, outage (cloud w) = Some code /\ code <> "permission-denied").
Proof.
  intros Hdb result. subst result. rewrite (runDiagnostics_cloud w h Hdb). simpl.
  split; [done|].
  destruct (outage (cloud w)) as [code|].
  - destruct (String.eqb_spec code "permission-denied") as [->|Hne].
    + repeat split; try done. by intros (? & [= <-] & ?).
    + repeat split; try done.
      * by intros [= ->].
      * intros _. eauto.
  - repeat split; try done. by intros (? & ? & _).
Qed.

Lemma runDiagnostics_reports_cloud_witness :
  fst (StorageService.runDiagnostics cloud_world) = Normal StorageService.DiagnosisCloudOk.
Proof.
  destruct (runDiagnostics_reports_cloud cloud_world FirestoreHandle)
    as (_ & Hok & _); [reflexivity|].
  apply Hok. reflexivity.
Defined.

(** ** Reading the orders after [createOrder] *)

(** X23.  In fallback mode, on a medium that does not answer reads with stale
    entries, the orders delivered to a subscriber and the orders
    [getOrdersOnce] returns after [createOrder] are the earlier orders
    followed by the new one, which is PENDING, belongs to the table, and
    carries the supplied items and observation.  Neither read writes
    anything. *)
Theorem orders_read_after_createOrder
    (w : World) (table : Z) (cart : list CartItem) (note : option string)
    (ps : list Product) (os : list Order) :
  db w = None -> coherent (localStorage w) ->
  catalog w = Some ps -> order_book w = Some os ->
  let ordered_world := snd (StorageService.createOrder table cart note w) in
  exists o,
    StorageService.subscribeOrders ordered_world
    = (Normal (Some (os ++ [o])), ordered_world)
    /\ StorageService.getOrdersOnce ordered_world = (Normal (os ++ [o]), ordered_world)
    /\ status o = PENDING
    /\ tableId o = TableNum table
    /\ items o = StorageService.line_items cart
    /\ observation o = default "" note.
Proof.
  intros Hdb Hc Hps Hos ordered_world. subst ordered_world.
  rewrite (createOrder_local _ _ _ _ _ _ Hdb Hps Hos); simpl.
  eexists.
  rewrite subscribeOrders_local, getOrdersOnce_local by (by rewrite !db_put).
  rewrite order_book_put by (by apply coherent_put).
  repeat split. simpl. by destruct (default "" note).
Qed.

Lemma orders_read_after_createOrder_witness :
  exists o,
    fst (StorageService.getOrdersOnce world_with_order) = Normal [o]
    /\ status o = PENDING.
Proof.
  destruct (orders_read_after_createOrder seeded_world 7 thirsty_cart None
              INITIAL_PRODUCTS []) as (o & _ & Hread & Hstatus & _).
  - reflexivity.
  - intros key value Hrefused. exact Hrefused.
  - vm_compute. reflexivity.
  - vm_compute. reflexivity.
  - exists o. split; [|exact Hstatus].
    unfold world_with_order. by rewrite Hread.
Defined.

(** X24.  In cloud mode, while the backend accepts requests, [getOrdersOnce]
    after [createOrder] returns the new order, under the identifier the
    backend gave its document, together with the order documents that were
    there under other identifiers, and nothing else. *)
Theorem getOrdersOnce_cloud_after_createOrder
    (w : World) (h : Handle) (table : Z) (cart : list CartItem)
    (observation : option string) :
  db w = Some h -> outage (cloud w) = None ->
  let ordered_world := snd (StorageService.createOrder table cart observation w) in
  let new_order :=
    with_order_id (StorageService.orderData (clock w) table cart observation)
                  (autoId (cloud w)) in
  exists delivered,
    StorageService.getOrdersOnce ordered_world = (Normal delivered, ordered_world)
    /\ forall o,
         o ∈ delivered
         <-> o = new_order
             \/ exists ref, ref <> autoId (cloud w)
                            /\ orders_col (cloud w) !! ref = Some o.
Proof.
  intros Hdb Hout ordered_world new_order. subst ordered_world.
  destruct (createOrder_cloud_eq w table cart observation h Hdb Hout) as [products ->].
  simpl. set (w1 := set_cloud _ w).
  unfold StorageService.getOrdersOnce.
  rewrite (bind_isCloud_cloud _ w1 h) by done.
  unfold firestore.getDocs_orders. fs_unfold. simpl. rewrite Hout.
  eexists. split; [reflexivity|]. intros o. rewrite list_elem_of_fmap. split.
  - intros ([ref o'] & -> & Hin). apply elem_of_map_to_list in Hin.
    subst w1. simpl in Hin. simpl.
    destruct (decide (ref = autoId (cloud w))) as [->|Hne].
    + rewrite lookup_insert_eq in Hin. left. by injection Hin as <-.
    + rewrite lookup_insert_ne in Hin by done. right. eauto.
  - intros [->|(ref & Hne & Ho)].
    + exists (autoId (cloud w), new_order). split; [done|].
      apply elem_of_map_to_list. subst w1. simpl. apply lookup_insert_eq.
    + exists (ref, o). split; [done|].
      apply elem_of_map_to_list. subst w1. simpl. by rewrite lookup_insert_ne.
Qed.

Lemma getOrdersOnce_cloud_after_createOrder_witness :
  exists delivered,
    fst (StorageService.getOrdersOnce
           (snd (StorageService.createOrder 7 thirsty_cart None cloud_world)))
    = Normal delivered
    /\ with_order_id
         (StorageService.orderData (clock cloud_world) 7 thirsty_cart None) "auto-id"
       ∈ delivered.
Proof.
  destruct (getOrdersOnce_cloud_after_createOrder cloud_world FirestoreHandle 7
              thirsty_cart None) as (delivered & Hread & Hmember);
    [reflexivity|reflexivity|].
  exists delivered. split; [by rewrite Hread|]. apply Hmember. by left.
Defined.

(** ** What a mode never touches *)

(** Rules for [keeps], for a relation that is a preorder and under which the
    mode is stable. *)
Section Keeps.

Context (mode : World -> Prop) (R : World -> World -> Prop).
Hypothesis R_refl : forall w, R w w.
Hypothesis R_trans : forall w1 w2 w3, R w1 w2 -> R w2 w3 -> R w1 w3.
Hypothesis mode_stable : forall w w', mode w -> R w w' -> mode w'.

Lemma keeps_pure {A : Type} (m : JS A) : (forall w, snd (m w) = w) -> keeps mode R m.
Proof. intros Hm w _. by rewrite Hm. Qed.

Lemma keeps_ret {A : Type} (a : A) : keeps mode R (ret a).
Proof. by apply keeps_pure. Qed.

Lemma keeps_throw {A : Type} (e : Error) : keeps mode R (@throw A e).
Proof. by apply keeps_pure. Qed.

Lemma keeps_bind {A B : Type} (m : JS A) (k : A -> JS B) :
  keeps mode R m -> (forall a, keeps mode R (k a)) -> keeps mode R (bind m k).
Proof.
  intros Hm Hk w Hw. specialize (Hm w Hw). unfold bind.
  destruct (m w) as [[a|e] w']; simpl in *; [|done].
  eapply R_trans; [exact Hm|]. apply Hk. by eapply mode_stable.
Qed.

Lemma keeps_try_catch {A : Type} (m : JS A) (h : Error -> JS A) :
  keeps mode R m -> (forall e, keeps mode R (h e)) -> keeps mode R (try_catch m h).
Proof.
  intros Hm Hh w Hw. specialize (Hm w Hw). unfold try_catch.
  destruct (m w) as [[a|e] w']; simpl in *; [done|].
  eapply R_trans; [exact Hm|]. apply Hh. by eapply mode_stable.
Qed.

Lemma keeps_forEach {A : Type} (l : list A) (body : A -> JS unit) :
  (forall a, keeps mode R (body a)) -> keeps mode R (forEach l body).
Proof.
  intros Hbody. induction l as [|a l IH]; simpl; [apply keeps_ret|].
  apply keeps_bind; [apply Hbody|]. by intros _.
Qed.

Lemma keeps_Promise_all (ps : list (JS unit)) :
  Forall (keeps mode R) ps -> keeps mode R (Promise_all ps).
Proof.
  induction 1 as [|p ps Hp _ IH]; simpl; [apply keeps_ret|].
  intros w Hw. specialize (Hp w Hw).
  assert (mode (snd (p w))) as Hw' by (by eapply mode_stable).
  specialize (IH _ Hw').
  destruct (p w) as [[a|e] w']; simpl in *; by eapply R_trans.
Qed.

Lemma keeps_JSON_parse_products t : keeps mode R (JSON_parse_products t).
Proof. destruct t; first [apply keeps_ret | apply keeps_throw]. Qed.

Lemma keeps_JSON_parse_orders t : keeps mode R (JSON_parse_orders t).
Proof. destruct t; first [apply keeps_ret | apply keeps_throw]. Qed.

Lemma keeps_JSON_parse_tables t : keeps mode R (JSON_parse_tables t).
Proof. destruct t; first [apply keeps_ret | apply keeps_throw]. Qed.

Lemma keeps_Date_now : keeps mode R window.Date_now.
Proof. by apply keeps_pure. Qed.

Lemma keeps_getItem key : keeps mode R (safeStorage.getItem key).
Proof. apply keeps_pure. intros w. by rewrite getItem_eq. Qed.

End Keeps.

Section Modes.

Lemma same_remote_refl w : same_remote w w.
Proof. by unfold same_remote. Qed.

Lemma same_remote_trans w1 w2 w3 :
  same_remote w1 w2 -> same_remote w2 w3 -> same_remote w1 w3.
Proof. unfold same_remote. intros (?&?&?&?) (?&?&?&?). repeat split; congruence. Qed.

Lemma fallback_mode_stable w w' : fallback_mode w -> same_remote w w' -> fallback_mode w'.
Proof. unfold fallback_mode, same_remote. intros ? (?&_). congruence. Qed.

Lemma same_browser_refl w : same_browser w w.
Proof. by unfold same_browser. Qed.

Lemma same_browser_trans w1 w2 w3 :
  same_browser w1 w2 -> same_browser w2 w3 -> same_browser w1 w3.
Proof.
  unfold same_browser. intros (?&?&?&?&?) (?&?&?&?&?). repeat split; congruence.
Qed.

Lemma cloud_mode_stable w w' : cloud_mode w -> same_browser w w' -> cloud_mode w'.
Proof. unfold cloud_mode, same_browser. intros ? (Hdb&_). by rewrite Hdb. Qed.

(** The branch a mode takes. *)
Lemma keeps_isCloud_fallback {B : Type} R (k : bool -> JS B) :
  keeps fallback_mode R (k false) -> keeps fallback_mode R (bind isCloud k).
Proof. intros Hk w Hw. rewrite bind_isCloud_local by done. by apply Hk. Qed.

Lemma keeps_isCloud_cloud {B : Type} R (k : bool -> JS B) :
  keeps cloud_mode R (k true) -> keeps cloud_mode R (bind isCloud k).
Proof.
  intros Hk w Hw. destruct Hw as [h Hdb] eqn:E.
  rewrite (bind_isCloud_cloud _ _ h) by done. apply Hk. by exists h.
Qed.

(** The fallback store's primitives leave everything remote. *)
Lemma remote_setItem key value : keeps fallback_mode same_remote (safeStorage.setItem key value).
Proof. intros w _. rewrite setItem_eq, put_eq. by unfold same_remote. Qed.

Lemma remote_removeItem key : keeps fallback_mode same_remote (safeStorage.removeItem key).
Proof. intros w _. rewrite removeItem_eq. by unfold same_remote. Qed.

Lemma remote_alert a : keeps fallback_mode same_remote (window.alert a).
Proof. intros w _. by unfold same_remote. Qed.

(** The requests to the backend leave everything the browser stores. *)
Lemma browser_request : keeps cloud_mode same_browser firestore.request.
Proof.
  intros w _. unfold firestore.request. fs_unfold. simpl.
  destruct (outage (cloud w)); by unfold same_browser.
Qed.

Lemma browser_modify_cloud f : keeps cloud_mode same_browser (firestore.modify_cloud f).
Proof. intros w _. by unfold same_browser. Qed.

Lemma browser_get_world : keeps cloud_mode same_browser get_world.
Proof. intros w _. by unfold same_browser. Qed.

Lemma browser_alert a : keeps cloud_mode same_browser (window.alert a).
Proof. intros w _. by unfold same_browser. Qed.

End Modes.

Ltac keeps_remote :=
  repeat first
    [ apply keeps_isCloud_fallback
    | apply (keeps_bind fallback_mode same_remote
               same_remote_trans fallback_mode_stable); [|intros ?]
    | apply (keeps_try_catch fallback_mode same_remote
               same_remote_trans fallback_mode_stable); [|intros ?]
    | apply (keeps_ret fallback_mode same_remote same_remote_refl)
    | apply (keeps_throw fallback_mode same_remote same_remote_refl)
    | apply (keeps_JSON_parse_products fallback_mode same_remote same_remote_refl)
    | apply (keeps_JSON_parse_orders fallback_mode same_remote same_remote_refl)
    | apply (keeps_JSON_parse_tables fallback_mode same_remote same_remote_refl)
    | apply (keeps_Date_now fallback_mode same_remote same_remote_refl)
    | apply (keeps_getItem fallback_mode same_remote same_remote_refl)
    | apply remote_setItem
    | apply remote_removeItem
    | apply remote_alert
    | match goal with
      | |- keeps _ _ (match ?x with _ => _ end) => destruct x
      end ].

Ltac keeps_browser :=
  repeat first
    [ apply keeps_isCloud_cloud
    | apply (keeps_bind cloud_mode same_browser
               same_browser_trans cloud_mode_stable); [|intros ?]
    | apply (keeps_try_catch cloud_mode same_browser
               same_browser_trans cloud_mode_stable); [|intros ?]
    | apply (keeps_forEach cloud_mode same_browser same_browser_refl
               same_browser_trans cloud_mode_stable); intros ?
    | apply (keeps_ret cloud_mode same_browser same_browser_refl)
    | apply (keeps_throw cloud_mode same_browser same_browser_refl)
    | apply (keeps_Date_now cloud_mode same_browser same_browser_refl)
    | apply browser_request
    | apply browser_modify_cloud
    | apply browser_get_world
    | apply browser_alert
    | match goal with
      | |- keeps _ _ (match ?x with _ => _ end) => destruct x
      end ].

Section ServeKeeps.

Lemma serve_keeps_remote r : keeps fallback_mode same_remote (serve r).
Proof.
  destruct r; unfold serve;
    unfold StorageService.subscribeProducts, StorageService.subscribeProducts_fetch,
      StorageService.subscribeOrders, StorageService.subscribeOrders_fetch,
      StorageService.subscribeTables, StorageService.subscribeTables_fetch,
      StorageService.saveProduct, StorageService.deleteProduct,
      StorageService.createOrder, StorageService.updateOrderStatus,
      StorageService.requestTableClose, StorageService.finalizeTable,
      StorageService.getOrdersOnce, StorageService.runDiagnostics;
    cbv zeta; keeps_remote.
Qed.

Lemma processDocs_keep_browser docs seen :
  Forall (keeps cloud_mode same_browser) (StorageService.processDocs docs seen).
Proof.
  revert seen. induction docs as [|[ref data] docs IH]; intros seen; simpl; [done|].
  destruct (decide _); [done|]. destruct (_ && _); [|done].
  constructor; [|done]. unfold firestore.updateDoc_order. keeps_browser.
Qed.

Lemma serve_keeps_browser r : keeps cloud_mode same_browser (serve r).
Proof.
  destruct r; unfold serve;
    unfold StorageService.subscribeProducts, StorageService.subscribeOrders,
      StorageService.subscribeTables,
      StorageService.saveProduct, StorageService.deleteProduct,
      StorageService.createOrder, StorageService.updateOrderStatus,
      StorageService.requestTableClose, StorageService.finalizeTable,
      StorageService.getOrdersOnce, StorageService.runDiagnostics,
      Promise_all_2,
      firestore.updateDoc_product, firestore.updateDoc_order,
      firestore.addDoc_product, firestore.addDoc_order,
      firestore.deleteDoc_product, firestore.deleteDoc_table,
      firestore.getDocs_products_where_name, firestore.getDocs_orders_where_tableId,
      firestore.getDocs_orders, firestore.getDocs_products_limit,
      firestore.setDoc_table_merge;
    cbv zeta; keeps_browser.
  apply (keeps_Promise_all cloud_mode same_browser same_browser_refl
           same_browser_trans cloud_mode_stable).
  apply processDocs_keep_browser.
Qed.

End ServeKeeps.

(** X25.  A service in fallback mode stays in fallback mode and never
    reaches the backend: whatever calls a client makes, in whatever order,
    whether they return or throw, the connection, the remote database, the
    SDK and the log of connection attempts are what they were. *)
Theorem fallback_session_keeps_remote (w : World) (rs : list Request) :
  db w = None ->
  let w' := snd (session rs w) in
  db w' = None /\ cloud w' = cloud w /\ sdk w' = sdk w /\ attempts w' = attempts w.
Proof.
  intros Hdb w'. subst w'.
  assert (keeps fallback_mode same_remote (session rs)) as Hkeeps.
  { unfold session.
    apply (keeps_forEach fallback_mode same_remote same_remote_refl
             same_remote_trans fallback_mode_stable).
    intros r.
    apply (keeps_try_catch fallback_mode same_remote
             same_remote_trans fallback_mode_stable);
      [apply serve_keeps_remote|].
    intros e. apply (keeps_ret fallback_mode same_remote same_remote_refl). }
  destruct (Hkeeps w Hdb) as (Hdb' & ? & ? & ?). by rewrite Hdb' in *.
Qed.

Lemma fallback_session_keeps_remote_witness :
  cloud (snd (session [SubscribeProducts; CreateOrder 7 thirsty_cart None;
                       RequestTableClose 7 "card"; FinalizeTable 7; RunDiagnostics]
                      fresh_world))
  = cloud fresh_world.
Proof.
  destruct (fallback_session_keeps_remote fresh_world
              [SubscribeProducts; CreateOrder 7 thirsty_cart None;
               RequestTableClose 7 "card"; FinalizeTable 7; RunDiagnostics])
    as (_ & Hcloud & _); [reflexivity|exact Hcloud].
Defined.

(** X26.  A service in cloud mode stays in cloud mode and never touches the
    fallback store: whatever calls a client makes, in whatever order,
    whether they return or throw, the connection, the in-memory map and the
    browser's medium are what they were. *)
Theorem cloud_session_keeps_browser_store (w : World) (h : Handle) (rs : list Request) :
  db w = Some h ->
  let w' := snd (session rs w) in
  db w' = Some h /\ memoryStore w' = memoryStore w /\ localStorage w' = localStorage w.
Proof.
  intros Hdb w'. subst w'.
  assert (keeps cloud_mode same_browser (session rs)) as Hkeeps.
  { unfold session.
    apply (keeps_forEach cloud_mode same_browser same_browser_refl
             same_browser_trans cloud_mode_stable).
    intros r.
    apply (keeps_try_catch cloud_mode same_browser
             same_browser_trans cloud_mode_stable);
      [apply serve_keeps_browser|].
    intros e. apply (keeps_ret cloud_mode same_browser same_browser_refl). }
  destruct (Hkeeps w) as (Hdb' & ? & ? & _); [by exists h|].
  by rewrite Hdb', Hdb.
Qed.

Lemma cloud_session_keeps_browser_store_witness :
  memoryStore (snd (session [SaveProduct beer_delivery; CreateOrder 7 thirsty_cart None;
                             UpdateOrderStatus "auto-id" CANCELED; FinalizeTable 7]
                            cloud_world))
  = memoryStore cloud_world.
Proof.
  destruct (cloud_session_keeps_browser_store cloud_world FirestoreHandle
              [SaveProduct beer_delivery; CreateOrder 7 thirsty_cart None;
               UpdateOrderStatus "auto-id" CANCELED; FinalizeTable 7])
    as (_ & Hmemory & _); [reflexivity|exact Hmemory].
Defined.
